(** * News MoodMap: the analog-retrieval and mood-blending pipeline

    The repository drives BigQuery from Python: every stage of
    [processing.py] and [analytics.py] is one SQL statement (or a loop of
    them) that replaces one table of the dataset [world_mood].  The
    development embeds those statements as functions over tables (lists of
    rows) and threads the dataset through the stages as explicit state.

    Embedded: [create_daily_country_topics], [generate_news_embeddings],
    [fn_similar_to_day] and [create_daily_top_entities] of
    [processing.py]; [create_today_for_analogs], [run_analog_searches],
    [save_daily_analogs], [create_daily_briefings] and
    [create_daily_moodmap] of [analytics.py].  The table
    [gdelt_events_enriched], which [ingestion.py] builds, is part of the
    initial state; the rows of [gdelt_events_raw] are an argument of the
    aggregation.

    Left to the [client], the value the Python code passes to every stage:
    the vector search, the text model, [CURRENT_DATE()], the rendering of a
    date, the order of rows wherever SQL leaves it open, and the
    readability clean-up of the theme and people lists, which only shapes
    the text of a prompt.  The embedding model and the rendering of a
    FLOAT64 as text are arguments of the two stages that use them.  A
    theorem holds for every client.

    Conventions.
    - A nullable column is an [option]; SQL NULL is [None].
    - DATE is a day number ([Z]).
    - FLOAT64 is idealised as an exact rational ([Q]): binary64 rounding
      error, overflow and NaN are outside the model, the decimal rounding
      of [ROUND(x, 4)] is inside it.
    - STRING is an ASCII [string]; patterns work on [list ascii]. *)

From Stdlib Require Import List String Ascii ZArith NArith QArith Qround Qabs Bool Arith.
From Stdlib Require Import Lia Lqa.
From Stdlib Require Import Permutation Sorted FinFun DecimalString.
Import ListNotations.

(* ===================================================================== *)
(** ** SQL building blocks *)
(* ===================================================================== *)

Module Sql.

Definition date := Z.
Definition float64 := Q.

(** *** NULL handling *)

(** [COALESCE(e1, ..., en)]: the first argument that is not NULL. *)
Fixpoint coalesce {A : Type} (args : list (option A)) : option A :=
  match args with
  | [] => None
  | Some v :: _ => Some v
  | None :: rest => coalesce rest
  end.

Definition is_not_null {A : Type} (x : option A) : bool :=
  match x with Some _ => true | None => false end.

(** A scalar function applied to nullable arguments is NULL as soon as one
    argument is. *)
Definition null_bind {A B : Type} (x : option A) (k : A -> option B) : option B :=
  match x with Some v => k v | None => None end.

Notation "x <- e ;; k" := (null_bind e (fun x => k))
  (at level 61, e at next level, right associativity).

Definition sql_add (a b : option float64) : option float64 :=
  x <- a ;; y <- b ;; Some (x + y)%Q.

(** FLOAT64 division by a non-zero literal (the statements only divide by
    the constants 10 and 2). *)
Definition sql_div (a b : option float64) : option float64 :=
  x <- a ;; y <- b ;; Some (x / y)%Q.

(** Nearest integer, halfway cases away from zero. *)
Definition round_half_away (x : Q) : Z :=
  if Qle_bool 0 x then Qfloor (x + (1 # 2)) else Z.opp (Qfloor (- x + (1 # 2))).

(** [ROUND(x, n)]: [x] rounded to [n] decimal places, halfway cases away
    from zero. *)
Definition sql_round (x : option float64) (n : nat) : option float64 :=
  v <- x ;;
  Some (inject_Z (round_half_away (v * inject_Z (10 ^ Z.of_nat n)))
        / inject_Z (10 ^ Z.of_nat n))%Q.

(** *** Row order

    SQL leaves open the order in which a scan, a GROUP BY or an UNNEST
    hands its rows on.  [ORDER BY] fixes the order of rows with different
    keys only; rows with equal keys stay in the order the engine fed them.
    [scan] is that choice: any permutation of the rows. *)
Record scan : Type := {
  row_order : forall A : Type, list A -> list A;
  row_order_perm : forall (A : Type) (l : list A), Permutation l (row_order A l)
}.

(** The engine that keeps rows in table order. *)
Definition fifo_scan : scan :=
  {| row_order := fun _ l => l;
     row_order_perm := fun _ l => Permutation_refl l |}.

(** The engine that hands rows on in reverse table order. *)
Definition lifo_scan : scan :=
  {| row_order := fun A l => rev l;
     row_order_perm := fun A l => Permutation_rev l |}.

Fixpoint insert_by {A : Type} (leb : A -> A -> bool) (x : A) (l : list A) : list A :=
  match l with
  | [] => [x]
  | y :: l' => if leb x y then x :: l else y :: insert_by leb x l'
  end.

(** Stable sort: equal keys keep their input order. *)
Definition sort_by {A : Type} (leb : A -> A -> bool) (l : list A) : list A :=
  fold_right (insert_by leb) [] l.

(** [ORDER BY]: [leb a b] says that [a] may stand before [b]. *)
Definition order_by {A : Type} (e : scan) (leb : A -> A -> bool) (l : list A) : list A :=
  sort_by leb (row_order e A l).

(** [LIMIT k] after an [ORDER BY]. *)
Definition limit {A : Type} (k : nat) (l : list A) : list A := firstn k l.

(** [LIMIT k] with no [ORDER BY]: any [k] rows. *)
Definition limit_any {A : Type} (e : scan) (k : nat) (l : list A) : list A :=
  firstn k (row_order e A l).

(** *** Joins and grouping *)

Definition inner_join {A B : Type} (on : A -> B -> bool) (l : list A) (r : list B)
  : list (A * B) :=
  flat_map (fun a => map (fun b => (a, b)) (filter (on a) r)) l.

(** [LEFT JOIN]: a left row without a partner is kept once, with NULLs. *)
Definition left_join {A B : Type} (on : A -> B -> bool) (l : list A) (r : list B)
  : list (A * option B) :=
  flat_map (fun a =>
    match filter (on a) r with
    | [] => [(a, None)]
    | bs => map (fun b => (a, Some b)) bs
    end) l.

(** Distinct values, in the order of their first occurrence. *)
Fixpoint distinct {K : Type} (eqb : K -> K -> bool) (l : list K) : list K :=
  match l with
  | [] => []
  | x :: l' => x :: filter (fun y => negb (eqb x y)) (distinct eqb l')
  end.

(** [GROUP BY key]: one group per distinct key, holding the rows of that
    key. *)
Definition group_by {A K : Type} (eqb : K -> K -> bool) (key : A -> K) (rows : list A)
  : list (K * list A) :=
  map (fun k => (k, filter (fun r => eqb (key r) k) rows)) (distinct eqb (map key rows)).

(** [MAX(d)] over a column of dates; NULL on an empty table. *)
Definition max_date (l : list date) : option date :=
  match l with
  | [] => None
  | d :: l' => Some (fold_left Z.max l' d)
  end.

(** *** Text *)

Definition text := list ascii.

Definition chars (s : string) : text := list_ascii_of_string s.
Definition str (t : text) : string := string_of_list_ascii t.

Definition is_digit (c : ascii) : bool :=
  let n := nat_of_ascii c in (48 <=? n)%nat && (n <=? 57)%nat.

Definition is_upper (c : ascii) : bool :=
  let n := nat_of_ascii c in (65 <=? n)%nat && (n <=? 90)%nat.

(** RE2's [\s]: tab, newline, form feed, carriage return, space. *)
Definition is_space (c : ascii) : bool :=
  let n := nat_of_ascii c in
  (n =? 9)%nat || (n =? 10)%nat || (n =? 12)%nat || (n =? 13)%nat || (n =? 32)%nat.

(** The lower-case form of an ASCII character. *)
Definition lower_char (c : ascii) : ascii :=
  if is_upper c then ascii_of_nat (nat_of_ascii c + 32) else c.

(** *** Characters

    A STRING is UTF-8 text, held as its bytes.  A character is one ASCII
    byte, or a byte from 128 on with the continuation bytes (128 to 191)
    that follow it. *)

Definition byte (c : ascii) : N := N_of_ascii c.
Definition of_byte (n : N) : ascii := ascii_of_N n.

Definition is_ascii (c : ascii) : bool := (byte c <? 128)%N.

Definition is_continuation (c : ascii) : bool :=
  (128 <=? byte c)%N && (byte c <? 192)%N.

Definition starts_with_continuation (g : text) : bool :=
  match g with
  | c :: _ => is_continuation c
  | [] => false
  end.

(** One more byte in front of a text already cut into characters. *)
Definition add_byte (c : ascii) (groups : list text) : list text :=
  match groups with
  | g :: rest =>
      if negb (is_ascii c) && starts_with_continuation g then (c :: g) :: rest
      else [c] :: groups
  | [] => [[c]]
  end.

(** The characters of a text, each as its bytes. *)
Definition characters (t : text) : list text := fold_right add_byte [] t.

(** The code point of a character; none for a byte sequence that is not
    the UTF-8 form of one. *)
Definition decode (g : text) : option N :=
  match g with
  | [] => None
  | c :: tail =>
      if forallb is_continuation tail then
        let b0 := byte c in
        match map byte tail with
        | [] => if (b0 <? 128)%N then Some b0 else None
        | [b1] =>
            if (192 <=? b0)%N && (b0 <? 224)%N then
              let p := ((b0 - 192) * 64 + (b1 - 128))%N in
              if (128 <=? p)%N then Some p else None
            else None
        | [b1; b2] =>
            if (224 <=? b0)%N && (b0 <? 240)%N then
              let p := ((b0 - 224) * 4096 + (b1 - 128) * 64 + (b2 - 128))%N in
              if (2048 <=? p)%N then Some p else None
            else None
        | [b1; b2; b3] =>
            if (240 <=? b0)%N && (b0 <? 248)%N then
              let p := ((b0 - 240) * 262144 + (b1 - 128) * 4096
                        + (b2 - 128) * 64 + (b3 - 128))%N in
              if (65536 <=? p)%N then Some p else None
            else None
        | _ => None
        end
      else None
  end.

(** The UTF-8 form of a code point. *)
Definition utf8 (p : N) : text :=
  if (p <? 128)%N then [ of_byte p ]
  else if (p <? 2048)%N then
    [ of_byte (192 + p / 64); of_byte (128 + p mod 64) ]
  else if (p <? 65536)%N then
    [ of_byte (224 + p / 4096); of_byte (128 + (p / 64) mod 64);
      of_byte (128 + p mod 64) ]
  else
    [ of_byte (240 + (p / 262144) mod 8); of_byte (128 + (p / 4096) mod 64);
      of_byte (128 + (p / 64) mod 64); of_byte (128 + p mod 64) ].

(** The simple lower-case mapping of the Unicode Character Database
    (version 14), in runs: (first code point, number of code points, step
    between them, lower-case form of the first).  Within a run the
    lower-case forms advance by the same step. *)
Definition lower_case_runs : list (N * N * N * N) :=
  [
    (65, 26, 1, 97); (192, 23, 1, 224); (216, 7, 1, 248); (256, 24, 2, 257);
    (304, 1, 1, 105); (306, 3, 2, 307); (313, 8, 2, 314); (330, 23, 2, 331);
    (376, 1, 1, 255); (377, 3, 2, 378); (385, 1, 1, 595); (386, 2, 2, 387);
    (390, 1, 1, 596); (391, 1, 1, 392); (393, 2, 1, 598); (395, 1, 1, 396);
    (398, 1, 1, 477); (399, 1, 1, 601); (400, 1, 1, 603); (401, 1, 1, 402);
    (403, 1, 1, 608); (404, 1, 1, 611); (406, 1, 1, 617); (407, 1, 1, 616);
    (408, 1, 1, 409); (412, 1, 1, 623); (413, 1, 1, 626); (415, 1, 1, 629);
    (416, 3, 2, 417); (422, 1, 1, 640); (423, 1, 1, 424); (425, 1, 1, 643);
    (428, 1, 1, 429); (430, 1, 1, 648); (431, 1, 1, 432); (433, 2, 1, 650);
    (435, 2, 2, 436); (439, 1, 1, 658); (440, 1, 1, 441); (444, 1, 1, 445);
    (452, 1, 1, 454); (453, 1, 1, 454); (455, 1, 1, 457); (456, 1, 1, 457);
    (458, 1, 1, 460); (459, 9, 2, 460); (478, 9, 2, 479); (497, 1, 1, 499);
    (498, 2, 2, 499); (502, 1, 1, 405); (503, 1, 1, 447); (504, 20, 2, 505);
    (544, 1, 1, 414); (546, 9, 2, 547); (570, 1, 1, 11365); (571, 1, 1, 572);
    (573, 1, 1, 410); (574, 1, 1, 11366); (577, 1, 1, 578); (579, 1, 1, 384);
    (580, 1, 1, 649); (581, 1, 1, 652); (582, 5, 2, 583); (880, 2, 2, 881);
    (886, 1, 1, 887); (895, 1, 1, 1011); (902, 1, 1, 940); (904, 3, 1, 941);
    (908, 1, 1, 972); (910, 2, 1, 973); (913, 17, 1, 945); (931, 9, 1, 963);
    (975, 1, 1, 983); (984, 12, 2, 985); (1012, 1, 1, 952); (1015, 1, 1, 1016);
    (1017, 1, 1, 1010); (1018, 1, 1, 1019); (1021, 3, 1, 891); (1024, 16, 1, 1104);
    (1040, 32, 1, 1072); (1120, 17, 2, 1121); (1162, 27, 2, 1163); (1216, 1, 1, 1231);
    (1217, 7, 2, 1218); (1232, 48, 2, 1233); (1329, 38, 1, 1377);
    (4256, 38, 1, 11520); (4295, 1, 1, 11559); (4301, 1, 1, 11565);
    (5024, 80, 1, 43888); (5104, 6, 1, 5112); (7312, 43, 1, 4304); (7357, 3, 1, 4349);
    (7680, 75, 2, 7681); (7838, 1, 1, 223); (7840, 48, 2, 7841); (7944, 8, 1, 7936);
    (7960, 6, 1, 7952); (7976, 8, 1, 7968); (7992, 8, 1, 7984); (8008, 6, 1, 8000);
    (8025, 4, 2, 8017); (8040, 8, 1, 8032); (8072, 8, 1, 8064); (8088, 8, 1, 8080);
    (8104, 8, 1, 8096); (8120, 2, 1, 8112); (8122, 2, 1, 8048); (8124, 1, 1, 8115);
    (8136, 4, 1, 8050); (8140, 1, 1, 8131); (8152, 2, 1, 8144); (8154, 2, 1, 8054);
    (8168, 2, 1, 8160); (8170, 2, 1, 8058); (8172, 1, 1, 8165); (8184, 2, 1, 8056);
    (8186, 2, 1, 8060); (8188, 1, 1, 8179); (8486, 1, 1, 969); (8490, 1, 1, 107);
    (8491, 1, 1, 229); (8498, 1, 1, 8526); (8544, 16, 1, 8560); (8579, 1, 1, 8580);
    (9398, 26, 1, 9424); (11264, 48, 1, 11312); (11360, 1, 1, 11361);
    (11362, 1, 1, 619); (11363, 1, 1, 7549); (11364, 1, 1, 637); (11367, 3, 2, 11368);
    (11373, 1, 1, 593); (11374, 1, 1, 625); (11375, 1, 1, 592); (11376, 1, 1, 594);
    (11378, 1, 1, 11379); (11381, 1, 1, 11382); (11390, 2, 1, 575);
    (11392, 50, 2, 11393); (11499, 2, 2, 11500); (11506, 1, 1, 11507);
    (42560, 23, 2, 42561); (42624, 14, 2, 42625); (42786, 7, 2, 42787);
    (42802, 31, 2, 42803); (42873, 2, 2, 42874); (42877, 1, 1, 7545);
    (42878, 5, 2, 42879); (42891, 1, 1, 42892); (42893, 1, 1, 613);
    (42896, 2, 2, 42897); (42902, 10, 2, 42903); (42922, 1, 1, 614);
    (42923, 1, 1, 604); (42924, 1, 1, 609); (42925, 1, 1, 620); (42926, 1, 1, 618);
    (42928, 1, 1, 670); (42929, 1, 1, 647); (42930, 1, 1, 669); (42931, 1, 1, 43859);
    (42932, 8, 2, 42933); (42948, 1, 1, 42900); (42949, 1, 1, 642);
    (42950, 1, 1, 7566); (42951, 2, 2, 42952); (42960, 1, 1, 42961);
    (42966, 2, 2, 42967); (42997, 1, 1, 42998); (65313, 26, 1, 65345);
    (66560, 40, 1, 66600); (66736, 36, 1, 66776); (66928, 11, 1, 66967);
    (66940, 15, 1, 66979); (66956, 7, 1, 66995); (66964, 2, 1, 67003);
    (68736, 51, 1, 68800); (71840, 32, 1, 71872); (93760, 32, 1, 93792);
    (125184, 34, 1, 125218)
  ]%N.

Definition run_pairs (r : N * N * N * N) : list (N * N) :=
  let '(first, count, step, target) := r in
  map (fun i => (first + step * N.of_nat i, target + step * N.of_nat i)%N)
      (seq 0 (N.to_nat count)).

(** Every code point with a lower-case form, with that form. *)
Definition lower_case_pairs : list (N * N) :=
  Eval vm_compute in flat_map run_pairs lower_case_runs.

Definition lower_code_point (p : N) : N :=
  match find (fun q => (fst q =? p)%N) lower_case_pairs with
  | Some q => snd q
  | None => p
  end.

(** A byte sequence that is no character stays as it is. *)
Definition lower_character (g : text) : text :=
  match decode g with
  | Some p => utf8 (lower_code_point p)
  | None => g
  end.

Definition lower_text (t : text) : text :=
  flat_map lower_character (characters t).

(** [LOWER(s)]: every character in its lower-case form. *)
Definition lower (s : string) : string := str (lower_text (chars s)).

(** [SPLIT(s, ',')[OFFSET(0)]]: the text before the first comma. *)
Fixpoint first_segment (t : text) : text :=
  match t with
  | [] => []
  | c :: t' => if Ascii.eqb c ","%char then [] else c :: first_segment t'
  end.

Definition split_offset0 (s : string) : string := str (first_segment (chars s)).

(** [LENGTH(s)]: the number of characters. *)
Definition sql_length (s : string) : nat := List.length (characters (chars s)).

(** [SUBSTR(s, 1, n)], cut here after [n] bytes: the same on ASCII text,
    which is what the statements cut. *)
Definition substr1 (s : string) (n : nat) : string := str (firstn n (chars s)).

(** [CONCAT(a, b, ...)]: NULL as soon as one argument is. *)
Fixpoint concat (args : list (option string)) : option string :=
  match args with
  | [] => Some EmptyString
  | a :: rest => x <- a ;; y <- concat rest ;; Some (x ++ y)%string
  end.

Fixpoint join (sep : string) (l : list string) : string :=
  match l with
  | [] => EmptyString
  | [x] => x
  | x :: rest => (x ++ sep ++ join sep rest)%string
  end.

Fixpoint omit_nulls {A : Type} (l : list (option A)) : list A :=
  match l with
  | [] => []
  | Some v :: rest => v :: omit_nulls rest
  | None :: rest => omit_nulls rest
  end.

(** [ARRAY_TO_STRING(arr, sep)]: NULL elements are left out. *)
Definition array_to_string (arr : list (option string)) (sep : string) : string :=
  join sep (omit_nulls arr).

(** *** Patterns

    The statements use patterns that are a sequence of character classes,
    each taken once, optionally, or repeatedly.  Matching is RE2's:
    leftmost, each repetition greedy, giving back characters when the rest
    of the pattern cannot match. *)

Inductive quantifier : Type := One | Opt | Star | Plus.

Record atom : Type := Atom { class : ascii -> bool; quant : quantifier }.

Definition pattern := list atom.

Definition push (c : ascii) (r : option (text * text)) : option (text * text) :=
  match r with
  | Some (m, rest) => Some (c :: m, rest)
  | None => None
  end.

(** As many [cls] characters as possible, then [k] on what follows. *)
Fixpoint star (cls : ascii -> bool) (k : text -> option (text * text)) (s : text)
  : option (text * text) :=
  match s with
  | c :: s' =>
      if cls c then
        match star cls k s' with
        | Some r => push c (Some r)
        | None => k s
        end
      else k s
  | [] => k []
  end.

(** A match of [p] at the start of [s]: the matched text and the rest. *)
Fixpoint match_here (p : pattern) (s : text) : option (text * text) :=
  match p with
  | [] => Some ([], s)
  | a :: p' =>
      match quant a with
      | One =>
          match s with
          | c :: s' => if class a c then push c (match_here p' s') else None
          | [] => None
          end
      | Opt =>
          match s with
          | c :: s' =>
              if class a c then
                match match_here p' s' with
                | Some r => push c (Some r)
                | None => match_here p' s
                end
              else match_here p' s
          | [] => match_here p' []
          end
      | Star => star (class a) (match_here p') s
      | Plus =>
          match s with
          | c :: s' => if class a c then push c (star (class a) (match_here p') s') else None
          | [] => None
          end
      end
  end.

(** The leftmost match of [p] in [s]. *)
Fixpoint find_first (p : pattern) (s : text) : option text :=
  match match_here p s with
  | Some (m, _) => Some m
  | None =>
      match s with
      | [] => None
      | _ :: s' => find_first p s'
      end
  end.

(** [REGEXP_EXTRACT(s, p)]: NULL when [s] is NULL or nothing matches. *)
Definition regexp_extract (s : option string) (p : pattern) : option string :=
  v <- s ;; option_map str (find_first p (chars v)).

(** Replace every match, left to right, matches not overlapping; [skip]
    counts the characters of the current match still to be dropped.  The
    patterns of the statements never match the empty text. *)
Fixpoint replace_from (p : pattern) (by_ : text) (skip : nat) (s : text) : text :=
  match s with
  | [] => []
  | c :: s' =>
      match skip with
      | S n => replace_from p by_ n s'
      | O =>
          match match_here p s with
          | Some (_ :: m, _) => by_ ++ replace_from p by_ (List.length m) s'
          | _ => c :: replace_from p by_ 0 s'
          end
      end
  end.

(** [REGEXP_REPLACE(s, p, by)]. *)
Definition regexp_replace (s : option string) (p : pattern) (by_ : string) : option string :=
  v <- s ;; Some (str (replace_from p (chars by_) 0 (chars v))).

Definition lit (c : ascii) : atom := Atom (Ascii.eqb c) One.

(** [-?\d+\.\d+] *)
Definition signed_decimal_re : pattern :=
  [ Atom (Ascii.eqb "-"%char) Opt; Atom is_digit Plus; lit "."%char; Atom is_digit Plus ].

(** [https?://\S+] *)
Definition url_re : pattern :=
  [ lit "h"%char; lit "t"%char; lit "t"%char; lit "p"%char;
    Atom (Ascii.eqb "s"%char) Opt;
    lit ":"%char; lit "/"%char; lit "/"%char;
    Atom (fun c => negb (is_space c)) Plus ].

(** *** Decimal literals *)

Definition digit_val (c : ascii) : Z := Z.of_nat (nat_of_ascii c - 48).

Definition digits_val (t : text) : Z :=
  fold_left (fun acc c => 10 * acc + digit_val c)%Z t 0%Z.

Fixpoint split_at_dot (t : text) : option (text * text) :=
  match t with
  | [] => None
  | c :: t' =>
      if Ascii.eqb c "."%char then Some ([], t')
      else match split_at_dot t' with
           | Some (i, f) => Some (c :: i, f)
           | None => None
           end
  end.

Definition all_digits (t : text) : bool :=
  match t with [] => false | _ => forallb is_digit t end.

Definition unsigned_decimal (t : text) : option Q :=
  match split_at_dot t with
  | Some (i, f) =>
      if all_digits i && all_digits f then
        Some (inject_Z (digits_val i)
              + inject_Z (digits_val f) / inject_Z (10 ^ Z.of_nat (List.length f)))%Q
      else None
  | None => None
  end.

(** [SAFE_CAST(s AS FLOAT64)] on the literals the pattern [-?\d+\.\d+] can
    produce: an optional minus sign, digits, a point, digits.  Any other
    text is NULL here; the cast is only ever applied to a match of that
    pattern. *)
Definition safe_cast_float64 (s : option string) : option float64 :=
  v <- s ;;
  match chars v with
  | c :: t =>
      if Ascii.eqb c "-"%char then option_map Qopp (unsigned_decimal t)
      else unsigned_decimal (c :: t)
  | [] => None
  end.

End Sql.

(* ===================================================================== *)
(** ** JSON values and [JSON_VALUE] *)
(* ===================================================================== *)

Module Json.

#[local] Unset Elimination Schemes.

Inductive json : Type :=
| JNull
| JBool (b : bool)
| JNumber (literal : string)
| JString (s : string)
| JArray (items : list json)
| JObject (members : list (string * json)).

#[local] Set Elimination Schemes.

(** One step of a JSONPath: [.name] or [[i]]. *)
Inductive step : Type :=
| Field (name : string)
| Index (i : nat).

Fixpoint member (name : string) (members : list (string * json)) : option json :=
  match members with
  | [] => None
  | (k, v) :: rest => if String.eqb k name then Some v else member name rest
  end.

Fixpoint json_query (path : list step) (j : json) : option json :=
  match path with
  | [] => Some j
  | Field name :: path' =>
      match j with
      | JObject members =>
          match member name members with
          | Some v => json_query path' v
          | None => None
          end
      | _ => None
      end
  | Index i :: path' =>
      match j with
      | JArray items =>
          match nth_error items i with
          | Some v => json_query path' v
          | None => None
          end
      | _ => None
      end
  end.

(** [JSON_VALUE(j, path)]: the scalar at [path] as a string; NULL when [j]
    is NULL, the path leads nowhere, or what it leads to is a JSON null, an
    array or an object. *)
Definition json_value (j : option json) (path : list step) : option string :=
  match j with
  | None => None
  | Some v =>
      match json_query path v with
      | Some (JString s) => Some s
      | Some (JNumber literal) => Some literal
      | Some (JBool true) => Some "true"%string
      | Some (JBool false) => Some "false"%string
      | _ => None
      end
  end.

End Json.

(* ===================================================================== *)
(** ** Tables of the dataset [world_mood], and the client *)
(* ===================================================================== *)

Module Schema.
Import Sql Json.

(** Every table of the pipeline is keyed by (event_date, country). *)
Class Keyed (R : Type) : Type := {
  event_date : R -> date;
  country : R -> string
}.

Definition same_key {A B : Type} `{Keyed A} `{Keyed B} (a : A) (b : B) : bool :=
  (event_date a =? event_date b)%Z && String.eqb (country a) (country b).

Definition has_key {A : Type} `{Keyed A} (d : date) (c : string) (a : A) : bool :=
  (event_date a =? d)%Z && String.eqb (country a) c.

(** The key as a pair, for [GROUP BY event_date, country]. *)
Definition key_of {A : Type} `{Keyed A} (a : A) : date * string :=
  (event_date a, country a).

Definition key_eqb (k1 k2 : date * string) : bool :=
  (fst k1 =? fst k2)%Z && String.eqb (snd k1) (snd k2).

(** [gdelt_events_enriched]: the columns the entity ranking reads. *)
Record enriched_row : Type := {
  ge_event_date : date;
  ge_country : string;
  themes : list string;
  persons : list string
}.

(** [daily_country_topics]: the columns later stages read. *)
Record topic_row : Type := {
  dct_event_date : date;
  dct_country : string;
  headline_count : nat;
  avg_tone : option float64;
  topic_doc : option string
}.

(** [news_embeddings]. *)
Record embedding_row : Type := {
  ne_event_date : date;
  ne_country : string;
  ne_topic_doc : option string;
  embedding : list float64;
  id : option string
}.

(** [today_for_analogs]. *)
Record cohort_row : Type := {
  tfa_event_date : date;
  tfa_country : string
}.

(** A row of [fn_similar_to_day]. *)
Record similar_row : Type := {
  sim_event_date : date;
  sim_country : string;
  sim_topic_doc : option string;
  sim_distance : float64;
  sim_id : option string
}.

(** A row of the analog search and of [daily_analogs_flat]. *)
Record analog_result : Type := {
  ar_event_date : date;
  ar_country : string;
  ar_past_date : date;
  ar_snippet : option string;
  ar_distance : float64
}.

(** [STRUCT(past_date, snippet, distance)]. *)
Record analog : Type := {
  past_date : date;
  snippet : option string;
  distance : float64
}.

(** [daily_analogs]. *)
Record daily_analogs_row : Type := {
  da_event_date : date;
  da_country : string;
  analogs : list analog;
  analogs_txt : string
}.

(** [STRUCT(theme, c)] and [STRUCT(person, c)]. *)
Record tag_count : Type := {
  tag : string;
  c : nat
}.

(** [daily_top_entities]. *)
Record entities_row : Type := {
  dte_event_date : date;
  dte_country : string;
  top_themes : list tag_count;
  top_people : list tag_count
}.

(** [daily_briefings]. *)
Record briefing_row : Type := {
  db_event_date : date;
  db_country : string;
  briefing_text : option string
}.

(** [daily_moodmap]. *)
Record moodmap_row : Type := {
  dm_event_date : date;
  dm_country : string;
  mood_score : option float64;
  dm_top_themes : list tag_count;
  dm_briefing_text : option string;
  summary_ref : option string
}.

#[export] Instance enriched_keyed : Keyed enriched_row :=
  {| event_date := ge_event_date; country := ge_country |}.
#[export] Instance topic_keyed : Keyed topic_row :=
  {| event_date := dct_event_date; country := dct_country |}.
#[export] Instance embedding_keyed : Keyed embedding_row :=
  {| event_date := ne_event_date; country := ne_country |}.
#[export] Instance cohort_keyed : Keyed cohort_row :=
  {| event_date := tfa_event_date; country := tfa_country |}.
#[export] Instance similar_keyed : Keyed similar_row :=
  {| event_date := sim_event_date; country := sim_country |}.
#[export] Instance analog_result_keyed : Keyed analog_result :=
  {| event_date := ar_event_date; country := ar_country |}.
#[export] Instance daily_analogs_keyed : Keyed daily_analogs_row :=
  {| event_date := da_event_date; country := da_country |}.
#[export] Instance entities_keyed : Keyed entities_row :=
  {| event_date := dte_event_date; country := dte_country |}.
#[export] Instance briefing_keyed : Keyed briefing_row :=
  {| event_date := db_event_date; country := db_country |}.
#[export] Instance moodmap_keyed : Keyed moodmap_row :=
  {| event_date := dm_event_date; country := dm_country |}.

(** The dataset: the state every stage reads and replaces a table of. *)
Record dataset : Type := {
  gdelt_events_enriched : list enriched_row;
  daily_country_topics : list topic_row;
  news_embeddings : list embedding_row;
  today_for_analogs : list cohort_row;
  daily_analogs_flat : list analog_result;
  daily_analogs : list daily_analogs_row;
  daily_top_entities : list entities_row;
  daily_briefings : list briefing_row;
  daily_moodmap : list moodmap_row
}.

(** [STRUCT(temp AS temperature, n AS max_output_tokens, TRUE AS
    flatten_json_output)]. *)
Record generation_params : Type := {
  temperature : Q;
  max_output_tokens : nat
}.

Definition generation (temp : Q) (max_tokens : nat) : generation_params :=
  {| temperature := temp; max_output_tokens := max_tokens |}.

(** One input row of [ML.GENERATE_TEXT]. *)
Record prompt_row : Type := {
  pr_event_date : date;
  pr_country : string;
  prompt : option string
}.

(** One output row [t] of [ML.GENERATE_TEXT]: the key columns it passes
    through, the text column the statements read, and the row as JSON
    ([SAFE.PARSE_JSON(TO_JSON_STRING(t))], NULL when that fails). *)
Record generated_row : Type := {
  gr_event_date : date;
  gr_country : string;
  ml_generate_text_llm_result : option string;
  row_json : option json
}.

#[export] Instance prompt_keyed : Keyed prompt_row :=
  {| event_date := pr_event_date; country := pr_country |}.
#[export] Instance generated_keyed : Keyed generated_row :=
  {| event_date := gr_event_date; country := gr_country |}.

(** What the model answers: the text column and the JSON of the row. *)
Record response : Type := {
  llm_result : option string;
  raw : option json
}.

(** The BigQuery client: everything the statements leave to the service. *)
Record client : Type := {
  engine : scan;
  (** [CURRENT_DATE()] *)
  current_date : date;
  (** [CAST(d AS STRING)] *)
  cast_date_as_string : date -> string;
  (** [VECTOR_SEARCH(TABLE base, 'embedding', query, 'embedding',
      top_k => k, distance_type => 'COSINE')]: base rows with distances. *)
  vector_search : list embedding_row -> list (list float64) -> nat
                  -> list (embedding_row * float64);
  (** the model behind [ML.GENERATE_TEXT], asked one prompt row; the
      answer may depend on the whole row, its key included *)
  gen_model : generation_params -> prompt_row -> response;
  (** the nested [REGEXP_REPLACE]/[TRIM]/[INITCAP] clean-up of the theme
      list and of the people list (analytics.py, lines 180-204); it only
      shapes the prompt *)
  themes_nice : string -> string;
  people_nice : string -> string
}.

(** The output row of [ML.GENERATE_TEXT] for one input row: the input's
    key, and the model's answer. *)
Definition generate_row (cl : client) (params : generation_params) (i : prompt_row)
  : generated_row :=
  let r := gen_model cl params i in
  {| gr_event_date := pr_event_date i;
     gr_country := pr_country i;
     ml_generate_text_llm_result := llm_result r;
     row_json := raw r |}.

(** [ML.GENERATE_TEXT(MODEL gen_model, (inputs), params)]: one output row
    per input row. *)
Definition ml_generate_text (cl : client) (params : generation_params)
  (inputs : list prompt_row) : list generated_row :=
  map (generate_row cl params) inputs.

Definition set_today_for_analogs (ds : dataset) (t : list cohort_row) : dataset :=
  {| gdelt_events_enriched := gdelt_events_enriched ds;
     daily_country_topics := daily_country_topics ds;
     news_embeddings := news_embeddings ds;
     today_for_analogs := t;
     daily_analogs_flat := daily_analogs_flat ds;
     daily_analogs := daily_analogs ds;
     daily_top_entities := daily_top_entities ds;
     daily_briefings := daily_briefings ds;
     daily_moodmap := daily_moodmap ds |}.

Definition set_daily_analogs (ds : dataset) (flat : list analog_result)
  (t : list daily_analogs_row) : dataset :=
  {| gdelt_events_enriched := gdelt_events_enriched ds;
     daily_country_topics := daily_country_topics ds;
     news_embeddings := news_embeddings ds;
     today_for_analogs := today_for_analogs ds;
     daily_analogs_flat := flat;
     daily_analogs := t;
     daily_top_entities := daily_top_entities ds;
     daily_briefings := daily_briefings ds;
     daily_moodmap := daily_moodmap ds |}.

Definition set_daily_top_entities (ds : dataset) (t : list entities_row) : dataset :=
  {| gdelt_events_enriched := gdelt_events_enriched ds;
     daily_country_topics := daily_country_topics ds;
     news_embeddings := news_embeddings ds;
     today_for_analogs := today_for_analogs ds;
     daily_analogs_flat := daily_analogs_flat ds;
     daily_analogs := daily_analogs ds;
     daily_top_entities := t;
     daily_briefings := daily_briefings ds;
     daily_moodmap := daily_moodmap ds |}.

Definition set_daily_briefings (ds : dataset) (t : list briefing_row) : dataset :=
  {| gdelt_events_enriched := gdelt_events_enriched ds;
     daily_country_topics := daily_country_topics ds;
     news_embeddings := news_embeddings ds;
     today_for_analogs := today_for_analogs ds;
     daily_analogs_flat := daily_analogs_flat ds;
     daily_analogs := daily_analogs ds;
     daily_top_entities := daily_top_entities ds;
     daily_briefings := t;
     daily_moodmap := daily_moodmap ds |}.

Definition set_daily_moodmap (ds : dataset) (t : list moodmap_row) : dataset :=
  {| gdelt_events_enriched := gdelt_events_enriched ds;
     daily_country_topics := daily_country_topics ds;
     news_embeddings := news_embeddings ds;
     today_for_analogs := today_for_analogs ds;
     daily_analogs_flat := daily_analogs_flat ds;
     daily_analogs := daily_analogs ds;
     daily_top_entities := daily_top_entities ds;
     daily_briefings := daily_briefings ds;
     daily_moodmap := t |}.

(** The rows of a table that lie on its latest day
    ([JOIN latest ON event_date = latest.d], with
    [latest.d = MAX(event_date)] of [of_table]). *)
Definition on_latest_day {A B : Type} `{Keyed A} `{Keyed B}
  (of_table : list B) (rows : list A) : list A :=
  match max_date (map event_date of_table) with
  | Some d => filter (fun r => (event_date r =? d)%Z) rows
  | None => []
  end.

End Schema.

(* ===================================================================== *)
(** ** config.py *)
(* ===================================================================== *)

(** The defaults of the stage functions are these values. *)
Module Config.

Definition TOP_N : nat := 80.
Definition ANALOG_SNIP_CHARS : nat := 400.
Definition ANALOG_TOPK : nat := 5.
Definition CONTEXT_CHARS : nat := 700.
Definition MAX_TOKENS : nat := 300.
Definition TEMP : Q := 2 # 10.

End Config.

(* ===================================================================== *)
(** ** processing.py *)
(* ===================================================================== *)

Module Processing.
Import Sql Schema.

(** *** [fn_similar_to_day] (lines 147-184) *)

(** [anchor]: the embedding of (country_code, day), [LIMIT 1]. *)
Definition anchor (cl : client) (ds : dataset) (country_code : string) (day : date)
  : list (list float64) :=
  limit_any (engine cl) 1
    (map embedding
       (filter (fun r => String.eqb (country r) country_code && (event_date r =? day)%Z)
               (news_embeddings ds))).

(** The ten nearest rows of [news_embeddings], the anchor's own day left
    out ([WHERE vs.base.event_date <> day]). *)
Definition fn_similar_to_day (cl : client) (ds : dataset) (country_code : string)
  (day : date) : list similar_row :=
  map (fun vs =>
         {| sim_event_date := event_date (fst vs);
            sim_country := country (fst vs);
            sim_topic_doc := ne_topic_doc (fst vs);
            sim_distance := snd vs;
            sim_id := id (fst vs) |})
      (filter (fun vs => negb (event_date (fst vs) =? day)%Z)
              (vector_search cl (news_embeddings ds)
                 (anchor cl ds country_code day) 10)).

(** *** [create_daily_top_entities] (lines 187-249) *)

(** A row of the CTE [e]: one (theme, person) pair of one event. *)
Record exploded_row : Type := {
  e_event_date : date;
  e_country : string;
  theme : option string;
  person : option string
}.

(** An (event_date, country, tag) row, and its count. *)
Record tag_row : Type := {
  tr_event_date : date;
  tr_country : string;
  tr_tag : string
}.

Record count_row : Type := {
  cr_event_date : date;
  cr_country : string;
  cr_tag : string;
  cr_c : nat
}.

(** A row of the CTEs [top_themes] and [top_people]. *)
Record ranked_row : Type := {
  rk_event_date : date;
  rk_country : string;
  rk_top : list tag_count
}.

#[export] Instance exploded_keyed : Keyed exploded_row :=
  {| event_date := e_event_date; country := e_country |}.
#[export] Instance tag_row_keyed : Keyed tag_row :=
  {| event_date := tr_event_date; country := tr_country |}.
#[export] Instance count_keyed : Keyed count_row :=
  {| event_date := cr_event_date; country := cr_country |}.
#[export] Instance ranked_keyed : Keyed ranked_row :=
  {| event_date := rk_event_date; country := rk_country |}.

(** [event_date >= DATE_SUB(CURRENT_DATE(), INTERVAL 7 DAY)] *)
Definition in_window (cl : client) (r : enriched_row) : bool :=
  (current_date cl - 7 <=? event_date r)%Z.

(** [LOWER(SPLIT(t, ',')[OFFSET(0)])] *)
Definition normalize_tag (t : string) : string := lower (split_offset0 t).

(** CTE [e]: [FROM gdelt_events_enriched, UNNEST(themes) t,
    UNNEST(persons) p] pairs every theme of an event with every person of
    the same event. *)
Definition e (cl : client) (ds : dataset) : list exploded_row :=
  flat_map (fun r =>
    flat_map (fun t =>
      map (fun p =>
             {| e_event_date := event_date r;
                e_country := country r;
                theme := Some (normalize_tag t);
                person := Some (normalize_tag p) |})
          (persons r))
      (themes r))
    (filter (in_window cl) (gdelt_events_enriched ds)).

Definition platform_denylist : list string :=
  [ "facebook"; "twitter"; "instagram"; "linkedin"; "whatsapp"; "youtube" ]%string.

(** [person IS NOT NULL AND LENGTH(person) >= 3 AND person NOT IN (...)] *)
Definition keep_person (p : option string) : bool :=
  match p with
  | Some s => (3 <=? sql_length s)%nat && negb (existsb (String.eqb s) platform_denylist)
  | None => false
  end.

(** CTE [clean_people]. *)
Definition clean_people (cl : client) (ds : dataset) : list exploded_row :=
  filter (fun r => keep_person (person r)) (e cl ds).

Definition tag_row_eqb (a b : tag_row) : bool :=
  same_key a b && String.eqb (tr_tag a) (tr_tag b).

(** [SELECT event_date, country, tag, COUNT( * ) AS c ... GROUP BY 1,2,3] *)
Definition count_tags (rows : list tag_row) : list count_row :=
  map (fun g =>
         {| cr_event_date := event_date (fst g);
            cr_country := country (fst g);
            cr_tag := tr_tag (fst g);
            cr_c := List.length (snd g) |})
      (group_by tag_row_eqb (fun r => r) rows).

(** The rows of [e] whose tag column is not NULL, as tag rows. *)
Definition tag_rows (col : exploded_row -> option string) (rows : list exploded_row)
  : list tag_row :=
  flat_map (fun r =>
    match col r with
    | Some t => [ {| tr_event_date := event_date r; tr_country := country r; tr_tag := t |} ]
    | None => []
    end) rows.

(** CTE [theme_counts]: counted over [e], [WHERE theme IS NOT NULL]. *)
Definition theme_counts (cl : client) (ds : dataset) : list count_row :=
  count_tags (tag_rows theme (e cl ds)).

(** CTE [person_counts]: counted over [clean_people]. *)
Definition person_counts (cl : client) (ds : dataset) : list count_row :=
  count_tags (tag_rows person (clean_people cl ds)).

(** [ORDER BY c DESC] *)
Definition c_desc (a b : count_row) : bool := (cr_c b <=? cr_c a)%nat.

(** [STRUCT(tag, c)] *)
Definition to_tag_count (r : count_row) : tag_count := {| tag := cr_tag r; c := cr_c r |}.

(** [ARRAY_AGG(STRUCT(tag, c) ORDER BY c DESC LIMIT 10)] over the count
    rows of one group. *)
Definition ranking (e : scan) (counts : list count_row) : list tag_count :=
  map to_tag_count (limit 10 (order_by e c_desc counts)).

(** [SELECT event_date, country, ARRAY_AGG(...) ... GROUP BY 1,2] *)
Definition top10 (cl : client) (counts : list count_row) : list ranked_row :=
  map (fun g =>
         {| rk_event_date := fst (fst g);
            rk_country := snd (fst g);
            rk_top := ranking (engine cl) (snd g) |})
      (group_by key_eqb key_of counts).

(** CTEs [top_themes] and [top_people]. *)
Definition top_themes_cte (cl : client) (ds : dataset) : list ranked_row :=
  top10 cl (theme_counts cl ds).

Definition top_people_cte (cl : client) (ds : dataset) : list ranked_row :=
  top10 cl (person_counts cl ds).

(** [top_themes t LEFT JOIN top_people p USING (event_date, country)]; a
    NULL array is stored as the empty array. *)
Definition top_entities (cl : client) (ds : dataset) : list entities_row :=
  map (fun tp =>
         {| dte_event_date := event_date (fst tp);
            dte_country := country (fst tp);
            top_themes := rk_top (fst tp);
            top_people := match snd tp with Some p => rk_top p | None => [] end |})
      (left_join same_key (top_themes_cte cl ds) (top_people_cte cl ds)).

Definition create_daily_top_entities (cl : client) (ds : dataset) : dataset :=
  set_daily_top_entities ds (top_entities cl ds).

End Processing.

(* ===================================================================== *)
(** ** analytics.py *)
(* ===================================================================== *)

Module Analytics.
Import Sql Json Schema Processing.

Definition nl : string := String "010"%char EmptyString.
Definition dq : string := String (ascii_of_nat 34) EmptyString.

(** *** [create_today_for_analogs] (lines 6-26) *)

(** [ORDER BY headline_count DESC] *)
Definition headlines_desc (a b : topic_row) : bool :=
  (headline_count b <=? headline_count a)%nat.

Definition create_today_for_analogs (cl : client) (ds : dataset) (top_n : nat) : dataset :=
  set_today_for_analogs ds
    (map (fun r => {| tfa_event_date := event_date r; tfa_country := country r |})
         (limit top_n
            (order_by (engine cl) headlines_desc
               (on_latest_day (daily_country_topics ds) (daily_country_topics ds))))).

(** *** [run_analog_searches] (lines 31-70) *)

(** [ORDER BY distance ASC] *)
Definition by_distance {A : Type} (dist : A -> float64) (a b : A) : bool :=
  Qle_bool (dist a) (dist b).

(** [SUBSTR(REGEXP_REPLACE(doc, r'https?://\S+', ''), 1, n)] *)
Definition strip_urls_substr (doc : option string) (n : nat) : option string :=
  x <- regexp_replace doc url_re EmptyString ;; Some (substr1 x n).

(** [sim_query] for one cohort row: the rows of [fn_similar_to_day] dated
    before the anchor day, nearest first, at most [analog_topk] of them. *)
Definition sim_query (cl : client) (ds : dataset) (row : cohort_row)
  (analog_snip_chars analog_topk : nat) : list analog_result :=
  map (fun r =>
         {| ar_event_date := event_date row;
            ar_country := country row;
            ar_past_date := sim_event_date r;
            ar_snippet := strip_urls_substr (sim_topic_doc r) analog_snip_chars;
            ar_distance := sim_distance r |})
      (limit analog_topk
         (order_by (engine cl) (by_distance sim_distance)
            (filter (fun r => (sim_event_date r <? event_date row)%Z)
                    (fn_similar_to_day cl ds (country row) (event_date row))))).

(** The loop over [today_for_analogs]; the result is the data frame. *)
Definition run_analog_searches (cl : client) (ds : dataset)
  (analog_snip_chars analog_topk : nat) : list analog_result :=
  flat_map (fun row => sim_query cl ds row analog_snip_chars analog_topk)
           (row_order (engine cl) _ (today_for_analogs ds)).

(** *** [save_daily_analogs] (lines 73-137) *)

(** [CONCAT(CAST(a.past_date AS STRING), ': ', a.snippet)] *)
Definition analog_line (cl : client) (a : analog) : option string :=
  concat [ Some (cast_date_as_string cl (past_date a)); Some ": "%string; snippet a ].

(** The [ORDER BY a.distance ASC] of the text column sorts the array once
    more. *)
Definition render_analogs (cl : client) (arr : list analog) : string :=
  array_to_string
    (map (analog_line cl) (order_by (engine cl) (by_distance distance) arr))
    (nl ++ "- ")%string.

(** [STRUCT(past_date, snippet, distance)] *)
Definition to_struct (r : analog_result) : analog :=
  {| past_date := ar_past_date r; snippet := ar_snippet r; distance := ar_distance r |}.

(** CTE [ranked] with the final SELECT: one row per (event_date, country)
    of the flat table. *)
Definition aggregate_analogs (cl : client) (flat : list analog_result) (analog_topk : nat)
  : list daily_analogs_row :=
  map (fun g =>
         let arr :=
           map to_struct
               (limit analog_topk (order_by (engine cl) (by_distance ar_distance) (snd g))) in
         {| da_event_date := fst (fst g);
            da_country := snd (fst g);
            analogs := arr;
            analogs_txt := render_analogs cl arr |})
      (group_by key_eqb key_of flat).

(** The data frame replaces [daily_analogs_flat] (the two date columns go
    through [pd.to_datetime(...).dt.date] unchanged), then [daily_analogs]
    is rebuilt from it. *)
Definition save_daily_analogs (cl : client) (ds : dataset) (df : list analog_result)
  (analog_topk : nat) : dataset :=
  set_daily_analogs ds df (aggregate_analogs cl df analog_topk).

(** *** [create_daily_briefings] (lines 140-277) *)

Module Briefings.

Record to_summarize_row : Type := {
  ts_event_date : date;
  ts_country : string;
  ts_headline_count : nat;
  ts_ctx : option string;
  themes_top : string;
  people_top : string;
  ts_analogs_txt : option string
}.

Record normalized_row : Type := {
  n_event_date : date;
  n_country : string;
  n_headline_count : nat;
  ctx : option string;
  n_analogs_txt : string;
  n_themes_nice : string;
  n_people_nice : string
}.

Record final_row : Type := {
  f_event_date : date;
  f_country : string;
  f_briefing_text : option string
}.

#[export] Instance to_summarize_keyed : Keyed to_summarize_row :=
  {| event_date := ts_event_date; country := ts_country |}.
#[export] Instance normalized_keyed : Keyed normalized_row :=
  {| event_date := n_event_date; country := n_country |}.

(** [ARRAY_TO_STRING(ARRAY(SELECT t.tag FROM UNNEST(arr) t), ', ')] *)
Definition tags_joined (cl : client) (arr : list tag_count) : string :=
  array_to_string (map (fun t => Some (tag t)) (row_order (engine cl) _ arr)) ", ".

(** The joins of [to_summarize], before [ORDER BY ... LIMIT]. *)
Definition to_summarize_joined (cl : client) (ds : dataset) (context_chars : nat)
  : list to_summarize_row :=
  map (fun j =>
         let dct := fst (fst j) in
         let ent := snd (fst j) in
         let an := snd j in
         {| ts_event_date := event_date dct;
            ts_country := country dct;
            ts_headline_count := headline_count dct;
            ts_ctx := strip_urls_substr (topic_doc dct) context_chars;
            themes_top :=
              tags_joined cl (match ent with Some x => top_themes x | None => [] end);
            people_top :=
              tags_joined cl (match ent with Some x => top_people x | None => [] end);
            ts_analogs_txt := option_map analogs_txt an |})
      (left_join (fun l r => same_key (fst l) r)
         (left_join same_key
            (on_latest_day (daily_country_topics ds) (daily_country_topics ds))
            (daily_top_entities ds))
         (daily_analogs ds)).

(** CTE [to_summarize]. *)
Definition to_summarize (cl : client) (ds : dataset) (top_n context_chars : nat)
  : list to_summarize_row :=
  limit top_n
    (order_by (engine cl) (fun a b => (ts_headline_count b <=? ts_headline_count a)%nat)
       (to_summarize_joined cl ds context_chars)).

(** CTE [normalized]. *)
Definition normalize (cl : client) (s : to_summarize_row) : normalized_row :=
  {| n_event_date := event_date s;
     n_country := country s;
     n_headline_count := ts_headline_count s;
     ctx := ts_ctx s;
     n_analogs_txt :=
       match coalesce [ ts_analogs_txt s; Some "None"%string ] with
       | Some v => v
       | None => EmptyString
       end;
     n_themes_nice := themes_nice cl (themes_top s);
     n_people_nice := people_nice cl (people_top s) |}.

Definition normalized (cl : client) (ds : dataset) (top_n context_chars : nat)
  : list normalized_row :=
  map (normalize cl) (to_summarize cl ds top_n context_chars).

(** The prompt of one country. *)
Definition briefing_prompt (s : normalized_row) : prompt_row :=
  {| pr_event_date := event_date s;
     pr_country := country s;
     prompt :=
       concat
         [ Some "You are a news analyst. Country is an ISO code."%string; Some nl;
           Some "Fill in this EXACT template with ≤90 words, no intro/outro:"%string; Some nl;
           Some "[What happened] "%string; Some nl;
           Some "[Key drivers] "%string; Some nl;
           Some "[Impact] "%string; Some nl;
           Some "[Watch next] "%string; Some nl;
           Some "Rules:"%string; Some nl;
           Some "- Only summarize events for ISO code "%string; Some (country s);
           Some "."%string; Some nl;
           Some "- Use at least TWO items from "%string; Some dq;
           Some "Top themes (readable)"%string; Some dq;
           Some " and at least ONE name from "%string; Some dq;
           Some "Top people"%string; Some dq; Some "."%string; Some nl;
           Some "- Do NOT output raw taxonomy tokens. Use natural English phrases."%string;
           Some nl;
           Some "- Do NOT mention event codes. Avoid boilerplate."%string; Some nl;
           Some "- Include at least one concrete number if available."%string; Some nl;
           Some "- ALWAYS include all 4 sections."%string; Some nl;
           Some "- Limit each section to 1–2 sentences. Be concise and specific."%string;
           Some nl;
           Some "Top themes (readable): "%string;
           coalesce [ Some (n_themes_nice s); Some "none"%string ]; Some nl;
           Some "Top people: "%string;
           coalesce [ Some (n_people_nice s); Some "none"%string ]; Some nl;
           Some "Context: "%string; ctx s; Some nl;
           Some "Relevant past events to consider (analog history):"%string; Some nl;
           Some (n_analogs_txt s) ] |}.

(** CTE [llm]: [normalized s JOIN ML.GENERATE_TEXT(...) AS t ON] the key. *)
Definition llm (cl : client) (ds : dataset) (top_n context_chars max_tokens : nat)
  (temp : Q) : list (normalized_row * generated_row) :=
  let rows := normalized cl ds top_n context_chars in
  inner_join same_key rows
    (ml_generate_text cl
       (generation temp max_tokens)
       (map briefing_prompt rows)).

(** [$.ml_generate_text_result.candidates[0].content.parts[0].text] *)
Definition candidates_parts_path : list step :=
  [ Field "ml_generate_text_result"; Field "candidates"; Index 0; Field "content";
    Field "parts"; Index 0; Field "text" ].

(** [$.ml_generate_text_result.candidates[0].content[0].text] *)
Definition candidates_content_path : list step :=
  [ Field "ml_generate_text_result"; Field "candidates"; Index 0; Field "content";
    Index 0; Field "text" ].

(** [$.predictions[0].content] *)
Definition predictions_path : list step :=
  [ Field "predictions"; Index 0; Field "content" ].

(** [$.text] *)
Definition text_path : list step := [ Field "text" ].

(** The candidates of the [COALESCE] of CTE [final], in its order. *)
Definition extraction_paths (t : generated_row) : list (option string) :=
  [ ml_generate_text_llm_result t;
    json_value (row_json t) candidates_parts_path;
    json_value (row_json t) candidates_content_path;
    json_value (row_json t) predictions_path;
    json_value (row_json t) text_path ].

(** CTEs [fallback] and [final]. *)
Definition final (cl : client) (ds : dataset) (top_n context_chars max_tokens : nat)
  (temp : Q) : list final_row :=
  map (fun st =>
         {| f_event_date := event_date (fst st);
            f_country := country (fst st);
            f_briefing_text := coalesce (extraction_paths (snd st)) |})
      (llm cl ds top_n context_chars max_tokens temp).

End Briefings.

(** [SELECT * FROM final WHERE briefing_text IS NOT NULL] *)
Definition create_daily_briefings (cl : client) (ds : dataset)
  (top_n context_chars max_tokens : nat) (temp : Q) : dataset :=
  set_daily_briefings ds
    (map (fun f =>
            {| db_event_date := Briefings.f_event_date f;
               db_country := Briefings.f_country f;
               briefing_text := Briefings.f_briefing_text f |})
         (filter (fun f => is_not_null (Briefings.f_briefing_text f))
                 (Briefings.final cl ds top_n context_chars max_tokens temp))).

(** *** [create_daily_moodmap] (lines 280-396) *)

Module Moodmap.

Record joined_row : Type := {
  j_event_date : date;
  j_country : string;
  j_briefing_text : option string;
  j_avg_tone : option float64;
  j_top_themes : list tag_count
}.

Record parsed_row : Type := {
  p_event_date : date;
  p_country : string;
  p_avg_tone : option float64;
  p_top_themes : list tag_count;
  p_briefing_text : option string;
  sentiment_score : option float64
}.

Record blended_row : Type := {
  b_event_date : date;
  b_country : string;
  b_mood_score : option float64;
  b_top_themes : list tag_count;
  b_briefing_text : option string
}.

#[export] Instance joined_keyed : Keyed joined_row :=
  {| event_date := j_event_date; country := j_country |}.
#[export] Instance parsed_keyed : Keyed parsed_row :=
  {| event_date := p_event_date; country := p_country |}.
#[export] Instance blended_keyed : Keyed blended_row :=
  {| event_date := b_event_date; country := b_country |}.

(** CTE [joined_data]: the briefings of the latest day, each with the
    [avg_tone] of its country-day aggregate and its top themes. *)
Definition joined_data (ds : dataset) : list joined_row :=
  map (fun j =>
         let b := fst (fst j) in
         let g := snd (fst j) in
         let ent := snd j in
         {| j_event_date := event_date b;
            j_country := country b;
            j_briefing_text := briefing_text b;
            j_avg_tone := x <- g ;; avg_tone x;
            j_top_themes := match ent with Some x => top_themes x | None => [] end |})
      (left_join (fun l r => same_key (fst l) r)
         (left_join same_key
            (on_latest_day (daily_briefings ds) (daily_briefings ds))
            (daily_country_topics ds))
         (daily_top_entities ds)).

Definition sentiment_prompt (s : joined_row) : prompt_row :=
  {| pr_event_date := event_date s;
     pr_country := country s;
     prompt :=
       concat
         [ Some ("You are a sentiment analysis model. Read the news briefing and respond with a single number between -1 (very negative) and 1 (very positive)." ++ nl)%string;
           Some ("Briefing:" ++ nl)%string;
           j_briefing_text s; Some nl;
           Some "Sentiment score:"%string ] |}.

(** CTE [llm_outputs]. *)
Definition llm_outputs (cl : client) (ds : dataset) (temp : Q) (max_tokens : nat)
  : list (joined_row * generated_row) :=
  inner_join same_key (joined_data ds)
    (ml_generate_text cl
       (generation temp max_tokens)
       (map sentiment_prompt (joined_data ds))).

(** [SAFE_CAST(REGEXP_EXTRACT(llm_text, r'-?\d+\.\d+') AS FLOAT64)] *)
Definition extract_sentiment (llm_text : option string) : option float64 :=
  safe_cast_float64 (regexp_extract llm_text signed_decimal_re).

(** CTE [parsed_scores]. *)
Definition parsed_scores (cl : client) (ds : dataset) (temp : Q) (max_tokens : nat)
  : list parsed_row :=
  map (fun st =>
         {| p_event_date := event_date (fst st);
            p_country := country (fst st);
            p_avg_tone := j_avg_tone (fst st);
            p_top_themes := j_top_themes (fst st);
            p_briefing_text := j_briefing_text (fst st);
            sentiment_score := extract_sentiment (ml_generate_text_llm_result (snd st)) |})
      (llm_outputs cl ds temp max_tokens).

(** [ROUND((SAFE_CAST(sentiment_score AS FLOAT64)
            + SAFE_CAST(avg_tone AS FLOAT64) / 10) / 2, 4)];
    both casts are FLOAT64 to FLOAT64. *)
Definition blend (sentiment tone : option float64) : option float64 :=
  sql_round (sql_div (sql_add sentiment (sql_div tone (Some 10%Q))) (Some 2%Q)) 4.

(** CTE [blended_scores]. *)
Definition blended_scores (cl : client) (ds : dataset) (temp : Q) (max_tokens : nat)
  : list blended_row :=
  map (fun r =>
         {| b_event_date := event_date r;
            b_country := country r;
            b_mood_score := blend (sentiment_score r) (p_avg_tone r);
            b_top_themes := p_top_themes r;
            b_briefing_text := p_briefing_text r |})
      (parsed_scores cl ds temp max_tokens).

Definition summary_prompt (s : blended_row) : prompt_row :=
  {| pr_event_date := event_date s;
     pr_country := country s;
     prompt :=
       concat
         [ Some ("Summarize today’s news mood for the ISO country code " ++ dq)%string;
           Some (country s);
           Some (dq ++ ". ")%string;
           Some "Write ONE sentence (≤25 words). "%string;
           Some "Do not use labels. "%string;
           Some "Keep it concise, neutral, and hover-friendly."%string ] |}.

(** CTE [short_summary]. *)
Definition short_summary (cl : client) (ds : dataset) (temp : Q) (max_tokens : nat)
  : list moodmap_row :=
  map (fun st =>
         {| dm_event_date := event_date (fst st);
            dm_country := country (fst st);
            mood_score := b_mood_score (fst st);
            dm_top_themes := b_top_themes (fst st);
            dm_briefing_text := b_briefing_text (fst st);
            summary_ref := ml_generate_text_llm_result (snd st) |})
      (inner_join same_key (blended_scores cl ds temp max_tokens)
         (ml_generate_text cl
            (generation temp 60)
            (map summary_prompt (blended_scores cl ds temp max_tokens)))).

End Moodmap.

(** [SELECT * FROM short_summary WHERE mood_score IS NOT NULL] *)
Definition create_daily_moodmap (cl : client) (ds : dataset) (temp : Q) (max_tokens : nat)
  : dataset :=
  set_daily_moodmap ds
    (filter (fun r => is_not_null (mood_score r))
            (Moodmap.short_summary cl ds temp max_tokens)).

End Analytics.

(* ===================================================================== *)
(** ** What the specification says, stated on its own *)
(* ===================================================================== *)

Module Spec.
Import Sql Schema Processing.

(** The texts a pattern denotes. *)
Inductive matches : pattern -> text -> Prop :=
| m_nil : matches [] []
| m_one : forall a p ch m,
    quant a = One -> class a ch = true -> matches p m -> matches (a :: p) (ch :: m)
| m_opt_skip : forall a p m,
    quant a = Opt -> matches p m -> matches (a :: p) m
| m_opt_take : forall a p ch m,
    quant a = Opt -> class a ch = true -> matches p m -> matches (a :: p) (ch :: m)
| m_star_stop : forall a p m,
    quant a = Star -> matches p m -> matches (a :: p) m
| m_star_more : forall a p ch m,
    quant a = Star -> class a ch = true -> matches (a :: p) m -> matches (a :: p) (ch :: m)
| m_plus : forall a p ch m,
    quant a = Plus -> class a ch = true ->
    matches (Atom (class a) Star :: p) m -> matches (a :: p) (ch :: m).

Definition digits (t : text) : Prop :=
  t <> [] /\ Forall (fun ch => is_digit ch = true) t.

(** A signed decimal: an optional minus sign, digits, a point, digits. *)
Definition signed_decimal (m : text) : Prop :=
  exists sign int frac,
    m = sign ++ int ++ "."%char :: frac /\
    (sign = [] \/ sign = ["-"%char]) /\ digits int /\ digits frac.

(** [m] is the first signed decimal of [s]: it starts at the leftmost place
    where one starts, and it takes every digit that follows. *)
Definition first_signed_decimal (s m : text) : Prop :=
  exists pre post,
    s = pre ++ m ++ post /\ signed_decimal m /\
    (forall pre' m' post',
        s = pre' ++ m' ++ post' -> signed_decimal m' ->
        (List.length pre <= List.length pre')%nat) /\
    (forall ch post', post = ch :: post' -> is_digit ch = false).

Definition no_signed_decimal (s : text) : Prop :=
  forall pre m post, s = pre ++ m ++ post -> ~ signed_decimal m.

Definition no_signed_decimal_in (txt : string) : Prop := no_signed_decimal (chars txt).

(** The number a signed decimal writes: its integer digits, plus its
    fraction digits over the power of ten of their number, negated under a
    minus sign. *)
Definition decimal_value (negative : bool) (int frac : text) : Q :=
  let v := (inject_Z (digits_val int)
            + inject_Z (digits_val frac) / inject_Z (10 ^ Z.of_nat (List.length frac)))%Q in
  if negative then Qopp v else v.

(** Ascending by distance, with and without ties. *)
Definition ascending (arr : list analog) : Prop :=
  StronglySorted (fun a b => distance a <= distance b)%Q arr.

Definition strictly_ascending (arr : list analog) : Prop :=
  StronglySorted (fun a b => distance a < distance b)%Q arr.

(** The theme tags of one country-day, in the order the rows of [e] hold
    them. *)
Definition themes_seen (cl : client) (ds : dataset) (d : date) (ctry : string)
  : list string :=
  map tr_tag (filter (has_key d ctry) (tag_rows theme (e cl ds))).

(** The theme tags of one country-day as the specification counts them:
    one occurrence for every theme of every event of the key in the
    window, whatever else the event holds. *)
Definition theme_occurrences (cl : client) (ds : dataset) (d : date) (ctry : string)
  : list string :=
  flat_map (fun ev => map normalize_tag (themes ev))
           (filter (fun ev => in_window cl ev && has_key d ctry ev)
                   (gdelt_events_enriched ds)).

(** Tags ranked by the number of their occurrences, most frequent first,
    equally frequent tags in the order they were first seen; the first ten. *)
Definition first_seen_top10 (seen : list string) : list tag_count :=
  firstn 10
    (sort_by (fun a b => (c b <=? c a)%nat)
       (map (fun t => {| tag := t; c := count_occ string_dec seen t |})
            (distinct String.eqb seen))).

(** The ten highest counts of [counts], highest first, equal counts in any
    order. *)
Definition top10_of (counts : list count_row) (top : list tag_count) : Prop :=
  exists ranked,
    Permutation counts ranked /\
    StronglySorted (fun a b => (cr_c b <= cr_c a)%nat) ranked /\
    top = map (fun r => {| tag := cr_tag r; c := cr_c r |}) (firstn 10 ranked).

(** The first candidate that is not NULL. *)
Definition first_non_null {A : Type} (candidates : list (option A)) (v : A) : Prop :=
  exists i,
    nth_error candidates i = Some (Some v) /\
    forall j, (j < i)%nat -> nth_error candidates j = Some None.

End Spec.

(* ===================================================================== *)
(** ** A small dataset and two clients to evaluate the stages on *)
(* ===================================================================== *)

Module Demo.
Import Sql Json Schema Processing Analytics.
Open Scope string_scope.
Open Scope Z_scope.

Definition two_digits (d : Z) : string :=
  (if (d <? 10)%Z then "0" else "") ++ NilZero.string_of_uint (N.to_uint (Z.to_N d)).

(** Days are numbered within January 2024. *)
Definition january (d : date) : string := "2024-01-" ++ two_digits d.

(** A toy metric on one-dimensional embeddings; the whole base table is
    returned for a query row, nothing for an empty query. *)
Definition toy_search (base : list embedding_row) (query : list (list float64)) (k : nat)
  : list (embedding_row * float64) :=
  match query with
  | [] => []
  | q :: _ =>
      firstn k (map (fun b => (b, Qabs (hd 0%Q q - hd 0%Q (embedding b)))%Q) base)
  end.

Definition starts_with (p : string) (s : option string) : bool :=
  match s with Some v => String.prefix p v | None => false end.

(** The model. Asked for a sentiment it answers "0.30" for country A, a
    sentence holding 0.4 for B, the integer 1 for C and -1 otherwise. *)
Definition toy_model (params : generation_params) (i : prompt_row) : response :=
  if starts_with "You are a sentiment" (prompt i) then
    {| llm_result :=
         Some (if String.eqb (country i) "A" then "0.30"
               else if String.eqb (country i) "B" then "Sentiment: 0.4 (mildly positive)"
               else if String.eqb (country i) "C" then "1"
               else "-1");
       raw := None |}
  else if starts_with "You are a news analyst" (prompt i) then
    {| llm_result := None;
       raw := Some (JObject [ ("text", JString ("Briefing for " ++ country i)) ]) |}
  else
    {| llm_result := Some "A quiet day."; raw := None |}.

Definition toy_client (e : scan) : client :=
  {| engine := e;
     current_date := 10%Z;
     cast_date_as_string := january;
     vector_search := toy_search;
     gen_model := toy_model;
     themes_nice := fun s => s;
     people_nice := fun s => s |}.

Definition fifo_client : client := toy_client fifo_scan.
Definition lifo_client : client := toy_client lifo_scan.

Definition topic (d : date) (ctry : string) (n : nat) (tone : Q) : topic_row :=
  {| dct_event_date := d; dct_country := ctry; headline_count := n;
     avg_tone := Some tone;
     topic_doc := Some ("Country: " ++ ctry ++ " | Sample URLs: https://example.org/" ++ ctry) |}.

Definition embed (d : date) (ctry : string) (x : Q) : embedding_row :=
  {| ne_event_date := d; ne_country := ctry;
     ne_topic_doc := Some ("Country: " ++ ctry ++ " | Sample URLs: https://example.org/" ++ ctry);
     embedding := [x];
     id := Some (ctry ++ "-" ++ january d) |}.

Definition empty_dataset : dataset :=
  {| gdelt_events_enriched := []; daily_country_topics := []; news_embeddings := [];
     today_for_analogs := []; daily_analogs_flat := []; daily_analogs := [];
     daily_top_entities := []; daily_briefings := []; daily_moodmap := [] |}.

(** Three countries on day 10, two earlier country-days. *)
Definition week : dataset :=
  {| gdelt_events_enriched :=
       [ {| ge_event_date := 10%Z; ge_country := "A";
            themes := [ "TAX_FNCACT_PRESIDENT,12"; "ECON_INFLATION,40" ];
            persons := [ "Al"; "Twitter,33"; "Jane Doe,5" ] |};
         {| ge_event_date := 10%Z; ge_country := "A";
            themes := [ "ECON_INFLATION,7" ];
            persons := [ "Jane Doe,90"; "Twitter" ] |} ];
     daily_country_topics :=
       [ topic 10 "A" 30 5; topic 10 "B" 20 (-2); topic 10 "C" 10 3;
         topic 9 "A" 25 1; topic 8 "B" 5 (-1) ];
     news_embeddings :=
       [ embed 10 "A" 3; embed 10 "B" 4; embed 10 "C" 7; embed 9 "A" 1; embed 8 "B" 5 ];
     today_for_analogs := []; daily_analogs_flat := []; daily_analogs := [];
     daily_top_entities := []; daily_briefings := []; daily_moodmap := [] |}.

(** The first run ever: one day of data, so no country has history. *)
Definition first_day : dataset :=
  {| gdelt_events_enriched := [];
     daily_country_topics := [ topic 10 "A" 30 5; topic 10 "B" 20 (-2) ];
     news_embeddings := [ embed 10 "A" 3; embed 10 "B" 4 ];
     today_for_analogs := []; daily_analogs_flat := []; daily_analogs := [];
     daily_top_entities := []; daily_briefings := []; daily_moodmap := [] |}.

(** One event whose tags are not ASCII: a theme and a person in capitals
    with accents, two persons of two characters (three bytes) each, and a
    platform name. *)
Definition accented : dataset :=
  {| gdelt_events_enriched :=
       [ {| ge_event_date := 10; ge_country := "A";
            themes := [ "ÉCONOMIE,7" ];
            persons := [ "Éa"; "Ñu,3"; "JOSÉ ÁNGEL,3"; "Twitter,33" ] |} ];
     daily_country_topics := []; news_embeddings := [];
     today_for_analogs := []; daily_analogs_flat := []; daily_analogs := [];
     daily_top_entities := []; daily_briefings := []; daily_moodmap := [] |}.

(** One country-day whose themes come with different numbers of persons:
    protest once, in an event naming three persons; econ_inflation twice,
    in events naming one person each; election four times, in events
    naming nobody. *)
Definition uneven : dataset :=
  {| gdelt_events_enriched :=
       [ {| ge_event_date := 10; ge_country := "A";
            themes := [ "PROTEST,12" ];
            persons := [ "Ann Lee,3"; "Bob Ray,8"; "Cy Young,21" ] |};
         {| ge_event_date := 10; ge_country := "A";
            themes := [ "ECON_INFLATION,40" ]; persons := [ "Ann Lee,5" ] |};
         {| ge_event_date := 10; ge_country := "A";
            themes := [ "ECON_INFLATION,7" ]; persons := [ "Ann Lee,9" ] |};
         {| ge_event_date := 10; ge_country := "A";
            themes := [ "ELECTION,4" ]; persons := [] |};
         {| ge_event_date := 10; ge_country := "A";
            themes := [ "ELECTION,18" ]; persons := [] |};
         {| ge_event_date := 10; ge_country := "A";
            themes := [ "ELECTION,2" ]; persons := [] |};
         {| ge_event_date := 10; ge_country := "A";
            themes := [ "ELECTION,31" ]; persons := [] |} ];
     daily_country_topics := []; news_embeddings := [];
     today_for_analogs := []; daily_analogs_flat := []; daily_analogs := [];
     daily_top_entities := []; daily_briefings := []; daily_moodmap := [] |}.

(** The states of the run on [week], stage by stage. *)
Definition week_cohort : dataset :=
  create_today_for_analogs fifo_client (create_daily_top_entities fifo_client week)
    Config.TOP_N.

Definition week_searched : dataset :=
  save_daily_analogs fifo_client week_cohort
    (run_analog_searches fifo_client week_cohort Config.ANALOG_SNIP_CHARS Config.ANALOG_TOPK)
    Config.ANALOG_TOPK.

Definition week_briefed : dataset :=
  create_daily_briefings fifo_client week_searched
    Config.TOP_N Config.CONTEXT_CHARS Config.MAX_TOKENS Config.TEMP.

Definition week_mood : dataset :=
  create_daily_moodmap fifo_client week_briefed Config.TEMP Config.MAX_TOKENS.

(** The states of the run on [first_day]. *)
Definition first_day_cohort : dataset :=
  create_today_for_analogs fifo_client first_day Config.TOP_N.

Definition first_day_searched : dataset :=
  save_daily_analogs fifo_client first_day_cohort
    (run_analog_searches fifo_client first_day_cohort
       Config.ANALOG_SNIP_CHARS Config.ANALOG_TOPK)
    Config.ANALOG_TOPK.

(** A first run with three countries and room for two: [LIMIT 2] cuts the
    country with the fewest headlines. *)
Definition crowded_first_day : dataset :=
  {| gdelt_events_enriched := [];
     daily_country_topics := [ topic 10 "A" 30 5; topic 10 "B" 20 (-2); topic 10 "C" 10 3 ];
     news_embeddings := [ embed 10 "A" 3; embed 10 "B" 4; embed 10 "C" 7 ];
     today_for_analogs := []; daily_analogs_flat := []; daily_analogs := [];
     daily_top_entities := []; daily_briefings := []; daily_moodmap := [] |}.

Definition crowded_first_day_cohort : dataset :=
  create_today_for_analogs fifo_client crowded_first_day 2.

Definition crowded_first_day_searched : dataset :=
  save_daily_analogs fifo_client crowded_first_day_cohort
    (run_analog_searches fifo_client crowded_first_day_cohort
       Config.ANALOG_SNIP_CHARS Config.ANALOG_TOPK)
    Config.ANALOG_TOPK.

End Demo.

(* ===================================================================== *)
(** ** processing.py: the aggregation and the embedding of the aggregates *)
(* ===================================================================== *)

Module Aggregator.
Import Sql Schema.

(** *** [create_daily_country_topics] (lines 3-48) *)

(** [gdelt_events_raw]: the columns the aggregation reads. *)
Record raw_event : Type := {
  raw_event_date : date;
  raw_country : option string;
  EventRootCode : option string;
  tone : option float64;
  url : option string
}.

(** A raw event that passed
    [WHERE country IS NOT NULL AND event_date >= DATE_SUB(CURRENT_DATE(),
    INTERVAL 7 DAY)]. *)
Record kept_event : Type := {
  ke_event_date : date;
  ke_country : string;
  ke_code : option string;
  ke_tone : option float64;
  ke_url : option string
}.

#[export] Instance kept_keyed : Keyed kept_event :=
  {| event_date := ke_event_date; country := ke_country |}.

Definition kept (cl : client) (events : list raw_event) : list kept_event :=
  flat_map (fun r =>
    match raw_country r with
    | Some ctry =>
        if (current_date cl - 7 <=? raw_event_date r)%Z then
          [ {| ke_event_date := raw_event_date r; ke_country := ctry;
               ke_code := EventRootCode r; ke_tone := tone r; ke_url := url r |} ]
        else []
    | None => []
    end) events.

Definition total (l : list float64) : float64 := fold_right Qplus 0%Q l.

(** [AVG(x)]: over the values that are not NULL; NULL when there is none. *)
Definition sql_avg (col : list (option float64)) : option float64 :=
  match omit_nulls col with
  | [] => None
  | v :: vs => Some (total (v :: vs) / inject_Z (Z.of_nat (List.length (v :: vs))))%Q
  end.

Definition least (a b : float64) : float64 := if Qle_bool a b then a else b.
Definition greatest (a b : float64) : float64 := if Qle_bool a b then b else a.

(** [MIN(x)] and [MAX(x)]. *)
Definition sql_min (col : list (option float64)) : option float64 :=
  match omit_nulls col with
  | [] => None
  | v :: vs => Some (fold_left least vs v)
  end.

Definition sql_max (col : list (option float64)) : option float64 :=
  match omit_nulls col with
  | [] => None
  | v :: vs => Some (fold_left greatest vs v)
  end.

(** [ARRAY_AGG(DISTINCT x IGNORE NULLS LIMIT k)]: any [k] of the distinct
    values that are not NULL; NULL when there is none. *)
Definition array_agg_distinct (e : scan) (k : nat) (col : list (option string))
  : option (list string) :=
  match omit_nulls col with
  | [] => None
  | vs => Some (limit_any e k (distinct String.eqb vs))
  end.

(** A row of the CTE [country_day]. *)
Record country_day_row : Type := {
  cd_event_date : date;
  cd_country : string;
  cd_headline_count : nat;
  cd_avg_tone : option float64;
  cd_min_tone : option float64;
  cd_max_tone : option float64;
  cd_top_event_types : option (list string);
  cd_sample_urls : option (list string)
}.

#[export] Instance country_day_keyed : Keyed country_day_row :=
  {| event_date := cd_event_date; country := cd_country |}.

(** CTE [country_day]. *)
Definition country_day (cl : client) (events : list raw_event) : list country_day_row :=
  map (fun g =>
         {| cd_event_date := fst (fst g);
            cd_country := snd (fst g);
            cd_headline_count := List.length (snd g);
            cd_avg_tone := sql_avg (map ke_tone (snd g));
            cd_min_tone := sql_min (map ke_tone (snd g));
            cd_max_tone := sql_max (map ke_tone (snd g));
            cd_top_event_types := array_agg_distinct (engine cl) 20 (map ke_code (snd g));
            cd_sample_urls := array_agg_distinct (engine cl) 30 (map ke_url (snd g)) |})
      (group_by key_eqb key_of (kept cl events)).

(** [CAST(n AS STRING)] of a count. *)
Definition cast_count_as_string (n : nat) : string :=
  NilZero.string_of_uint (Nat.to_uint n).

(** [CAST(ROUND(x, 2) AS STRING)]; how a FLOAT64 is written is left to
    [cast_float64_as_string]. *)
Definition rounded_text (cast_float64_as_string : float64 -> string)
  (x : option float64) : option string :=
  option_map cast_float64_as_string (sql_round x 2).

(** [ARRAY_TO_STRING(arr, sep)] of an array column that may be NULL. *)
Definition array_text (arr : option (list string)) (sep : string) : option string :=
  option_map (fun a => array_to_string (map Some a) sep) arr.

(** The [CONCAT] of the final SELECT. *)
Definition topic_doc_of (cl : client) (cast_float64_as_string : float64 -> string)
  (r : country_day_row) : option string :=
  concat
    [ Some "Country: "%string; Some (country r);
      Some " | Date: "%string; Some (cast_date_as_string cl (event_date r));
      Some " | "%string;
      Some "Headlines: "%string; Some (cast_count_as_string (cd_headline_count r));
      Some " | "%string;
      Some "Tone avg/min/max: "%string;
      rounded_text cast_float64_as_string (cd_avg_tone r); Some "/"%string;
      rounded_text cast_float64_as_string (cd_min_tone r); Some "/"%string;
      rounded_text cast_float64_as_string (cd_max_tone r); Some " | "%string;
      Some "Top Event Codes: "%string; array_text (cd_top_event_types r) ", ";
      Some " | "%string;
      Some "Sample URLs: "%string; array_text (cd_sample_urls r) " | " ].

(** The columns of the new table that later stages read. *)
Definition to_topic_row (cl : client) (cast_float64_as_string : float64 -> string)
  (r : country_day_row) : topic_row :=
  {| dct_event_date := event_date r;
     dct_country := country r;
     headline_count := cd_headline_count r;
     avg_tone := cd_avg_tone r;
     topic_doc := topic_doc_of cl cast_float64_as_string r |}.

Definition set_daily_country_topics (ds : dataset) (t : list topic_row) : dataset :=
  {| gdelt_events_enriched := gdelt_events_enriched ds;
     daily_country_topics := t;
     news_embeddings := news_embeddings ds;
     today_for_analogs := today_for_analogs ds;
     daily_analogs_flat := daily_analogs_flat ds;
     daily_analogs := daily_analogs ds;
     daily_top_entities := daily_top_entities ds;
     daily_briefings := daily_briefings ds;
     daily_moodmap := daily_moodmap ds |}.

(** The table [gdelt_events_raw] is not part of [dataset]; the stage takes
    its rows as [events]. *)
Definition create_daily_country_topics (cl : client)
  (cast_float64_as_string : float64 -> string) (events : list raw_event) (ds : dataset)
  : dataset :=
  set_daily_country_topics ds
    (map (to_topic_row cl cast_float64_as_string) (country_day cl events)).

(** *** [generate_news_embeddings] (lines 76-101) *)




End Aggregator.

(* ===================================================================== *)
(** ** pipeline.py: what loading the script does *)
(* ===================================================================== *)

Module Pipeline.
Import Schema.
Open Scope string_scope.

(** The import statements of a module's top level. *)
Inductive import_stmt : Type :=
| Import (m : string)
| FromImport (m : string) (names : list string).

(** A module of the repository: the imports of its top level, in order,
    and the names its [def]s and assignments bind. *)
Record source_file : Type := {
  file_name : string;
  top_level : list import_stmt;
  defs : list string
}.

Definition config_py : source_file :=
  {| file_name := "config";
     top_level := [];
     defs := [ "PROJECT_ID"; "LOCATION"; "TOP_N"; "ANALOG_SNIP_CHARS"; "ANALOG_TOPK";
               "CONTEXT_CHARS"; "MAX_TOKENS"; "TEMP"; "MOOD_RANGE"; "COLOR_SCALE" ] |}.

Definition gcp_utils_py : source_file :=
  {| file_name := "gcp_utils";
     top_level := [ Import "os"; FromImport "google.cloud" [ "bigquery" ];
                    Import "vertexai"; Import "config" ];
     defs := [ "init_gcp"; "create_schema" ] |}.

Definition ingestion_py : source_file :=
  {| file_name := "ingestion";
     top_level := [];
     defs := [ "ingest_gdelt_events"; "enrich_with_gkg" ] |}.

Definition processing_py : source_file :=
  {| file_name := "processing";
     top_level := [];
     defs := [ "create_daily_country_topics"; "create_remote_models";
               "generate_news_embeddings"; "create_vector_search_functions";
               "create_daily_top_entities" ] |}.

Definition analytics_py : source_file :=
  {| file_name := "analytics";
     top_level := [ Import "pandas"; FromImport "google.cloud" [ "bigquery" ] ];
     defs := [ "create_today_for_analogs"; "run_analog_searches"; "save_daily_analogs";
               "create_daily_briefings"; "create_daily_moodmap" ] |}.

Definition visualization_py : source_file :=
  {| file_name := "visualization";
     top_level := [ Import "pycountry"; Import "plotly.express" ];
     defs := [ "plot_global_moodmap" ] |}.

(** The names [pipeline.py] asks of [processing] (lines 5-16). *)
Definition asked_of_processing : list string :=
  [ "create_daily_country_topics"; "create_remote_models"; "generate_news_embeddings";
    "create_vector_search_functions"; "create_daily_top_entities";
    "create_today_for_analogs"; "run_analog_searches"; "save_daily_analogs";
    "create_daily_briefings"; "create_daily_moodmap" ].

Definition pipeline_py : source_file :=
  {| file_name := "pipeline";
     top_level := [ FromImport "gcp_utils" [ "init_gcp" ];
                    FromImport "ingestion" [ "ingest_gdelt_events"; "enrich_with_gkg" ];
                    FromImport "processing" asked_of_processing;
                    FromImport "visualization" [ "plot_global_moodmap" ] ];
     defs := [ "main" ] |}.

Definition repository : list source_file :=
  [ config_py; gcp_utils_py; ingestion_py; processing_py; analytics_py;
    visualization_py; pipeline_py ].

Definition standard_library : list string := [ "os" ].

Definition mem (n : string) (l : list string) : bool := existsb (String.eqb n) l.

(** The names a loaded module holds: those its imports bound and those it
    defines. *)
Definition bound (f : source_file) : list string :=
  flat_map (fun i => match i with
                     | Import m => [ m ]
                     | FromImport _ names => names
                     end) (top_level f)
  ++ defs f.

(** [from m import n1, ..., nk] fetches the names in order; the first one
    the module does not hold stops it. *)
Fixpoint first_missing (held names : list string) : option string :=
  match names with
  | [] => None
  | n :: rest => if mem n held then first_missing held rest else Some n
  end.

Inductive outcome : Type :=
| Loaded
| ModuleNotFoundError (m : string)
| ImportError (name m : string).

Definition find_file (m : string) : option source_file :=
  find (fun f => String.eqb (file_name f) m) repository.

(** Loading module [m]: a module of the repository runs its top level, one
    import after the other, and the first failure ends it; any other
    module is there when it is part of the standard library or installed.
    [depth] bounds the nesting of imports. *)
Fixpoint load (depth : nat) (installed : string -> bool) (m : string) : outcome :=
  match depth with
  | O => ModuleNotFoundError m
  | S depth' =>
      match find_file m with
      | Some f =>
          (fix run (stmts : list import_stmt) : outcome :=
             match stmts with
             | [] => Loaded
             | Import m' :: rest =>
                 match load depth' installed m' with
                 | Loaded => run rest
                 | failure => failure
                 end
             | FromImport m' names :: rest =>
                 match load depth' installed m' with
                 | Loaded =>
                     match find_file m' with
                     | Some f' =>
                         match first_missing (bound f') names with
                         | Some n => ImportError n m'
                         | None => run rest
                         end
                     | None => run rest
                     end
                 | failure => failure
                 end
             end) (top_level f)
      | None =>
          if mem m standard_library || installed m then Loaded
          else ModuleNotFoundError m
      end
  end.

(** [python pipeline.py]: the top level of the script is loaded, and only
    then is [main] defined and called; a failure leaves the tables as
    they were. *)
Definition run_script (installed : string -> bool) (main : dataset -> dataset)
  (ds : dataset) : outcome * dataset :=
  match load (List.length repository) installed "pipeline" with
  | Loaded => (Loaded, main ds)
  | failure => (failure, ds)
  end.

End Pipeline.

(* ===================================================================== *)
(** ** Facts about the SQL building blocks *)
(* ===================================================================== *)

Module SqlFacts.
Import Sql.

Lemma coalesce_first_non_null {A : Type} (args : list (option A)) (v : A) :
  coalesce args = Some v <-> Spec.first_non_null args v.
Proof.
  unfold Spec.first_non_null. induction args as [| a args IH]; simpl.
  - split; [discriminate |]. intros [i [H _]]. destruct i; discriminate.
  - destruct a as [w |].
    + split.
      * intros H. exists 0%nat. split; [exact (f_equal Some H) |]. intros j Hj. lia.
      * intros [i [Hi Hlt]]. destruct i as [| i]; simpl in Hi.
        -- congruence.
        -- specialize (Hlt 0%nat (Nat.lt_0_succ i)). simpl in Hlt. discriminate.
    + rewrite IH. split.
      * intros [i [Hi Hlt]]. exists (S i). split; [exact Hi |].
        intros [| j] Hj; simpl; [reflexivity | apply Hlt; lia].
      * intros [i [Hi Hlt]]. destruct i as [| i]; simpl in Hi; [discriminate |].
        exists i. split; [exact Hi |]. intros j Hj. apply (Hlt (S j)). lia.
Qed.

Lemma coalesce_all_null {A : Type} (args : list (option A)) :
  coalesce args = None <-> Forall (fun a => a = None) args.
Proof.
  induction args as [| a args IH]; simpl.
  - split; auto.
  - destruct a as [w |].
    + split; [discriminate |]. intros H. inversion H. discriminate.
    + rewrite IH. split; intros H; [constructor; auto | now inversion H].
Qed.

Lemma in_row_order (e : scan) {A : Type} (l : list A) (x : A) :
  In x (row_order e A l) <-> In x l.
Proof.
  split; apply Permutation_in;
    [apply Permutation_sym |]; apply row_order_perm.
Qed.

Lemma in_limit {A : Type} (k : nat) (l : list A) (x : A) :
  In x (limit k l) -> In x l.
Proof.
  unfold limit. revert k. induction l as [| y l IH]; intros [| k]; simpl;
    try contradiction.
  intros [H | H]; [now left | right; eauto].
Qed.

Lemma length_limit {A : Type} (k : nat) (l : list A) :
  (List.length (limit k l) <= k)%nat.
Proof. unfold limit. rewrite length_firstn. lia. Qed.

Section Sorting.

Context {A : Type} (leb : A -> A -> bool).

Let le (a b : A) : Prop := leb a b = true.

Lemma insert_by_perm (x : A) (l : list A) : Permutation (x :: l) (insert_by leb x l).
Proof.
  induction l as [| y l IH]; simpl; [apply Permutation_refl |].
  destruct (leb x y); [apply Permutation_refl |].
  eapply Permutation_trans; [apply perm_swap | apply perm_skip, IH].
Qed.

Lemma sort_by_perm (l : list A) : Permutation l (sort_by leb l).
Proof.
  induction l as [| x l IH]; simpl; [constructor |].
  eapply Permutation_trans; [apply perm_skip, IH | apply insert_by_perm].
Qed.

Lemma in_sort_by (l : list A) (x : A) : In x (sort_by leb l) <-> In x l.
Proof.
  split; apply Permutation_in; [apply Permutation_sym |]; apply sort_by_perm.
Qed.

Hypothesis leb_total : forall a b, leb a b = true \/ leb b a = true.
Hypothesis leb_trans : forall a b c, leb a b = true -> leb b c = true -> leb a c = true.

Lemma insert_by_sorted (x : A) (l : list A) :
  StronglySorted le l -> StronglySorted le (insert_by leb x l).
Proof.
  induction 1 as [| y l Hs IH Hy]; simpl.
  - repeat constructor.
  - destruct (leb x y) eqn:Hxy.
    + constructor; [constructor; assumption |].
      constructor; [exact Hxy |].
      eapply Forall_impl; [| exact Hy]. intros z Hz. eapply leb_trans; eauto.
    + constructor; [exact IH |].
      rewrite Forall_forall in *. intros z Hz.
      apply (Permutation_in _ (Permutation_sym (insert_by_perm x l))) in Hz.
      destruct Hz as [<- | Hz]; [| auto].
      destruct (leb_total x y) as [H | H]; [congruence | exact H].
Qed.

Lemma sort_by_sorted (l : list A) : StronglySorted le (sort_by leb l).
Proof.
  induction l as [| x l IH]; simpl; [constructor | now apply insert_by_sorted].
Qed.

(** A stable sort leaves a sorted list as it is. *)
Lemma sort_by_sorted_id (l : list A) : StronglySorted le l -> sort_by leb l = l.
Proof.
  induction 1 as [| x l Hs IH Hx]; simpl; [reflexivity |].
  rewrite IH. destruct l as [| y l]; simpl; [reflexivity |].
  inversion Hx; subst. unfold le in *. now rewrite H1.
Qed.

Lemma length_filter_self (l : list A) (x : A) :
  In x l -> (1 <= List.length (filter (fun y => leb y x) l))%nat.
Proof.
  assert (Hxx : leb x x = true) by (destruct (leb_total x x); assumption).
  induction l as [| y l IH]; simpl; [contradiction |].
  intros [-> | Hin].
  - rewrite Hxx. simpl. lia.
  - specialize (IH Hin). destruct (leb y x); simpl; lia.
Qed.

(** A row of a sorted list is among its first [k] rows when at most [k]
    rows, itself included, may stand before it. *)
Lemma sorted_firstn_keeps (l : list A) (k : nat) (x : A) :
  StronglySorted le l -> In x l ->
  (List.length (filter (fun y => leb y x) l) <= k)%nat -> In x (firstn k l).
Proof.
  intros Hs. revert k. induction Hs as [| y l Hs IH Hy]; intros k Hin Hlen;
    [contradiction |].
  destruct k as [| k].
  - pose proof (length_filter_self (y :: l) x Hin). lia.
  - simpl. destruct Hin as [-> | Hin]; [now left |]. right.
    apply IH; [exact Hin |].
    rewrite Forall_forall in Hy. specialize (Hy x Hin). unfold le in Hy.
    simpl in Hlen. rewrite Hy in Hlen. simpl in Hlen. lia.
Qed.

End Sorting.

Lemma in_order_by (e : scan) {A : Type} (leb : A -> A -> bool) (l : list A) (x : A) :
  In x (order_by e leb l) <-> In x l.
Proof. unfold order_by. rewrite in_sort_by. apply in_row_order. Qed.

Lemma order_by_perm (e : scan) {A : Type} (leb : A -> A -> bool) (l : list A) :
  Permutation l (order_by e leb l).
Proof.
  unfold order_by.
  eapply Permutation_trans; [apply row_order_perm | apply sort_by_perm].
Qed.

Lemma length_filter_perm {A : Type} (p : A -> bool) (l l' : list A) :
  Permutation l l' -> List.length (filter p l) = List.length (filter p l').
Proof.
  induction 1 as [| x l l' _ IH | x y l | l l' l'' _ IH1 _ IH2]; simpl.
  - reflexivity.
  - destruct (p x); simpl; congruence.
  - destruct (p x), (p y); reflexivity.
  - congruence.
Qed.

(** [ORDER BY ... LIMIT k] keeps a row when at most [k] rows of the table,
    itself included, may stand before it: rows that must stand behind it
    cannot push it out. *)
Lemma in_limit_order_by (e : scan) {A : Type} (leb : A -> A -> bool) (l : list A)
  (k : nat) (x : A) :
  (forall a b, leb a b = true \/ leb b a = true) ->
  (forall a b c, leb a b = true -> leb b c = true -> leb a c = true) ->
  In x l ->
  (List.length (filter (fun y => leb y x) l) <= k)%nat ->
  In x (limit k (order_by e leb l)).
Proof.
  intros Htotal Htrans Hin Hlen. unfold limit.
  apply (sorted_firstn_keeps leb Htotal).
  - unfold order_by. apply (sort_by_sorted leb Htotal Htrans).
  - now apply in_order_by.
  - rewrite <- (length_filter_perm _ _ _ (order_by_perm e leb l)). exact Hlen.
Qed.

Lemma firstn_strongly_sorted {A : Type} (R : A -> A -> Prop) (k : nat) (l : list A) :
  StronglySorted R l -> StronglySorted R (firstn k l).
Proof.
  intros H. revert k. induction H as [| x l Hs IH Hx]; intros [| k]; simpl;
    try constructor; auto.
  rewrite Forall_forall in *. intros y Hy. apply Hx.
  exact (in_limit k l y Hy).
Qed.

Lemma map_strongly_sorted {A B : Type} (f : A -> B) (R : B -> B -> Prop) (l : list A) :
  StronglySorted (fun a b => R (f a) (f b)) l -> StronglySorted R (map f l).
Proof.
  induction 1 as [| x l Hs IH Hx]; simpl; constructor; auto.
  rewrite Forall_forall in *. intros y Hy.
  apply in_map_iff in Hy. destruct Hy as [z [<- Hz]]. auto.
Qed.

(** A list in strict order has one sorted arrangement only. *)
Lemma sorted_perm_unique {A : Type} (lt le : A -> A -> Prop) (l1 l2 : list A) :
  (forall a b, lt a b -> le b a -> False) ->
  StronglySorted lt l1 -> StronglySorted le l2 -> Permutation l1 l2 -> l1 = l2.
Proof.
  intros Hanti H1. revert l2.
  induction H1 as [| a l1 Hs IH Ha]; intros l2 H2 Hp.
  - apply Permutation_nil in Hp. now subst.
  - destruct l2 as [| b l2].
    + apply Permutation_sym, Permutation_nil in Hp. discriminate.
    + inversion H2 as [| ? ? Hs2 Hb]; subst.
      assert (a = b) as ->.
      { assert (Hin : In a (b :: l2)) by (eapply Permutation_in; [exact Hp | now left]).
        assert (Hin' : In b (a :: l1))
          by (eapply Permutation_in; [apply Permutation_sym; exact Hp | now left]).
        destruct Hin as [-> | Hin]; [reflexivity |].
        destruct Hin' as [-> | Hin']; [reflexivity |].
        rewrite Forall_forall in Ha, Hb.
        exfalso. exact (Hanti a b (Ha b Hin') (Hb a Hin)). }
      f_equal. apply IH; [exact Hs2 |]. eapply Permutation_cons_inv; exact Hp.
Qed.

Lemma in_inner_join {A B : Type} (on : A -> B -> bool) (l : list A) (r : list B)
  (a : A) (b : B) :
  In (a, b) (inner_join on l r) <-> In a l /\ In b r /\ on a b = true.
Proof.
  unfold inner_join. rewrite in_flat_map. split.
  - intros [a' [Ha Hin]]. apply in_map_iff in Hin.
    destruct Hin as [b' [Heq Hb]]. inversion Heq; subst.
    apply filter_In in Hb. tauto.
  - intros [Ha [Hb Hon]]. exists a. split; [exact Ha |].
    apply in_map_iff. exists b. split; [reflexivity |]. apply filter_In. tauto.
Qed.

Lemma in_left_join {A B : Type} (on : A -> B -> bool) (l : list A) (r : list B)
  (a : A) (ob : option B) :
  In (a, ob) (left_join on l r) <->
  In a l /\
  match ob with
  | Some b => In b r /\ on a b = true
  | None => forall b, In b r -> on a b = false
  end.
Proof.
  unfold left_join. rewrite in_flat_map. split.
  - intros [a' [Ha Hin]]. destruct (filter (on a') r) as [| b0 bs] eqn:Hf.
    + destruct Hin as [Heq | []]. inversion Heq; subst. split; [exact Ha |].
      intros b Hb. destruct (on a b) eqn:Hon; [| reflexivity].
      assert (In b (filter (on a) r)) by (apply filter_In; tauto).
      rewrite Hf in H. contradiction.
    + apply in_map_iff in Hin. destruct Hin as [b [Heq Hb]]. inversion Heq; subst.
      rewrite <- Hf in Hb. apply filter_In in Hb. tauto.
  - intros [Ha Hob]. exists a. split; [exact Ha |].
    destruct ob as [b |].
    + destruct Hob as [Hb Hon].
      assert (Hin : In b (filter (on a) r)) by (apply filter_In; tauto).
      destruct (filter (on a) r) as [| b0 bs]; [contradiction |].
      apply in_map_iff. exists b. tauto.
    + destruct (filter (on a) r) as [| b0 bs] eqn:Hf; [now left |].
      assert (Hin : In b0 (filter (on a) r)) by (rewrite Hf; now left).
      apply filter_In in Hin. destruct Hin as [Hb Hon].
      rewrite (Hob b0 Hb) in Hon. discriminate.
Qed.

(** A left join never loses a left row. *)
Lemma left_join_keeps {A B : Type} (on : A -> B -> bool) (l : list A) (r : list B) (a : A) :
  In a l -> exists ob, In (a, ob) (left_join on l r).
Proof.
  intros Ha. destruct (filter (on a) r) as [| b0 bs] eqn:Hf.
  - exists None. apply in_left_join. split; [exact Ha |].
    intros b Hb. destruct (on a b) eqn:Hon; [| reflexivity].
    assert (In b (filter (on a) r)) by (apply filter_In; tauto).
    rewrite Hf in H. contradiction.
  - exists (Some b0). apply in_left_join. split; [exact Ha |].
    assert (Hin : In b0 (filter (on a) r)) by (rewrite Hf; now left).
    apply filter_In in Hin. exact Hin.
Qed.

Lemma in_distinct {K : Type} (eqb : K -> K -> bool) (l : list K) (x : K) :
  In x (distinct eqb l) -> In x l.
Proof.
  induction l as [| y l IH]; simpl; [auto |].
  intros [H | H]; [now left |]. apply filter_In in H. right. tauto.
Qed.

Lemma in_group_by {A K : Type} (eqb : K -> K -> bool) (key : A -> K) (rows : list A)
  (k : K) (g : list A) :
  In (k, g) (group_by eqb key rows) ->
  g = filter (fun r => eqb (key r) k) rows /\ In k (map key rows).
Proof.
  unfold group_by. intros H. apply in_map_iff in H.
  destruct H as [k' [Heq Hk]]. inversion Heq; subst.
  split; [reflexivity |]. eapply in_distinct; exact Hk.
Qed.

Lemma filter_nil {A : Type} (f : A -> bool) (l : list A) :
  (forall x, In x l -> f x = false) -> filter f l = [].
Proof.
  induction l as [| x l IH]; simpl; [reflexivity |]. intros H.
  rewrite (H x (or_introl eq_refl)). apply IH. intros y Hy. apply H. now right.
Qed.

Lemma order_by_nil (e : scan) {A : Type} (leb : A -> A -> bool) : order_by e leb [] = [].
Proof.
  unfold order_by.
  rewrite (Permutation_nil (row_order_perm e A [])). reflexivity.
Qed.

Lemma distinct_NoDup {K : Type} (eqb : K -> K -> bool) (l : list K) :
  (forall a b, eqb a b = true <-> a = b) -> NoDup (distinct eqb l).
Proof.
  intros Heqb. induction l as [| x l IH]; simpl; constructor.
  - intros Hin. apply filter_In in Hin. destruct Hin as [_ Hneq].
    rewrite (proj2 (Heqb x x) eq_refl) in Hneq. discriminate.
  - now apply NoDup_filter.
Qed.

Lemma NoDup_firstn {A : Type} (k : nat) (l : list A) : NoDup l -> NoDup (firstn k l).
Proof.
  intros H. revert k. induction H as [| x l Hx H IH]; intros [| k]; simpl;
    try constructor; auto.
  intros Hin. apply Hx. exact (in_limit k l x Hin).
Qed.

Lemma filter_comm {A : Type} (f g : A -> bool) (l : list A) :
  filter f (filter g l) = filter g (filter f l).
Proof.
  induction l as [| x l IH]; simpl; [reflexivity |].
  destruct (g x) eqn:Hg, (f x) eqn:Hf; simpl; rewrite ?Hg, ?Hf, IH; reflexivity.
Qed.

(** Filtering and taking distinct values can be done in either order. *)
Lemma filter_distinct {K : Type} (eqb : K -> K -> bool) (keep : K -> bool) (l : list K) :
  (forall a b, eqb a b = true <-> a = b) ->
  filter keep (distinct eqb l) = distinct eqb (filter keep l).
Proof.
  intros Heqb. induction l as [| x l IH]; simpl; [reflexivity |].
  destruct (keep x) eqn:Hx; simpl; rewrite filter_comm, IH; [reflexivity |].
  rewrite <- (filter_true (distinct eqb (filter keep l))) at 2.
  apply filter_ext_in. intros y Hy. apply in_distinct, filter_In in Hy.
  destruct (eqb x y) eqn:E; [| reflexivity].
  apply Heqb in E. subst. destruct Hy as [_ Hy]. congruence.
Qed.

(** Distinct values under a map that is one-to-one on the list. *)
Lemma distinct_map {A B : Type} (ea : A -> A -> bool) (eb : B -> B -> bool)
  (f : A -> B) (l : list A) :
  (forall a b, In a l -> In b l -> ea a b = eb (f a) (f b)) ->
  distinct eb (map f l) = map f (distinct ea l).
Proof.
  induction l as [| x l IH]; intros Hag; simpl; [reflexivity |].
  rewrite IH by (intros a b Ha Hb; apply Hag; now right).
  rewrite filter_map_swap. f_equal. f_equal.
  apply filter_ext_in. intros a Ha. apply in_distinct in Ha.
  f_equal. symmetry. apply Hag; [now left | now right].
Qed.

Lemma map_insert_by {A B : Type} (f : A -> B) (la : A -> A -> bool)
  (lb : B -> B -> bool) (x : A) (l : list A) :
  (forall a b, la a b = lb (f a) (f b)) ->
  map f (insert_by la x l) = insert_by lb (f x) (map f l).
Proof.
  intros Hag. induction l as [| y l IH]; simpl; [reflexivity |].
  rewrite <- Hag. destruct (la x y); simpl; [reflexivity | now rewrite IH].
Qed.

Lemma map_sort_by {A B : Type} (f : A -> B) (la : A -> A -> bool)
  (lb : B -> B -> bool) (l : list A) :
  (forall a b, la a b = lb (f a) (f b)) ->
  map f (sort_by la l) = sort_by lb (map f l).
Proof.
  intros Hag. induction l as [| x l IH]; simpl; [reflexivity |].
  now rewrite (map_insert_by f la lb x _ Hag), IH.
Qed.

End SqlFacts.

(* ===================================================================== *)
(** ** Facts about keys *)
(* ===================================================================== *)

Module SchemaFacts.
Import Sql Schema.

Lemma same_key_eq {A B : Type} `{Keyed A} `{Keyed B} (a : A) (b : B) :
  same_key a b = true <-> event_date a = event_date b /\ country a = country b.
Proof.
  unfold same_key. rewrite andb_true_iff, Z.eqb_eq, String.eqb_eq. tauto.
Qed.

Lemma in_on_latest_day {A B : Type} `{Keyed A} `{Keyed B}
  (of_table : list B) (rows : list A) (r : A) :
  In r (on_latest_day of_table rows) -> In r rows.
Proof.
  unfold on_latest_day. destruct (max_date (map event_date of_table)); [| contradiction].
  intros Hin. apply filter_In in Hin. tauto.
Qed.

Lemma has_key_eq {A : Type} `{Keyed A} (d : date) (ctry : string) (a : A) :
  has_key d ctry a = true <-> event_date a = d /\ country a = ctry.
Proof. unfold has_key. rewrite andb_true_iff, Z.eqb_eq, String.eqb_eq. tauto. Qed.

Lemma key_eqb_eq (k1 k2 : date * string) : key_eqb k1 k2 = true <-> k1 = k2.
Proof.
  destruct k1 as [d1 c1], k2 as [d2 c2]. unfold key_eqb. simpl.
  rewrite andb_true_iff, Z.eqb_eq, String.eqb_eq. split.
  - intros [-> ->]. reflexivity.
  - intros H. inversion H. auto.
Qed.

End SchemaFacts.

(* ===================================================================== *)
(** ** The matcher against the meaning of patterns *)
(* ===================================================================== *)

Module RegexFacts.
Import Sql Spec.

Definition sound (p : pattern) (k : text -> option (text * text)) : Prop :=
  forall s m r, k s = Some (m, r) -> s = m ++ r /\ matches p m.

Lemma push_inv (ch : ascii) (res : option (text * text)) (m r : text) :
  push ch res = Some (m, r) -> exists m', m = ch :: m' /\ res = Some (m', r).
Proof.
  destruct res as [[m0 r0] |]; simpl; [| discriminate].
  intros H. inversion H; subst. now exists m0.
Qed.

Lemma star_sound (a : atom) (p : pattern) (k : text -> option (text * text)) :
  quant a = Star -> sound p k -> sound (a :: p) (star (class a) k).
Proof.
  intros Hq Hk s. induction s as [| ch s IH]; intros m r; simpl.
  - intros H. destruct (Hk _ _ _ H) as [-> Hm]. split; [reflexivity |].
    now apply m_star_stop.
  - destruct (class a ch) eqn:Hc.
    + destruct (star (class a) k s) as [[m0 r0] |] eqn:Hs.
      * simpl. intros H. inversion H; subst.
        destruct (IH _ _ eq_refl) as [-> Hm]. split; [reflexivity |].
        now apply m_star_more.
      * intros H. destruct (Hk _ _ _ H) as [-> Hm]. split; [reflexivity |].
        now apply m_star_stop.
    + intros H. destruct (Hk _ _ _ H) as [-> Hm]. split; [reflexivity |].
      now apply m_star_stop.
Qed.

(** What the matcher returns is a match, and the text splits around it. *)
Lemma match_here_sound (p : pattern) : sound p (match_here p).
Proof.
  induction p as [| a p IH]; intros s m r; simpl.
  - intros H. inversion H; subst. split; [reflexivity | constructor].
  - destruct (quant a) eqn:Hq.
    + destruct s as [| ch s]; [discriminate |].
      destruct (class a ch) eqn:Hc; [| discriminate].
      intros H. apply push_inv in H. destruct H as [m' [-> H]].
      destruct (IH _ _ _ H) as [-> Hm]. split; [reflexivity |]. now apply m_one.
    + destruct s as [| ch s].
      * intros H. destruct (IH _ _ _ H) as [-> Hm]. split; [reflexivity |].
        now apply m_opt_skip.
      * destruct (class a ch) eqn:Hc.
        -- destruct (match_here p s) as [[m0 r0] |] eqn:Hs.
           ++ simpl. intros H. inversion H; subst.
              destruct (IH _ _ _ Hs) as [-> Hm]. split; [reflexivity |].
              now apply m_opt_take.
           ++ intros H. destruct (IH _ _ _ H) as [-> Hm]. split; [reflexivity |].
              now apply m_opt_skip.
        -- intros H. destruct (IH _ _ _ H) as [-> Hm]. split; [reflexivity |].
           now apply m_opt_skip.
    + apply (star_sound a p (match_here p) Hq IH).
    + destruct s as [| ch s]; [discriminate |].
      destruct (class a ch) eqn:Hc; [| discriminate].
      intros H. apply push_inv in H. destruct H as [m' [-> H]].
      destruct (star_sound (Atom (class a) Star) p (match_here p) eq_refl IH _ _ _ H)
        as [-> Hm].
      split; [reflexivity |]. now apply m_plus.
Qed.

Lemma star_total (cls : ascii -> bool) (k : text -> option (text * text)) (s : text) :
  k s <> None -> star cls k s <> None.
Proof.
  intros Hk. destruct s as [| ch s]; simpl; [exact Hk |].
  destruct (cls ch); [| exact Hk].
  destruct (star cls k s) as [[m0 r0] |]; [discriminate | exact Hk].
Qed.

(** Where a match starts, the matcher finds one. *)
Lemma match_here_complete (p : pattern) (m : text) :
  matches p m -> forall r, match_here p (m ++ r) <> None.
Proof.
  induction 1 as [| a p ch m Hq Hc Hm IH | a p m Hq Hm IH | a p ch m Hq Hc Hm IH
                  | a p m Hq Hm IH | a p ch m Hq Hc Hm IH | a p ch m Hq Hc Hm IH];
    intros r; simpl.
  - discriminate.
  - rewrite Hq, Hc. specialize (IH r).
    destruct (match_here p (m ++ r)) as [[m0 r0] |]; [discriminate | contradiction].
  - rewrite Hq. specialize (IH r). destruct (m ++ r) as [| ch s]; [exact IH |].
    destruct (class a ch); [| exact IH].
    destruct (match_here p s) as [[m0 r0] |]; [discriminate | exact IH].
  - rewrite Hq, Hc. specialize (IH r).
    destruct (match_here p (m ++ r)) as [[m0 r0] |]; [discriminate | contradiction].
  - rewrite Hq. apply star_total, IH.
  - rewrite Hq, Hc. specialize (IH r). simpl in IH. rewrite Hq in IH.
    destruct (star (class a) (match_here p) (m ++ r)) as [[m0 r0] |];
      [discriminate | contradiction].
  - rewrite Hq, Hc. specialize (IH r). simpl in IH.
    destruct (star (class a) (match_here p) (m ++ r)) as [[m0 r0] |];
      [discriminate | contradiction].
Qed.

(** [find_first] returns a match of the pattern that starts at the leftmost
    place where any match starts. *)
Lemma find_first_some (p : pattern) (s m : text) :
  find_first p s = Some m ->
  exists pre post,
    s = pre ++ m ++ post /\ matches p m /\
    match_here p (m ++ post) = Some (m, post) /\
    forall pre' m' post',
      s = pre' ++ m' ++ post' -> matches p m' ->
      (List.length pre <= List.length pre')%nat.
Proof.
  revert m. induction s as [| ch s IH]; intros m; simpl.
  - destruct (match_here p []) as [[m0 r0] |] eqn:Hm; [| discriminate].
    intros H. inversion H; subst.
    destruct (match_here_sound p _ _ _ Hm) as [Hs Hmm].
    exists [], r0. simpl. rewrite <- Hs. repeat split; auto. intros; lia.
  - destruct (match_here p (ch :: s)) as [[m0 r0] |] eqn:Hm.
    + intros H. inversion H; subst.
      destruct (match_here_sound p _ _ _ Hm) as [Hs Hmm].
      exists [], r0. simpl. rewrite <- Hs. repeat split; auto. intros; lia.
    + intros H. destruct (IH _ H) as [pre [post [Hs [Hmm [Hh Hleft]]]]].
      exists (ch :: pre), post. simpl. rewrite <- Hs. repeat split; auto.
      intros pre' m' post' Heq Hm'. destruct pre' as [| c' pre']; simpl in Heq.
      * exfalso. apply (match_here_complete p m' Hm' post'). now rewrite <- Heq.
      * inversion Heq; subst. simpl. apply le_n_S. eapply Hleft; eauto.
Qed.

Lemma find_first_none (p : pattern) (s : text) :
  find_first p s = None ->
  forall pre m post, s = pre ++ m ++ post -> ~ matches p m.
Proof.
  induction s as [| ch s IH]; simpl.
  - destruct (match_here p []) as [[m0 r0] |] eqn:Hm; [discriminate |].
    intros _ pre m post Heq Hmm. symmetry in Heq.
    apply app_eq_nil in Heq. destruct Heq as [-> Heq].
    apply (match_here_complete p m Hmm post). simpl in Heq. now rewrite Heq.
  - destruct (match_here p (ch :: s)) as [[m0 r0] |] eqn:Hm; [discriminate |].
    intros H pre m post Heq Hmm. destruct pre as [| c' pre]; simpl in Heq.
    + apply (match_here_complete p m Hmm post). now rewrite <- Heq.
    + inversion Heq; subst. eapply IH; eauto.
Qed.

(** *** Reading a match of a pattern back *)

Lemma matches_one_inv (a : atom) (p : pattern) (m : text) :
  quant a = One -> matches (a :: p) m ->
  exists ch m', m = ch :: m' /\ class a ch = true /\ matches p m'.
Proof. intros Hq H. inversion H; subst; try congruence. eauto. Qed.

Lemma matches_opt_inv (a : atom) (p : pattern) (m : text) :
  quant a = Opt -> matches (a :: p) m ->
  matches p m \/ exists ch m', m = ch :: m' /\ class a ch = true /\ matches p m'.
Proof. intros Hq H. inversion H; subst; try congruence; [left | right]; eauto. Qed.

Lemma matches_star_inv (a : atom) (p : pattern) (m : text) :
  quant a = Star -> matches (a :: p) m ->
  exists rep rest,
    m = rep ++ rest /\ Forall (fun ch => class a ch = true) rep /\ matches p rest.
Proof.
  intros Hq H. remember (a :: p) as ap eqn:Hap. revert Hap.
  induction H as [| a0 p0 ch m Hq0 Hc Hm IH | a0 p0 m Hq0 Hm IH | a0 p0 ch m Hq0 Hc Hm IH
                  | a0 p0 m Hq0 Hm IH | a0 p0 ch m Hq0 Hc Hm IH | a0 p0 ch m Hq0 Hc Hm IH];
    intros Hap; inversion Hap; subst; try congruence.
  - exists [], m. auto.
  - destruct (IH eq_refl) as [rep [rest [-> [Hrep Hrest]]]].
    exists (ch :: rep), rest. auto.
Qed.

Lemma matches_plus_inv (a : atom) (p : pattern) (m : text) :
  quant a = Plus -> matches (a :: p) m ->
  exists ch rep rest,
    m = ch :: rep ++ rest /\ class a ch = true /\
    Forall (fun c' => class a c' = true) rep /\ matches p rest.
Proof.
  intros Hq H. inversion H; subst; try congruence.
  match goal with
  | Hs : matches (Atom _ Star :: _) _ |- _ =>
      apply matches_star_inv in Hs; [| reflexivity];
      destruct Hs as [rep [rest [-> [Hrep Hrest]]]]
  end.
  exists ch, rep, rest. auto.
Qed.

Lemma matches_star_intro (a : atom) (p : pattern) (rep rest : text) :
  quant a = Star -> Forall (fun ch => class a ch = true) rep -> matches p rest ->
  matches (a :: p) (rep ++ rest).
Proof.
  intros Hq Hrep Hrest. induction Hrep as [| ch rep Hc Hrep IH]; simpl.
  - now apply m_star_stop.
  - now apply m_star_more.
Qed.

Lemma matches_plus_intro (a : atom) (p : pattern) (ch : ascii) (rep rest : text) :
  quant a = Plus -> class a ch = true -> Forall (fun c' => class a c' = true) rep ->
  matches p rest -> matches (a :: p) (ch :: rep ++ rest).
Proof.
  intros Hq Hc Hrep Hrest. apply m_plus; auto.
  now apply matches_star_intro.
Qed.

End RegexFacts.

(* ===================================================================== *)
(** ** The sentiment pattern [-?\d+\.\d+] *)
(* ===================================================================== *)

Module SentimentPattern.
Import Sql Spec RegexFacts.

(** The text left over does not go on with a character of the class. *)
Definition stops (cls : ascii -> bool) (r : text) : Prop :=
  forall ch r', r = ch :: r' -> cls ch = false.

Lemma star_last_stops (cls : ascii -> bool) (k : text -> option (text * text))
  (s m r : text) :
  (forall t, k t = Some ([], t)) -> star cls k s = Some (m, r) -> stops cls r.
Proof.
  intros Hk. revert m r. induction s as [| ch s IH]; intros m r; simpl.
  - rewrite Hk. intros H. inversion H; subst. intros c' r' Hr. discriminate.
  - destruct (cls ch) eqn:Hc.
    + destruct (star cls k s) as [[m0 r0] |] eqn:Hs.
      * simpl. intros H. inversion H; subst. eapply IH; eauto.
      * exfalso. apply (star_total cls k s); [rewrite Hk; discriminate | exact Hs].
    + rewrite Hk. intros H. inversion H; subst.
      intros c' r' Hr. inversion Hr; subst. exact Hc.
Qed.

Lemma star_stops (cls cls' : ascii -> bool) (k : text -> option (text * text)) :
  (forall s m r, k s = Some (m, r) -> stops cls r) ->
  forall s m r, star cls' k s = Some (m, r) -> stops cls r.
Proof.
  intros Hk s. induction s as [| ch s IH]; intros m r; simpl; [apply Hk |].
  destruct (cls' ch); [| apply Hk].
  destruct (star cls' k s) as [[m0 r0] |] eqn:Hs; [| apply Hk].
  simpl. intros H. inversion H; subst. eapply IH; eauto.
Qed.

(** A pattern that ends in a greedy repetition leaves no character of the
    repeated class behind. *)
Lemma match_here_stops (cls : ascii -> bool) (p : pattern) (s m r : text) :
  match_here (p ++ [Atom cls Plus]) s = Some (m, r) -> stops cls r.
Proof.
  revert s m r. induction p as [| a p IH]; intros s m r; simpl.
  - destruct s as [| ch s]; [discriminate |].
    destruct (cls ch); [| discriminate].
    intros H. apply push_inv in H. destruct H as [m' [_ H]].
    eapply star_last_stops; [| exact H]. reflexivity.
  - destruct (quant a).
    + destruct s as [| ch s]; [discriminate |].
      destruct (class a ch); [| discriminate].
      intros H. apply push_inv in H. destruct H as [m' [_ H]]. eauto.
    + destruct s as [| ch s]; [apply IH |].
      destruct (class a ch); [| apply IH].
      destruct (match_here (p ++ [Atom cls Plus]) s) as [[m0 r0] |] eqn:Hs; [| apply IH].
      simpl. intros H. inversion H; subst. eauto.
    + apply star_stops. exact IH.
    + destruct s as [| ch s]; [discriminate |].
      destruct (class a ch); [| discriminate].
      intros H. apply push_inv in H. destruct H as [m' [_ H]].
      eapply star_stops; eauto.
Qed.

Lemma digits_cons (t : text) :
  digits t <->
  exists ch rep, t = ch :: rep /\ is_digit ch = true /\
                 Forall (fun c' => is_digit c' = true) rep.
Proof.
  unfold digits. split.
  - intros [Hne Hall]. destruct t as [| ch rep]; [congruence |].
    inversion Hall; subst. eauto.
  - intros [ch [rep [-> [Hc Hrep]]]]. split; [discriminate | now constructor].
Qed.

(** The pattern denotes the signed decimals. *)
Lemma signed_decimal_re_matches (m : text) :
  matches signed_decimal_re m <-> signed_decimal m.
Proof.
  unfold signed_decimal_re, signed_decimal. split.
  - intros H. apply matches_opt_inv in H; [| reflexivity].
    assert (Hbody : forall t,
      matches [Atom is_digit Plus; lit "."%char; Atom is_digit Plus] t ->
      exists int frac, t = int ++ "."%char :: frac /\ digits int /\ digits frac).
    { intros t Ht. apply matches_plus_inv in Ht; [| reflexivity].
      destruct Ht as [c1 [rep1 [rest1 [-> [Hc1 [Hrep1 Hrest1]]]]]].
      apply matches_one_inv in Hrest1; [| reflexivity].
      destruct Hrest1 as [dot [rest2 [-> [Hdot Hrest2]]]].
      change (Ascii.eqb "."%char dot = true) in Hdot.
      apply Ascii.eqb_eq in Hdot. subst dot.
      apply matches_plus_inv in Hrest2; [| reflexivity].
      destruct Hrest2 as [c2 [rep2 [rest3 [-> [Hc2 [Hrep2 Hrest3]]]]]].
      inversion Hrest3; subst.
      exists (c1 :: rep1), (c2 :: rep2 ++ []). split; [reflexivity |].
      split; apply digits_cons; eauto 6.
      exists c2, (rep2 ++ []). rewrite app_nil_r. auto. }
    destruct H as [H | [ch [m' [-> [Hc H]]]]].
    + destruct (Hbody _ H) as [int [frac [-> [Hi Hf]]]].
      exists [], int, frac. auto.
    + change (Ascii.eqb "-"%char ch = true) in Hc.
      apply Ascii.eqb_eq in Hc. subst ch.
      destruct (Hbody _ H) as [int [frac [-> [Hi Hf]]]].
      exists ["-"%char], int, frac. auto.
  - intros [sign [int [frac [-> [Hsign [Hi Hf]]]]]].
    apply digits_cons in Hi. destruct Hi as [c1 [rep1 [-> [Hc1 Hrep1]]]].
    apply digits_cons in Hf. destruct Hf as [c2 [rep2 [-> [Hc2 Hrep2]]]].
    assert (Hbody :
      matches [Atom is_digit Plus; lit "."%char; Atom is_digit Plus]
              ((c1 :: rep1) ++ "."%char :: c2 :: rep2)).
    { simpl. apply matches_plus_intro; auto.
      apply m_one; [reflexivity | reflexivity |].
      rewrite <- (app_nil_r rep2). apply matches_plus_intro; auto. constructor. }
    destruct Hsign as [-> | ->].
    + now apply m_opt_skip.
    + simpl. apply m_opt_take; [reflexivity | reflexivity | exact Hbody].
Qed.

(** What [REGEXP_EXTRACT] returns for the sentiment pattern is the first
    signed decimal of the text. *)
Lemma find_first_signed_decimal (s m : text) :
  find_first signed_decimal_re s = Some m -> first_signed_decimal s m.
Proof.
  intros H. apply find_first_some in H.
  destruct H as [pre [post [Hs [Hm [Hh Hleft]]]]].
  exists pre, post. split; [exact Hs |]. split; [now apply signed_decimal_re_matches |].
  split.
  - intros pre' m' post' Heq Hm'. eapply Hleft; eauto.
    now apply signed_decimal_re_matches.
  - change signed_decimal_re with
      ([Atom (Ascii.eqb "-"%char) Opt; Atom is_digit Plus; lit "."%char]
         ++ [Atom is_digit Plus]) in Hh.
    exact (match_here_stops _ _ _ _ _ Hh).
Qed.

Lemma find_first_no_signed_decimal (s : text) :
  find_first signed_decimal_re s = None <-> no_signed_decimal s.
Proof.
  split.
  - intros H pre m post Heq Hm. apply signed_decimal_re_matches in Hm.
    exact (find_first_none _ _ H pre m post Heq Hm).
  - intros Hno. destruct (find_first signed_decimal_re s) as [m |] eqn:Hf; [| reflexivity].
    apply find_first_signed_decimal in Hf.
    destruct Hf as [pre [post [Hs [Hm _]]]]. exfalso. exact (Hno pre m post Hs Hm).
Qed.

Lemma app_eq_same_length {A : Type} (a1 b1 a2 b2 : list A) :
  a1 ++ b1 = a2 ++ b2 -> List.length a1 = List.length a2 -> a1 = a2 /\ b1 = b2.
Proof.
  revert a2. induction a1 as [| x a1 IH]; intros [| y a2]; simpl; try discriminate.
  - auto.
  - intros Heq Hlen. inversion Heq; subst.
    destruct (IH a2 H1) as [-> ->]; [lia | auto].
Qed.

(** A run of characters of a class, followed by a text that does not go on
    with the class, can be read off the whole in one way only. *)
Lemma run_unique (cls : ascii -> bool) (l1 l2 r1 r2 : text) :
  Forall (fun ch => cls ch = true) l1 -> Forall (fun ch => cls ch = true) l2 ->
  stops cls r1 -> stops cls r2 -> l1 ++ r1 = l2 ++ r2 -> l1 = l2 /\ r1 = r2.
Proof.
  intros H1. revert l2. induction H1 as [| x l1 Hx H1 IH]; intros l2 H2 Hs1 Hs2 Heq.
  - destruct H2 as [| y l2 Hy H2]; [auto |].
    simpl in Heq. rewrite (Hs1 y (l2 ++ r2) Heq) in Hy. discriminate.
  - destruct H2 as [| y l2 Hy H2]; simpl in Heq.
    + symmetry in Heq. rewrite (Hs2 x (l1 ++ r1) Heq) in Hx. discriminate.
    + inversion Heq; subst. destruct (IH l2 H2 Hs1 Hs2 H3) as [-> ->]. auto.
Qed.

(** A text has one first signed decimal at most. *)
Lemma first_signed_decimal_unique (s m1 m2 : text) :
  first_signed_decimal s m1 -> first_signed_decimal s m2 -> m1 = m2.
Proof.
  intros [pre1 [post1 [Hs1 [Hm1 [Hleft1 Hstop1]]]]]
         [pre2 [post2 [Hs2 [Hm2 [Hleft2 Hstop2]]]]].
  assert (Hlen : List.length pre1 = List.length pre2).
  { apply Nat.le_antisymm; [eapply Hleft1 | eapply Hleft2]; eauto. }
  rewrite Hs1 in Hs2. destruct (app_eq_same_length _ _ _ _ Hs2 Hlen) as [_ Heq].
  destruct Hm1 as [sign1 [int1 [frac1 [-> [Hsign1 [Hi1 Hf1]]]]]].
  destruct Hm2 as [sign2 [int2 [frac2 [-> [Hsign2 [Hi2 Hf2]]]]]].
  assert (Hbody : sign1 = sign2 /\
            int1 ++ "."%char :: frac1 ++ post1 = int2 ++ "."%char :: frac2 ++ post2).
  { pose proof (proj1 (digits_cons int1) Hi1) as [c1 [rep1 [E1 [Hc1 _]]]].
    pose proof (proj1 (digits_cons int2) Hi2) as [c2 [rep2 [E2 [Hc2 _]]]].
    repeat rewrite <- app_assoc in Heq. simpl in Heq.
    destruct Hsign1 as [-> | ->], Hsign2 as [-> | ->]; simpl in Heq.
    - auto.
    - subst int1. simpl in Heq. inversion Heq; subst. discriminate.
    - subst int2. simpl in Heq. inversion Heq; subst. discriminate.
    - inversion Heq. auto. }
  destruct Hbody as [-> Hbody].
  assert (Hpoint : forall t, stops is_digit ("."%char :: t)).
  { intros t ch r' E. inversion E; subst. reflexivity. }
  destruct (run_unique is_digit int1 int2 _ _ (proj2 Hi1) (proj2 Hi2)
              (Hpoint _) (Hpoint _) Hbody) as [-> Hrest].
  inversion Hrest as [Hfrac].
  destruct (run_unique is_digit frac1 frac2 post1 post2 (proj2 Hf1) (proj2 Hf2)
              Hstop1 Hstop2 Hfrac) as [-> _].
  reflexivity.
Qed.

(** A text without a point holds no signed decimal. *)
Lemma no_point_no_signed_decimal (s : text) :
  ~ In "."%char s -> no_signed_decimal s.
Proof.
  intros Hno pre m post Heq [sign [int [frac [-> _]]]]. apply Hno. subst s.
  apply in_or_app. right. apply in_or_app. left.
  apply in_or_app. right. apply in_or_app. right. now left.
Qed.

(** *** The cast of a signed decimal *)

Lemma digit_not_point (ch : ascii) : is_digit ch = true -> Ascii.eqb ch "."%char = false.
Proof.
  intros H. destruct (Ascii.eqb ch "."%char) eqn:E; [| reflexivity].
  apply Ascii.eqb_eq in E. subst. discriminate.
Qed.

Lemma digit_not_minus (ch : ascii) : is_digit ch = true -> Ascii.eqb ch "-"%char = false.
Proof.
  intros H. destruct (Ascii.eqb ch "-"%char) eqn:E; [| reflexivity].
  apply Ascii.eqb_eq in E. subst. discriminate.
Qed.

Lemma split_at_dot_digits (int frac : text) :
  Forall (fun ch => is_digit ch = true) int ->
  split_at_dot (int ++ "."%char :: frac) = Some (int, frac).
Proof.
  induction 1 as [| ch int Hc Hi IH]; simpl; [reflexivity |].
  now rewrite (digit_not_point ch Hc), IH.
Qed.

Lemma all_digits_true (t : text) : digits t -> all_digits t = true.
Proof.
  intros [Hne Hall]. destruct t as [| ch t]; [congruence |].
  unfold all_digits. apply forallb_forall. now apply Forall_forall.
Qed.

Lemma unsigned_decimal_value (int frac : text) :
  digits int -> digits frac ->
  unsigned_decimal (int ++ "."%char :: frac) = Some (decimal_value false int frac).
Proof.
  intros Hi Hf. unfold unsigned_decimal.
  rewrite (split_at_dot_digits int frac (proj2 Hi)).
  now rewrite (all_digits_true int Hi), (all_digits_true frac Hf).
Qed.

(** The cast of a signed decimal is never NULL: it is the number the
    literal writes. *)
Lemma safe_cast_signed_decimal (negative : bool) (int frac : text) :
  digits int -> digits frac ->
  safe_cast_float64
    (Some (str ((if negative then ["-"%char] else []) ++ int ++ "."%char :: frac)))
  = Some (decimal_value negative int frac).
Proof.
  intros Hi Hf. unfold safe_cast_float64, chars, str. simpl.
  rewrite list_ascii_of_string_of_list_ascii.
  destruct negative; simpl.
  - rewrite (unsigned_decimal_value int frac Hi Hf). reflexivity.
  - pose proof (unsigned_decimal_value int frac Hi Hf) as Hv.
    apply digits_cons in Hi. destruct Hi as [ch [rep [-> [Hc Hrep]]]].
    simpl in *. rewrite (digit_not_minus ch Hc). exact Hv.
Qed.

Lemma safe_cast_defined (m : text) :
  signed_decimal m -> safe_cast_float64 (Some (str m)) <> None.
Proof.
  intros [sign [int [frac [-> [[-> | ->] [Hi Hf]]]]]].
  - rewrite (safe_cast_signed_decimal false int frac Hi Hf). discriminate.
  - rewrite (safe_cast_signed_decimal true int frac Hi Hf). discriminate.
Qed.

End SentimentPattern.

(* ===================================================================== *)
(** ** Where the rows of [daily_moodmap] come from *)
(* ===================================================================== *)

Module MoodmapFacts.
Import Sql Schema Processing Analytics SqlFacts SchemaFacts.
Import Moodmap.

(** A row of [joined_data] is a briefing, with the tone of the aggregate
    of the same country-day when it has one. *)
Lemma joined_data_origin (ds : dataset) (j : joined_row) :
  In j (joined_data ds) ->
  (exists b, In b (daily_briefings ds) /\
             event_date b = event_date j /\ country b = country j /\
             briefing_text b = j_briefing_text j) /\
  (forall a, j_avg_tone j = Some a ->
     exists g, In g (daily_country_topics ds) /\
               event_date g = event_date j /\ country g = country j /\
               avg_tone g = Some a).
Proof.
  unfold joined_data. intros Hin. apply in_map_iff in Hin.
  destruct Hin as [[[b og] oent] [<- Hin]]. simpl.
  apply in_left_join in Hin. destruct Hin as [Hin _].
  apply in_left_join in Hin. destruct Hin as [Hb Hg].
  apply in_on_latest_day in Hb. split.
  - exists b. auto.
  - intros a Ha. destruct og as [g |]; [| discriminate]. simpl in Ha.
    destruct Hg as [Hg Hk]. apply same_key_eq in Hk. destruct Hk as [Hd Hc].
    exists g. repeat split; auto.
Qed.

Lemma blend_some (sentiment tone : option float64) (m : float64) :
  blend sentiment tone = Some m ->
  exists s a, sentiment = Some s /\ tone = Some a /\
              blend sentiment tone = sql_round (Some ((s + a / 10) / 2)%Q) 4.
Proof.
  destruct sentiment as [s |], tone as [a |]; try discriminate.
  intros _. exists s, a. auto.
Qed.

(** Every row of [daily_moodmap] carries the blend of the tone of one
    [joined_data] row of its key and of the sentiment extracted from the
    answer to the sentiment prompt of a [joined_data] row of its key. *)
Lemma moodmap_row_origin (cl : client) (ds : dataset) (temp : Q) (max_tokens : nat)
  (r : moodmap_row) :
  In r (daily_moodmap (create_daily_moodmap cl ds temp max_tokens)) ->
  exists j j',
    In j (joined_data ds) /\ In j' (joined_data ds) /\
    (event_date j = event_date r /\ country j = country r) /\
    (event_date j' = event_date r /\ country j' = country r) /\
    mood_score r <> None /\
    mood_score r =
      blend (extract_sentiment
               (llm_result
                  (gen_model cl (generation temp max_tokens)
                     (sentiment_prompt j'))))
            (j_avg_tone j).
Proof.
  unfold create_daily_moodmap. simpl. intros Hin.
  apply filter_In in Hin. destruct Hin as [Hin Hnn].
  unfold short_summary in Hin. apply in_map_iff in Hin.
  destruct Hin as [[b t] [<- Hin]]. simpl in *.
  apply in_inner_join in Hin. destruct Hin as [Hb _].
  unfold blended_scores in Hb. apply in_map_iff in Hb.
  destruct Hb as [p [<- Hp]]. simpl in *.
  unfold parsed_scores in Hp. apply in_map_iff in Hp.
  destruct Hp as [[j t'] [<- Hjt]]. simpl in *.
  unfold llm_outputs in Hjt. apply in_inner_join in Hjt.
  destruct Hjt as [Hj [Ht' Hk]].
  unfold ml_generate_text in Ht'. apply in_map_iff in Ht'.
  destruct Ht' as [i [<- Hi]]. apply in_map_iff in Hi.
  destruct Hi as [j' [<- Hj']]. simpl in *.
  apply same_key_eq in Hk. simpl in Hk. destruct Hk as [Hd Hc].
  exists j, j'. repeat split; auto.
  destruct (blend _ _); [discriminate | discriminate].
Qed.

(** The score of a [parsed_scores] row is extracted from the answer to the
    sentiment prompt of a [joined_data] row of its key. *)
Lemma parsed_row_origin (cl : client) (ds : dataset) (temp : Q) (max_tokens : nat)
  (p : parsed_row) :
  In p (parsed_scores cl ds temp max_tokens) ->
  exists j',
    In j' (joined_data ds) /\
    (event_date j' = event_date p /\ country j' = country p) /\
    sentiment_score p =
      extract_sentiment
        (llm_result
           (gen_model cl (generation temp max_tokens)
              (sentiment_prompt j'))).
Proof.
  unfold parsed_scores. intros Hp. apply in_map_iff in Hp.
  destruct Hp as [[j t'] [<- Hjt]]. simpl in *.
  unfold llm_outputs in Hjt. apply in_inner_join in Hjt.
  destruct Hjt as [Hj [Ht' Hk]].
  unfold ml_generate_text in Ht'. apply in_map_iff in Ht'.
  destruct Ht' as [i [<- Hi]]. apply in_map_iff in Hi.
  destruct Hi as [j' [<- Hj']]. simpl in *.
  apply same_key_eq in Hk. simpl in Hk. destruct Hk as [Hd Hc].
  exists j'. repeat split; auto.
Qed.

(** A country-day all of whose sentiment answers yield no score has no row
    in [daily_moodmap]. *)
Lemma dropped_without_sentiment (cl : client) (ds : dataset) (temp : Q)
  (max_tokens : nat) (d : date) (ctry : string) :
  (forall j, In j (joined_data ds) -> event_date j = d -> country j = ctry ->
     extract_sentiment
       (llm_result
          (gen_model cl (generation temp max_tokens)
             (sentiment_prompt j))) = None) ->
  forall r, In r (daily_moodmap (create_daily_moodmap cl ds temp max_tokens)) ->
            ~ (event_date r = d /\ country r = ctry).
Proof.
  intros Hnone r Hin [Hd Hc].
  destruct (moodmap_row_origin cl ds temp max_tokens r Hin)
    as [j [j' [_ [Hj' [_ [[Hd' Hc'] [Hnn Hm]]]]]]].
  rewrite (Hnone j' Hj') in Hm by congruence.
  apply Hnn. rewrite Hm. reflexivity.
Qed.

(** No row of [joined_data] is lost on the way to [parsed_scores]: each has
    a row there, scored from the answer to its own prompt. *)
Lemma parsed_row_present (cl : client) (ds : dataset) (temp : Q) (max_tokens : nat)
  (j : joined_row) :
  In j (joined_data ds) ->
  exists p,
    In p (parsed_scores cl ds temp max_tokens) /\
    (event_date p = event_date j /\ country p = country j) /\
    p_avg_tone p = j_avg_tone j /\
    sentiment_score p =
      extract_sentiment
        (llm_result
           (gen_model cl (generation temp max_tokens)
              (sentiment_prompt j))).
Proof.
  intros Hj.
  set (t := generate_row cl (generation temp max_tokens) (sentiment_prompt j)).
  exists {| p_event_date := event_date j;
            p_country := country j;
            p_avg_tone := j_avg_tone j;
            p_top_themes := j_top_themes j;
            p_briefing_text := j_briefing_text j;
            sentiment_score := extract_sentiment (ml_generate_text_llm_result t) |}.
  split; [| split; [split; reflexivity | split; reflexivity]].
  unfold parsed_scores. apply in_map_iff. exists (j, t). split; [reflexivity |].
  unfold llm_outputs. apply in_inner_join. split; [exact Hj |]. split.
  - unfold ml_generate_text. apply in_map_iff. exists (sentiment_prompt j).
    split; [reflexivity |]. now apply in_map.
  - apply same_key_eq. simpl. auto.
Qed.

(** A [joined_data] row with a tone whose answer yields a score has a row
    in [daily_moodmap], with the blend of the two. *)
Lemma moodmap_row_present (cl : client) (ds : dataset) (temp : Q) (max_tokens : nat)
  (j : joined_row) (s a : float64) :
  In j (joined_data ds) ->
  extract_sentiment
    (llm_result
       (gen_model cl (generation temp max_tokens)
          (sentiment_prompt j))) = Some s ->
  j_avg_tone j = Some a ->
  exists r,
    In r (daily_moodmap (create_daily_moodmap cl ds temp max_tokens)) /\
    (event_date r = event_date j /\ country r = country j) /\
    mood_score r = blend (Some s) (Some a).
Proof.
  intros Hj Hs Ha.
  destruct (parsed_row_present cl ds temp max_tokens j Hj)
    as [p [Hp [[Hd Hc] [Htone Hscore]]]].
  set (b := {| b_event_date := event_date p;
               b_country := country p;
               b_mood_score := blend (sentiment_score p) (p_avg_tone p);
               b_top_themes := p_top_themes p;
               b_briefing_text := p_briefing_text p |}).
  assert (Hb : In b (blended_scores cl ds temp max_tokens)).
  { unfold blended_scores. apply in_map_iff. exists p. split; [reflexivity | exact Hp]. }
  set (t := generate_row cl (generation temp 60) (summary_prompt b)).
  exists {| dm_event_date := event_date b;
            dm_country := country b;
            mood_score := b_mood_score b;
            dm_top_themes := b_top_themes b;
            dm_briefing_text := b_briefing_text b;
            summary_ref := ml_generate_text_llm_result t |}.
  assert (Hmood : b_mood_score b = blend (Some s) (Some a)).
  { unfold b. cbn [b_mood_score]. rewrite Hscore, Hs, Htone, Ha. reflexivity. }
  split; [| split; [split; [exact Hd | exact Hc] | exact Hmood]].
  unfold create_daily_moodmap. cbn [daily_moodmap set_daily_moodmap].
  apply filter_In. split.
  - unfold short_summary. apply in_map_iff. exists (b, t). split; [reflexivity |].
    apply in_inner_join. split; [exact Hb |]. split.
    + unfold ml_generate_text. apply in_map_iff. exists (summary_prompt b).
      split; [reflexivity |]. now apply in_map.
    + apply same_key_eq. simpl. auto.
  - cbn [mood_score]. rewrite Hmood. reflexivity.
Qed.

(** *** Rounding *)

Lemma round_half_away_bounds (n : Z) (y : Q) :
  (0 <= n)%Z -> (- inject_Z n <= y)%Q -> (y <= inject_Z n)%Q ->
  (- n <= round_half_away y <= n)%Z.
Proof.
  intros Hn Hlo Hhi. unfold round_half_away.
  assert (Hfl : forall z, (0 <= z)%Q -> (z <= inject_Z n)%Q ->
                          (0 <= Qfloor (z + (1 # 2)) <= n)%Z).
  { intros z Hz0 Hzn. split.
    - change 0%Z with (Qfloor (inject_Z 0)). apply Qfloor_resp_le.
      change (inject_Z 0) with 0%Q. lra.
    - assert (H : (Qfloor (z + (1 # 2)) < n + 1)%Z); [| lia].
      rewrite Zlt_Qlt. eapply Qle_lt_trans; [apply Qfloor_le |].
      rewrite inject_Z_plus. change (inject_Z 1) with 1%Q. lra. }
  destruct (Qle_bool 0 y) eqn:Hy.
  - apply Qle_bool_iff in Hy. specialize (Hfl y Hy Hhi). lia.
  - assert (Hneg : (y < 0)%Q).
    { apply Qnot_le_lt. intros H. apply Qle_bool_iff in H. congruence. }
    assert (H1 : (0 <= - y)%Q) by lra.
    assert (H2 : (- y <= inject_Z n)%Q) by lra.
    specialize (Hfl (- y)%Q H1 H2). lia.
Qed.

(** Rounding to four decimals keeps a number of [-1, 1] in [-1, 1]. *)
Lemma sql_round4_unit_interval (x : Q) :
  (-1 <= x)%Q -> (x <= 1)%Q ->
  exists m, sql_round (Some x) 4 = Some m /\ (-1 <= m)%Q /\ (m <= 1)%Q.
Proof.
  intros Hlo Hhi. unfold sql_round, null_bind.
  change (10 ^ Z.of_nat 4)%Z with 10000%Z.
  eexists. split; [reflexivity |].
  assert (Hb : (- 10000 <= round_half_away (x * inject_Z 10000) <= 10000)%Z).
  { apply (round_half_away_bounds 10000); [lia | |];
      change (inject_Z 10000) with 10000%Q; lra. }
  destruct Hb as [Hb1 Hb2].
  rewrite Zle_Qle in Hb1, Hb2.
  change (inject_Z (- 10000)) with (- 10000)%Q in Hb1.
  change (inject_Z 10000) with 10000%Q in *.
  set (z := inject_Z (round_half_away (x * 10000))) in *.
  split.
  - apply Qle_shift_div_l; [reflexivity | lra].
  - apply Qle_shift_div_r; [reflexivity | lra].
Qed.

End MoodmapFacts.

(* ===================================================================== *)
(** ** Mood Blender: [create_daily_moodmap] *)
(* ===================================================================== *)

Module MoodBlender.
Import Sql Schema Processing Analytics Spec SqlFacts SchemaFacts RegexFacts.
Import SentimentPattern MoodmapFacts Moodmap.



(** C5. For every row of [daily_moodmap] whose extracted sentiment lies in
    [-1, 1] and whose avg_tone lies in [-10, 10], the mood_score lies in
    [-1, 1], the rounding to four decimals included. *)
Theorem mood_score_within_unit_interval :
  (forall s a : Q,
     (-1 <= s)%Q -> (s <= 1)%Q -> (-10 <= a)%Q -> (a <= 10)%Q ->
     exists m, blend (Some s) (Some a) = Some m /\ (-1 <= m)%Q /\ (m <= 1)%Q) /\
  (forall (cl : client) (ds : dataset) (temp : Q) (max_tokens : nat) (r : moodmap_row),
     In r (daily_moodmap (create_daily_moodmap cl ds temp max_tokens)) ->
     exists (j j' : joined_row) (s a m : Q),
       In j (joined_data ds) /\ In j' (joined_data ds) /\
       (event_date j = event_date r /\ country j = country r) /\
       (event_date j' = event_date r /\ country j' = country r) /\
       extract_sentiment
         (llm_result
            (gen_model cl (generation temp max_tokens)
               (sentiment_prompt j'))) = Some s /\
       j_avg_tone j = Some a /\
       mood_score r = Some m /\
       ((-1 <= s)%Q -> (s <= 1)%Q -> (-10 <= a)%Q -> (a <= 10)%Q ->
        (-1 <= m)%Q /\ (m <= 1)%Q)).
Proof.
  assert (Hpure : forall s a : Q,
     (-1 <= s)%Q -> (s <= 1)%Q -> (-10 <= a)%Q -> (a <= 10)%Q ->
     exists m, blend (Some s) (Some a) = Some m /\ (-1 <= m)%Q /\ (m <= 1)%Q).
  { intros s a Hs1 Hs2 Ha1 Ha2.
    change (blend (Some s) (Some a)) with (sql_round (Some ((s + a / 10) / 2)%Q) 4).
    apply sql_round4_unit_interval.
    - apply Qle_shift_div_l; [reflexivity |].
      assert (-1 <= a / 10)%Q by (apply Qle_shift_div_l; [reflexivity | lra]). lra.
    - apply Qle_shift_div_r; [reflexivity |].
      assert (a / 10 <= 1)%Q by (apply Qle_shift_div_r; [reflexivity | lra]). lra. }
  split; [exact Hpure |].
  intros cl ds temp max_tokens r Hin.
  destruct (moodmap_row_origin cl ds temp max_tokens r Hin)
    as [j [j' [Hj [Hj' [Hk [Hk' [Hnn Hm]]]]]]].
  destruct (mood_score r) as [m |] eqn:Hr; [| congruence].
  symmetry in Hm. destruct (blend_some _ _ m Hm) as [s [a [Hs [Ha _]]]].
  exists j, j', s, a, m.
  split; [exact Hj |]. split; [exact Hj' |]. split; [exact Hk |].
  split; [exact Hk' |]. split; [exact Hs |]. split; [exact Ha |].
  split; [reflexivity |].
  intros H1 H2 H3 H4. destruct (Hpure s a H1 H2 H3 H4) as [m' [Hm' Hb]].
  rewrite Hs, Ha in Hm.
  assert (E : Some m' = Some m) by (rewrite <- Hm', <- Hm; reflexivity).
  inversion E; subst. exact Hb.
Qed.

Lemma mood_score_within_unit_interval_witness :
  (exists m, blend (Some (3 # 10)) (Some 5%Q) = Some m /\ (-1 <= m)%Q /\ (m <= 1)%Q) /\
  let r := hd (Build_moodmap_row 0%Z EmptyString None [] None None)
              (daily_moodmap Demo.week_mood) in
  In r (daily_moodmap Demo.week_mood) /\
  exists (j j' : joined_row) (s a m : Q),
    In j (joined_data Demo.week_briefed) /\ In j' (joined_data Demo.week_briefed) /\
    (event_date j = event_date r /\ country j = country r) /\
    (event_date j' = event_date r /\ country j' = country r) /\
    extract_sentiment
      (llm_result
         (gen_model Demo.fifo_client (generation (2 # 10) 300)
            (sentiment_prompt j'))) = Some s /\
    j_avg_tone j = Some a /\
    mood_score r = Some m /\
    ((-1 <= s)%Q -> (s <= 1)%Q -> (-10 <= a)%Q -> (a <= 10)%Q ->
     (-1 <= m)%Q /\ (m <= 1)%Q).
Proof.
  split.
  - apply (proj1 mood_score_within_unit_interval (3 # 10) 5%Q);
      vm_compute; discriminate.
  - intros r.
    assert (Hin : In r (daily_moodmap Demo.week_mood)) by (vm_compute; left; reflexivity).
    split; [exact Hin |].
    exact (proj2 mood_score_within_unit_interval
                 Demo.fifo_client Demo.week_briefed (2 # 10) 300%nat r Hin).
Defined.

(** The sentiment of a text: NULL when the text holds no signed decimal. *)
Lemma extract_sentiment_none (txt : string) :
  no_signed_decimal_in txt -> extract_sentiment (Some txt) = None.
Proof.
  unfold no_signed_decimal_in, extract_sentiment, regexp_extract. simpl. intros H.
  apply find_first_no_signed_decimal in H. now rewrite H.
Qed.

(** What the cast of the extracted text is, for one answer: the number
    written by the first signed decimal of the answer, NULL when the
    answer holds none. *)
Lemma extract_sentiment_first (txt : string) :
  match extract_sentiment (Some txt) with
  | Some v =>
      exists negative int frac,
        Spec.first_signed_decimal (chars txt)
          ((if negative : bool then ["-"%char] else []) ++ int ++ "."%char :: frac) /\
        digits int /\ digits frac /\ v = decimal_value negative int frac
  | None => Spec.no_signed_decimal (chars txt)
  end.
Proof.
  unfold extract_sentiment.
  change (regexp_extract (Some txt) signed_decimal_re)
    with (option_map str (find_first signed_decimal_re (chars txt))).
  destruct (find_first signed_decimal_re (chars txt)) as [m |] eqn:Hf; cbn [option_map].
  - pose proof (find_first_signed_decimal _ _ Hf) as Hfirst.
    pose proof Hfirst as [pre [post [_ [[sign [int [frac [Hm [Hsign [Hi Hfr]]]]]] _]]]].
    subst m. destruct Hsign as [-> | ->].
    + rewrite (safe_cast_signed_decimal false int frac Hi Hfr).
      exists false, int, frac. auto.
    + rewrite (safe_cast_signed_decimal true int frac Hi Hfr).
      exists true, int, frac. auto.
  - now apply find_first_no_signed_decimal.
Qed.

(** C6. The sentiment is read off the first signed decimal of the answer:
    what the pattern extracts is the leftmost signed decimal of the text,
    taken with all its digits, and the number it writes is the score.
    Row by row: every row of [parsed_scores] carries the score so read off
    the answer to the sentiment prompt of a [joined_data] row of its key
    (NULL when that answer holds no signed decimal or is NULL itself),
    every [joined_data] row has such a row, scored from the answer to its
    own prompt, and a row with a score and a tone reaches [daily_moodmap].
    An answer with no signed decimal gives a NULL score, and a country-day
    whose answers all are such has no row in [daily_moodmap]: the score is
    neither asked for again nor replaced by zero. *)
Theorem sentiment_is_first_signed_decimal_else_row_dropped :
  (forall txt : string,
     match regexp_extract (Some txt) signed_decimal_re with
     | Some m =>
         Spec.first_signed_decimal (chars txt) (chars m) /\
         (forall m', Spec.first_signed_decimal (chars txt) m' -> m' = chars m) /\
         exists negative int frac,
           chars m = (if negative : bool then ["-"%char] else []) ++ int ++ "."%char :: frac /\
           digits int /\ digits frac /\
           extract_sentiment (Some txt) = Some (decimal_value negative int frac)
     | None =>
         Spec.no_signed_decimal (chars txt) /\ extract_sentiment (Some txt) = None
     end) /\
  extract_sentiment None = None /\
  (forall (cl : client) (ds : dataset) (temp : Q) (max_tokens : nat),
     (forall p, In p (parsed_scores cl ds temp max_tokens) ->
        exists j,
          In j (joined_data ds) /\
          event_date j = event_date p /\ country j = country p /\
          let answer :=
            llm_result
              (gen_model cl (generation temp max_tokens)
                 (sentiment_prompt j)) in
          sentiment_score p = extract_sentiment answer /\
          match answer, sentiment_score p with
          | Some txt, Some v =>
              exists negative int frac,
                Spec.first_signed_decimal (chars txt)
                  ((if negative : bool then ["-"%char] else [])
                     ++ int ++ "."%char :: frac) /\
                digits int /\ digits frac /\ v = decimal_value negative int frac
          | Some txt, None => Spec.no_signed_decimal (chars txt)
          | None, Some _ => False
          | None, None => True
          end) /\
     (forall j, In j (joined_data ds) ->
        exists p,
          In p (parsed_scores cl ds temp max_tokens) /\
          (event_date p = event_date j /\ country p = country j) /\
          p_avg_tone p = j_avg_tone j /\
          sentiment_score p =
            extract_sentiment
              (llm_result
                 (gen_model cl (generation temp max_tokens)
                    (sentiment_prompt j)))) /\
     (forall j s a, In j (joined_data ds) ->
        extract_sentiment
          (llm_result
             (gen_model cl (generation temp max_tokens)
                (sentiment_prompt j))) = Some s ->
        j_avg_tone j = Some a ->
        exists r,
          In r (daily_moodmap (create_daily_moodmap cl ds temp max_tokens)) /\
          (event_date r = event_date j /\ country r = country j) /\
          mood_score r = blend (Some s) (Some a))) /\
  (forall (cl : client) (ds : dataset) (temp : Q) (max_tokens : nat)
          (d : date) (ctry : string),
     (forall j, In j (joined_data ds) -> event_date j = d -> country j = ctry ->
        forall txt,
          llm_result
            (gen_model cl (generation temp max_tokens)
               (sentiment_prompt j)) = Some txt ->
          no_signed_decimal_in txt) ->
     (forall p, In p (parsed_scores cl ds temp max_tokens) ->
                event_date p = d -> country p = ctry -> sentiment_score p = None) /\
     (forall r, In r (daily_moodmap (create_daily_moodmap cl ds temp max_tokens)) ->
                ~ (event_date r = d /\ country r = ctry))).
Proof.
  split; [| split; [reflexivity | split]].
  - intros txt. unfold extract_sentiment.
    change (regexp_extract (Some txt) signed_decimal_re)
      with (option_map str (find_first signed_decimal_re (chars txt))).
    destruct (find_first signed_decimal_re (chars txt)) as [m |] eqn:Hf; cbn [option_map].
    + pose proof (find_first_signed_decimal _ _ Hf) as Hfirst.
      assert (Hchars : chars (str m) = m) by apply list_ascii_of_string_of_list_ascii.
      rewrite Hchars. split; [exact Hfirst |].
      split; [intros m' Hm'; exact (first_signed_decimal_unique _ _ _ Hm' Hfirst) |].
      destruct Hfirst as [pre [post [_ [[sign [int [frac [-> [Hsign [Hi Hfr]]]]]] _]]]].
      destruct Hsign as [-> | ->].
      * exists false, int, frac.
        split; [reflexivity |]. split; [exact Hi |]. split; [exact Hfr |].
        apply (safe_cast_signed_decimal false int frac Hi Hfr).
      * exists true, int, frac.
        split; [reflexivity |]. split; [exact Hi |]. split; [exact Hfr |].
        apply (safe_cast_signed_decimal true int frac Hi Hfr).
    + split; [| reflexivity]. now apply find_first_no_signed_decimal.
  - intros cl ds temp max_tokens. split; [| split].
    + intros p Hp.
      destruct (parsed_row_origin cl ds temp max_tokens p Hp) as [j [Hj [[Hd Hc] Hs]]].
      exists j. split; [exact Hj |]. split; [exact Hd |]. split; [exact Hc |].
      cbv zeta. split; [exact Hs |]. rewrite Hs.
      destruct (llm_result _) as [txt |]; [| exact I].
      exact (extract_sentiment_first txt).
    + intros j Hj. now apply parsed_row_present.
    + intros j s a Hj Hs Ha. now apply moodmap_row_present.
  - intros cl ds temp max_tokens d ctry Hall.
    assert (Hnone : forall j, In j (joined_data ds) -> event_date j = d ->
              country j = ctry ->
              extract_sentiment
                (llm_result
                   (gen_model cl
                      (generation temp max_tokens)
                      (sentiment_prompt j))) = None).
    { intros j Hj Hd Hc. specialize (Hall j Hj Hd Hc).
      destruct (llm_result _) as [txt |]; [| reflexivity].
      apply extract_sentiment_none. now apply Hall. }
    split.
    + intros p Hp Hd Hc.
      destruct (parsed_row_origin cl ds temp max_tokens p Hp) as [j' [Hj' [[Hd' Hc'] Hs]]].
      rewrite Hs. apply Hnone; congruence.
    + now apply dropped_without_sentiment.
Qed.

Lemma sentiment_is_first_signed_decimal_else_row_dropped_witness :
  let j := hd (Build_joined_row 0%Z EmptyString None None [])
              (tl (joined_data Demo.week_briefed)) in
  (In j (joined_data Demo.week_briefed) /\ country j = "B"%string /\
   llm_result
     (gen_model Demo.fifo_client (generation (2 # 10) 300) (sentiment_prompt j))
   = Some "Sentiment: 0.4 (mildly positive)"%string) /\
  (exists p,
     In p (parsed_scores Demo.fifo_client Demo.week_briefed (2 # 10) 300) /\
     (event_date p = event_date j /\ country p = country j) /\
     p_avg_tone p = j_avg_tone j /\
     sentiment_score p = Some (decimal_value false (chars "0") (chars "4"))) /\
  (exists r,
     In r (daily_moodmap Demo.week_mood) /\
     (event_date r = event_date j /\ country r = country j) /\
     mood_score r = blend (Some (4 # 10)) (Some (- 2 # 1))) /\
  (forall p, In p (parsed_scores Demo.fifo_client Demo.week_briefed (2 # 10) 300) ->
             event_date p = 10%Z -> country p = "C"%string -> sentiment_score p = None) /\
  (forall r, In r (daily_moodmap Demo.week_mood) ->
             ~ (event_date r = 10%Z /\ country r = "C"%string)).
Proof.
  intros j.
  assert (Hj : In j (joined_data Demo.week_briefed))
    by (vm_compute; right; left; reflexivity).
  pose proof (proj1 (proj2 (proj2 sentiment_is_first_signed_decimal_else_row_dropped))
                Demo.fifo_client Demo.week_briefed (2 # 10) 300%nat)
    as [_ [Hpresent Hkept]].
  split; [split; [exact Hj | split; vm_compute; reflexivity] |].
  split; [| split].
  - destruct (Hpresent j Hj) as [p [Hp [Hk [Htone Hs]]]].
    exists p. split; [exact Hp |]. split; [exact Hk |]. split; [exact Htone |].
    rewrite Hs. vm_compute. reflexivity.
  - apply (Hkept j (4 # 10) (- 2 # 1) Hj); vm_compute; reflexivity.
  - apply (proj2 (proj2 (proj2 sentiment_is_first_signed_decimal_else_row_dropped))
                 Demo.fifo_client Demo.week_briefed (2 # 10) 300%nat 10%Z "C"%string).
    intros j0 Hj0 Hd Hc txt Htxt.
    vm_compute in Hj0.
    destruct Hj0 as [<- | [<- | [<- | []]]]; try discriminate Hc.
    vm_compute in Htxt. inversion Htxt; subst.
    apply find_first_no_signed_decimal. vm_compute. reflexivity.
Defined.

(** C10. The pattern asks for digits on both sides of a decimal point: an
    answer without a point, such as the integers 1 and -1, gives a NULL
    score although it is a number of [-1, 1], and a country-day whose
    answers all are 1 or -1 has no row in [daily_moodmap]. *)
Theorem integer_answer_is_dropped :
  extract_sentiment (Some "1"%string) = None /\
  extract_sentiment (Some "-1"%string) = None /\
  (forall txt : string, ~ In "."%char (chars txt) -> extract_sentiment (Some txt) = None) /\
  (forall (cl : client) (ds : dataset) (temp : Q) (max_tokens : nat)
          (d : date) (ctry : string),
     (forall j, In j (joined_data ds) -> event_date j = d -> country j = ctry ->
        let answer :=
          llm_result
            (gen_model cl (generation temp max_tokens)
               (sentiment_prompt j)) in
        answer = Some "1"%string \/ answer = Some "-1"%string) ->
     forall r, In r (daily_moodmap (create_daily_moodmap cl ds temp max_tokens)) ->
               ~ (event_date r = d /\ country r = ctry)).
Proof.
  split; [reflexivity |]. split; [reflexivity |]. split.
  - intros txt Hno. apply extract_sentiment_none.
    now apply no_point_no_signed_decimal.
  - intros cl ds temp max_tokens d ctry Hall.
    apply dropped_without_sentiment. intros j Hj Hd Hc.
    destruct (Hall j Hj Hd Hc) as [-> | ->]; reflexivity.
Qed.

Lemma integer_answer_is_dropped_witness :
  extract_sentiment (Some "1"%string) = None /\
  (forall r, In r (daily_moodmap Demo.week_mood) ->
             ~ (event_date r = 10%Z /\ country r = "C"%string)).
Proof.
  split; [exact (proj1 integer_answer_is_dropped) |].
  apply (proj2 (proj2 (proj2 integer_answer_is_dropped))
               Demo.fifo_client Demo.week_briefed (2 # 10) 300%nat 10%Z "C"%string).
  intros j Hj Hd Hc.
  vm_compute in Hj.
  destruct Hj as [<- | [<- | [<- | []]]]; try discriminate Hc.
  left. vm_compute. reflexivity.
Defined.

End MoodBlender.

(* ===================================================================== *)
(** ** Analog Retriever: [run_analog_searches], [save_daily_analogs] *)
(* ===================================================================== *)

Module AnalogRetriever.
Import Sql Schema Processing Analytics Spec SqlFacts SchemaFacts.

Lemma by_distance_total {A : Type} (dist : A -> float64) (a b : A) :
  by_distance dist a b = true \/ by_distance dist b a = true.
Proof.
  unfold by_distance. rewrite !Qle_bool_iff.
  destruct (Qlt_le_dec (dist b) (dist a)) as [H | H]; [right | left]; lra.
Qed.

Lemma by_distance_trans {A : Type} (dist : A -> float64) (a b c : A) :
  by_distance dist a b = true -> by_distance dist b c = true ->
  by_distance dist a c = true.
Proof. unfold by_distance. rewrite !Qle_bool_iff. lra. Qed.

Lemma strongly_sorted_impl {A : Type} (R R' : A -> A -> Prop) (l : list A) :
  (forall a b, R a b -> R' a b) -> StronglySorted R l -> StronglySorted R' l.
Proof.
  intros Himp. induction 1 as [| x l Hs IH Hx]; constructor; auto.
  eapply Forall_impl; [| exact Hx]. auto.
Qed.

(** [ORDER BY distance ASC] puts the rows in ascending order of distance,
    whatever order the engine fed them in. *)
Lemma order_by_distance_sorted (e : scan) {A : Type} (dist : A -> float64) (l : list A) :
  StronglySorted (fun a b => dist a <= dist b)%Q (order_by e (by_distance dist) l).
Proof.
  unfold order_by.
  eapply strongly_sorted_impl;
    [| apply (sort_by_sorted (by_distance dist)
                (by_distance_total dist) (by_distance_trans dist))].
  intros a b H. now apply Qle_bool_iff.
Qed.

(** A row of [sim_query] is a row of [fn_similar_to_day] dated before the
    anchor day, under the anchor's key. *)
Lemma sim_query_row (cl : client) (ds : dataset) (row : cohort_row) (snip k : nat)
  (r : analog_result) :
  In r (sim_query cl ds row snip k) ->
  event_date r = event_date row /\ country r = country row /\
  exists cand,
    In cand (fn_similar_to_day cl ds (country row) (event_date row)) /\
    (sim_event_date cand < event_date row)%Z /\
    ar_past_date r = sim_event_date cand /\
    ar_distance r = sim_distance cand.
Proof.
  unfold sim_query. intros Hin. apply in_map_iff in Hin.
  destruct Hin as [cand [<- Hc]]. simpl.
  apply in_limit, in_order_by, filter_In in Hc. destruct Hc as [Hc Hlt].
  apply Z.ltb_lt in Hlt. repeat split; auto. exists cand. auto.
Qed.

Lemma run_analog_searches_row (cl : client) (ds : dataset) (snip k : nat)
  (r : analog_result) :
  In r (run_analog_searches cl ds snip k) ->
  exists row, In row (today_for_analogs ds) /\ In r (sim_query cl ds row snip k).
Proof.
  unfold run_analog_searches. intros Hin. apply in_flat_map in Hin.
  destruct Hin as [row [Hrow Hr]]. apply in_row_order in Hrow. eauto.
Qed.

(** A row of [daily_analogs] is built from the flat rows of its key. *)
Lemma aggregate_analogs_row (cl : client) (flat : list analog_result) (k : nat)
  (row : daily_analogs_row) :
  In row (aggregate_analogs cl flat k) ->
  analogs row =
    map to_struct
      (limit k
         (order_by (engine cl) (by_distance ar_distance)
            (filter (has_key (event_date row) (country row)) flat))) /\
  analogs_txt row = render_analogs cl (analogs row) /\
  exists r, In r flat /\ event_date r = event_date row /\ country r = country row.
Proof.
  unfold aggregate_analogs. intros Hin. apply in_map_iff in Hin.
  destruct Hin as [[[d ctry] g] [<- Hg]]. simpl.
  apply in_group_by in Hg. destruct Hg as [-> Hk].
  split; [reflexivity |]. split; [reflexivity |].
  apply in_map_iff in Hk. destruct Hk as [r [Hkey Hr]].
  inversion Hkey; subst. exists r. auto.
Qed.

(** C2. Every row the analog search produces has past_date < event_date:
    a candidate of the anchor's own day or of a later day never comes out,
    neither of the search nor of the table [daily_analogs] built from
    it. *)
Theorem analog_results_are_strictly_historical :
  forall (cl : client) (ds : dataset) (analog_snip_chars analog_topk : nat),
    (forall r, In r (run_analog_searches cl ds analog_snip_chars analog_topk) ->
               (ar_past_date r < event_date r)%Z) /\
    (forall (k : nat) (row : daily_analogs_row) (a : analog),
       In row (daily_analogs
                 (save_daily_analogs cl ds
                    (run_analog_searches cl ds analog_snip_chars analog_topk) k)) ->
       In a (analogs row) -> (past_date a < event_date row)%Z).
Proof.
  intros cl ds snip topk.
  assert (Hsearch : forall r, In r (run_analog_searches cl ds snip topk) ->
                              (ar_past_date r < event_date r)%Z).
  { intros r Hin. apply run_analog_searches_row in Hin.
    destruct Hin as [row [_ Hr]]. apply sim_query_row in Hr.
    destruct Hr as [Hd [_ [cand [_ [Hlt [Hp _]]]]]]. rewrite Hp, Hd. exact Hlt. }
  split; [exact Hsearch |].
  intros k row a Hrow Ha. simpl in Hrow.
  apply aggregate_analogs_row in Hrow. destruct Hrow as [Harr _].
  rewrite Harr in Ha. apply in_map_iff in Ha. destruct Ha as [r [<- Hr]].
  change (ar_past_date r < event_date row)%Z.
  apply in_limit, in_order_by, filter_In in Hr. destruct Hr as [Hr Hk].
  apply has_key_eq in Hk. destruct Hk as [Hd _]. rewrite <- Hd.
  now apply Hsearch.
Qed.

Lemma analog_results_are_strictly_historical_witness :
  let found := run_analog_searches Demo.fifo_client Demo.week_cohort 400 5 in
  let r := hd (Build_analog_result 0%Z EmptyString 0%Z None 0%Q) found in
  let row := hd (Build_daily_analogs_row 0%Z EmptyString [] EmptyString)
                (daily_analogs Demo.week_searched) in
  let a := hd (Build_analog 0%Z None 0%Q) (analogs row) in
  List.length found = 6%nat /\
  In r found /\ (ar_past_date r < event_date r)%Z /\
  In a (analogs row) /\ (past_date a < event_date row)%Z.
Proof.
  intros found r row a.
  assert (Hr : In r found) by (vm_compute; left; reflexivity).
  assert (Hrow : In row (daily_analogs
                           (save_daily_analogs Demo.fifo_client Demo.week_cohort found 5)))
    by (vm_compute; left; reflexivity).
  assert (Ha : In a (analogs row)) by (vm_compute; left; reflexivity).
  destruct (analog_results_are_strictly_historical
              Demo.fifo_client Demo.week_cohort 400 5) as [H1 H2].
  split; [vm_compute; reflexivity |].
  split; [exact Hr |]. split; [exact (H1 r Hr) |].
  split; [exact Ha |]. exact (H2 5%nat row a Hrow Ha).
Defined.

(** C3, as the code has it. Every row of [daily_analogs] holds at most K
    analogs in ascending order of distance, equal distances allowed next to
    each other; analogs_txt joins the lines of exactly these analogs in
    ascending order of distance, and in the order of the array itself when
    the distances of the array are strictly ascending. *)
Theorem daily_analogs_are_k_nearest_in_ascending_order :
  forall (cl : client) (ds : dataset) (df : list analog_result) (analog_topk : nat)
         (row : daily_analogs_row),
    In row (daily_analogs (save_daily_analogs cl ds df analog_topk)) ->
    (List.length (analogs row) <= analog_topk)%nat /\
    ascending (analogs row) /\
    exists ordered,
      Permutation (analogs row) ordered /\
      ascending ordered /\
      analogs_txt row =
        array_to_string (map (analog_line cl) ordered) (nl ++ "- ")%string /\
      (strictly_ascending (analogs row) -> ordered = analogs row).
Proof.
  intros cl ds df k row Hrow. simpl in Hrow.
  apply aggregate_analogs_row in Hrow. destruct Hrow as [Harr [Htxt _]].
  split; [| split].
  - rewrite Harr, length_map. apply length_limit.
  - rewrite Harr. unfold ascending. apply map_strongly_sorted. simpl.
    apply firstn_strongly_sorted. apply order_by_distance_sorted.
  - exists (order_by (engine cl) (by_distance distance) (analogs row)).
    split; [apply order_by_perm |]. split; [apply order_by_distance_sorted |].
    split; [exact Htxt |].
    intros Hstrict. symmetry.
    apply (sorted_perm_unique
             (fun a b => distance a < distance b)%Q
             (fun a b => distance a <= distance b)%Q).
    + intros a b Hlt Hle. lra.
    + exact Hstrict.
    + apply order_by_distance_sorted.
    + apply order_by_perm.
Qed.

Lemma daily_analogs_are_k_nearest_in_ascending_order_witness :
  let row := hd (Build_daily_analogs_row 0%Z EmptyString [] EmptyString)
                (daily_analogs Demo.week_searched) in
  In row (daily_analogs Demo.week_searched) /\
  (List.length (analogs row) <= 5)%nat /\
  ascending (analogs row) /\
  exists ordered,
    Permutation (analogs row) ordered /\
    ascending ordered /\
    analogs_txt row =
      array_to_string (map (analog_line Demo.fifo_client) ordered) (nl ++ "- ")%string /\
    (strictly_ascending (analogs row) -> ordered = analogs row).
Proof.
  intros row.
  assert (Hin : In row (daily_analogs Demo.week_searched))
    by (vm_compute; left; reflexivity).
  split; [exact Hin |].
  exact (daily_analogs_are_k_nearest_in_ascending_order Demo.fifo_client _ _ 5%nat row Hin).
Defined.

(** C3 as stated fails: on [week] the two analogs of country A lie at the
    same distance, so its array is not strictly ascending. *)
Lemma daily_analogs_not_strictly_ascending :
  let row := hd (Build_daily_analogs_row 0%Z EmptyString [] EmptyString)
                (daily_analogs Demo.week_searched) in
  In row (daily_analogs Demo.week_searched) /\ ~ strictly_ascending (analogs row).
Proof.
  intros row. split; [vm_compute; left; reflexivity |].
  unfold strictly_ascending. intros H. vm_compute in H.
  apply StronglySorted_inv in H. destruct H as [_ H].
  inversion H as [| ? ? Hlt _]; subst. discriminate Hlt.
Qed.

End AnalogRetriever.

(* ===================================================================== *)
(** ** Narrative Generator: [create_daily_briefings] *)
(* ===================================================================== *)

Module NarrativeGenerator.
Import Sql Json Schema Processing Analytics Spec SqlFacts SchemaFacts AnalogRetriever.
Import Briefings.

(** A row of [to_summarize_joined] is a topic row of the latest day; its
    analog text is that of the [daily_analogs] row of its key, NULL when
    there is none. *)
Lemma to_summarize_joined_row (cl : client) (ds : dataset) (context_chars : nat)
  (s : to_summarize_row) :
  In s (to_summarize_joined cl ds context_chars) ->
  exists dct,
    In dct (daily_country_topics ds) /\
    event_date dct = event_date s /\ country dct = country s /\
    match ts_analogs_txt s with
    | Some txt =>
        exists an, In an (daily_analogs ds) /\
                   event_date an = event_date s /\ country an = country s /\
                   analogs_txt an = txt
    | None => True
    end.
Proof.
  unfold to_summarize_joined. intros Hin. apply in_map_iff in Hin.
  destruct Hin as [[[dct oent] oan] [<- Hin]]. simpl.
  apply in_left_join in Hin. destruct Hin as [Hl Han].
  apply in_left_join in Hl. destruct Hl as [Hdct _].
  apply in_on_latest_day in Hdct.
  exists dct. repeat split; auto.
  destruct oan as [an |]; simpl; [| exact I].
  destruct Han as [Han Hk]. simpl in Hk. apply same_key_eq in Hk.
  destruct Hk as [Hd Hc]. simpl in Hd, Hc. exists an. repeat split; auto.
Qed.

(** No [LEFT JOIN] of [to_summarize] drops a topic row of the latest day. *)
Lemma to_summarize_joined_keeps (cl : client) (ds : dataset) (context_chars : nat)
  (dct : topic_row) (d : date) :
  max_date (map event_date (daily_country_topics ds)) = Some d ->
  In dct (daily_country_topics ds) -> event_date dct = d ->
  exists s, In s (to_summarize_joined cl ds context_chars) /\
            event_date s = event_date dct /\ country s = country dct.
Proof.
  intros Hmax Hin Hd.
  assert (Hlatest : In dct (on_latest_day (daily_country_topics ds)
                                          (daily_country_topics ds))).
  { unfold on_latest_day. rewrite Hmax. apply filter_In. split; [exact Hin |].
    now apply Z.eqb_eq. }
  destruct (left_join_keeps same_key _ (daily_top_entities ds) dct Hlatest)
    as [oent Hent].
  destruct (left_join_keeps (fun l r => same_key (fst l) r) _ (daily_analogs ds)
              (dct, oent) Hent) as [oan Han].
  eexists. split.
  - unfold to_summarize_joined. apply in_map_iff. eexists. split; [reflexivity | exact Han].
  - simpl. auto.
Qed.

(** The row kept for a topic row carries its number of headlines, the one
    value [ORDER BY ... LIMIT] looks at. *)
Lemma to_summarize_joined_has (cl : client) (ds : dataset) (context_chars : nat)
  (dct : topic_row) (d : date) :
  max_date (map event_date (daily_country_topics ds)) = Some d ->
  In dct (daily_country_topics ds) -> event_date dct = d ->
  exists s, In s (to_summarize_joined cl ds context_chars) /\
            event_date s = event_date dct /\ country s = country dct /\
            ts_headline_count s = headline_count dct.
Proof.
  intros Hmax Hin Hd.
  assert (Hlatest : In dct (on_latest_day (daily_country_topics ds)
                                          (daily_country_topics ds))).
  { unfold on_latest_day. rewrite Hmax. apply filter_In. split; [exact Hin |].
    now apply Z.eqb_eq. }
  destruct (left_join_keeps same_key _ (daily_top_entities ds) dct Hlatest)
    as [oent Hent].
  destruct (left_join_keeps (fun l r => same_key (fst l) r) _ (daily_analogs ds)
              (dct, oent) Hent) as [oan Han].
  eexists. split.
  - unfold to_summarize_joined. apply in_map_iff. eexists. split; [reflexivity | exact Han].
  - simpl. auto.
Qed.

Lemma headline_rank_total (a b : to_summarize_row) :
  (ts_headline_count b <=? ts_headline_count a)%nat = true \/
  (ts_headline_count a <=? ts_headline_count b)%nat = true.
Proof. rewrite !Nat.leb_le. lia. Qed.

Lemma headline_rank_trans (a b x : to_summarize_row) :
  (ts_headline_count b <=? ts_headline_count a)%nat = true ->
  (ts_headline_count x <=? ts_headline_count b)%nat = true ->
  (ts_headline_count x <=? ts_headline_count a)%nat = true.
Proof. rewrite !Nat.leb_le. lia. Qed.

Lemma normalized_row_origin (cl : client) (ds : dataset) (top_n context_chars : nat)
  (n : normalized_row) :
  In n (normalized cl ds top_n context_chars) ->
  exists s, In s (to_summarize_joined cl ds context_chars) /\ n = normalize cl s.
Proof.
  unfold normalized, to_summarize. intros Hin. apply in_map_iff in Hin.
  destruct Hin as [s [<- Hs]]. apply in_limit, in_order_by in Hs. eauto.
Qed.

(** Every row of [daily_briefings] has a text, and it is extracted from the
    answer to the prompt of a [normalized] row of its key. *)
Lemma briefing_row_origin (cl : client) (ds : dataset)
  (top_n context_chars max_tokens : nat) (temp : Q) (b : briefing_row) :
  In b (daily_briefings (create_daily_briefings cl ds top_n context_chars max_tokens temp)) ->
  briefing_text b <> None /\
  exists n',
    In n' (normalized cl ds top_n context_chars) /\
    event_date n' = event_date b /\ country n' = country b /\
    briefing_text b =
      coalesce (extraction_paths
                  (generate_row cl (generation temp max_tokens) (briefing_prompt n'))).
Proof.
  unfold create_daily_briefings. simpl. intros Hin. apply in_map_iff in Hin.
  destruct Hin as [f [<- Hf]]. simpl. apply filter_In in Hf. destruct Hf as [Hf Hnn].
  split; [destruct (f_briefing_text f); [discriminate | discriminate] |].
  unfold final in Hf. apply in_map_iff in Hf. destruct Hf as [[n t] [<- Hnt]]. simpl in *.
  unfold llm in Hnt. apply in_inner_join in Hnt. destruct Hnt as [Hn [Ht Hk]].
  unfold ml_generate_text in Ht. apply in_map_iff in Ht. destruct Ht as [i [<- Hi]].
  apply in_map_iff in Hi. destruct Hi as [n' [<- Hn']].
  apply same_key_eq in Hk. simpl in Hk. destruct Hk as [Hd Hc].
  exists n'. repeat split; auto.
Qed.

(** A [normalized] row whose answer yields a text has a row in
    [daily_briefings]. *)
Lemma briefing_row_present (cl : client) (ds : dataset)
  (top_n context_chars max_tokens : nat) (temp : Q) (n : normalized_row) :
  In n (normalized cl ds top_n context_chars) ->
  coalesce (extraction_paths
              (generate_row cl (generation temp max_tokens) (briefing_prompt n)))
    <> None ->
  exists b,
    In b (daily_briefings
            (create_daily_briefings cl ds top_n context_chars max_tokens temp)) /\
    event_date b = event_date n /\ country b = country n.
Proof.
  intros Hn Hsome.
  set (t := generate_row cl (generation temp max_tokens) (briefing_prompt n)) in *.
  exists {| db_event_date := event_date n; db_country := country n;
            briefing_text := coalesce (extraction_paths t) |}.
  split; [| split; reflexivity].
  unfold create_daily_briefings. simpl. apply in_map_iff.
  exists {| f_event_date := event_date n; f_country := country n;
            f_briefing_text := coalesce (extraction_paths t) |}.
  split; [reflexivity |]. apply filter_In. split.
  - unfold final. apply in_map_iff. exists (n, t). split; [reflexivity |].
    unfold llm. apply in_inner_join. split; [exact Hn |]. split.
    + unfold ml_generate_text. apply in_map_iff. exists (briefing_prompt n).
      split; [reflexivity |]. apply in_map_iff. eauto.
    + apply same_key_eq. simpl. auto.
  - change (is_not_null (coalesce (extraction_paths t)) = true).
    destruct (coalesce (extraction_paths t)); [reflexivity | congruence].
Qed.

(** C4. The briefing text of a generated row is the first value that is
    not NULL among, in this order: the structured result column, the JSON
    path candidates[0].content.parts[0].text, the JSON path
    candidates[0].content[0].text, the JSON path predictions[0].content,
    and the JSON path text.  Every row of [daily_briefings] carries such a
    text, and a country-day whose answers have all five NULL has no row
    there. *)
Theorem briefing_text_is_first_non_null_path :
  (forall (t : generated_row) (v : string),
     coalesce (extraction_paths t) = Some v <->
     first_non_null
       [ ml_generate_text_llm_result t;
         json_value (row_json t) candidates_parts_path;
         json_value (row_json t) candidates_content_path;
         json_value (row_json t) predictions_path;
         json_value (row_json t) text_path ] v) /\
  (forall t : generated_row,
     coalesce (extraction_paths t) = None <->
     ml_generate_text_llm_result t = None /\
     json_value (row_json t) candidates_parts_path = None /\
     json_value (row_json t) candidates_content_path = None /\
     json_value (row_json t) predictions_path = None /\
     json_value (row_json t) text_path = None) /\
  (forall (cl : client) (ds : dataset) (top_n context_chars max_tokens : nat) (temp : Q),
     (forall b,
        In b (daily_briefings
                (create_daily_briefings cl ds top_n context_chars max_tokens temp)) ->
        briefing_text b <> None /\
        exists n',
          In n' (normalized cl ds top_n context_chars) /\
          event_date n' = event_date b /\ country n' = country b /\
          briefing_text b =
            coalesce (extraction_paths
                        (generate_row cl (generation temp max_tokens)
                           (briefing_prompt n')))) /\
     (forall (d : date) (ctry : string),
        (forall n, In n (normalized cl ds top_n context_chars) ->
           event_date n = d -> country n = ctry ->
           coalesce (extraction_paths
                       (generate_row cl (generation temp max_tokens)
                          (briefing_prompt n))) = None) ->
        forall b,
          In b (daily_briefings
                  (create_daily_briefings cl ds top_n context_chars max_tokens temp)) ->
          ~ (event_date b = d /\ country b = ctry))).
Proof.
  split; [| split].
  - intros t v. apply coalesce_first_non_null.
  - intros t. rewrite coalesce_all_null. unfold extraction_paths. split.
    + intros H. repeat match goal with
                       | H : Forall _ (_ :: _) |- _ => inversion H; clear H; subst
                       end. auto.
    + intros [H1 [H2 [H3 [H4 H5]]]]. repeat constructor; assumption.
  - intros cl ds top_n context_chars max_tokens temp. split.
    + intros b Hb. now apply briefing_row_origin.
    + intros d ctry Hnull b Hb [Hd Hc].
      destruct (briefing_row_origin cl ds top_n context_chars max_tokens temp b Hb)
        as [Hnn [n' [Hn' [Hd' [Hc' Htxt]]]]].
      rewrite (Hnull n' Hn') in Htxt by congruence. contradiction.
Qed.

Lemma briefing_text_is_first_non_null_path_witness :
  let b := hd (Build_briefing_row 0%Z EmptyString None) (daily_briefings Demo.week_briefed) in
  In b (daily_briefings Demo.week_briefed) /\
  briefing_text b <> None /\
  exists n',
    In n' (normalized Demo.fifo_client Demo.week_searched 80 700) /\
    event_date n' = event_date b /\ country n' = country b /\
    briefing_text b =
      coalesce (extraction_paths
                  (generate_row Demo.fifo_client (generation (2 # 10) 300)
                     (briefing_prompt n'))).
Proof.
  intros b.
  assert (Hin : In b (daily_briefings Demo.week_briefed))
    by (vm_compute; left; reflexivity).
  split; [exact Hin |].
  exact (proj1 (proj2 (proj2 briefing_text_is_first_non_null_path)
                  Demo.fifo_client Demo.week_searched 80%nat 700%nat 300%nat (2 # 10))
               b Hin).
Defined.

(** C9. A country-day for which [fn_similar_to_day] returns no row dated
    before the anchor day gets no row from the analog search (its analog
    list is empty) and no row in [daily_analogs]; every row of the
    briefing stage's input for it has analogs_txt = None (the text, not
    NULL); and it is not left out for that.  [ORDER BY headline_count DESC
    LIMIT top_n] looks at the number of headlines only: the topic row of
    the latest day reaches [normalized], with the text None, as soon as at
    most [top_n] rows of the stage's input have at least as many
    headlines as it has (itself counted), however many rows the limit
    cuts; and it reaches [daily_briefings] whenever the model's answer
    yields a text. *)
Theorem no_history_gives_none_and_keeps_the_country :
  forall (cl : client) (ds : dataset)
         (analog_snip_chars analog_topk top_n context_chars max_tokens : nat) (temp : Q)
         (d : date) (ctry : string),
    (forall cand, In cand (fn_similar_to_day cl ds ctry d) ->
                  ~ (sim_event_date cand < d)%Z) ->
    let df := run_analog_searches cl ds analog_snip_chars analog_topk in
    let ds' := save_daily_analogs cl ds df analog_topk in
    (forall row : cohort_row,
       event_date row = d -> country row = ctry ->
       sim_query cl ds row analog_snip_chars analog_topk = []) /\
    (forall r, In r df -> ~ (event_date r = d /\ country r = ctry)) /\
    (forall row, In row (daily_analogs ds') -> ~ (event_date row = d /\ country row = ctry)) /\
    (forall n, In n (normalized cl ds' top_n context_chars) ->
               event_date n = d -> country n = ctry ->
               n_analogs_txt n = "None"%string) /\
    (forall g, In g (daily_country_topics ds) ->
               event_date g = d -> country g = ctry ->
               max_date (map event_date (daily_country_topics ds)) = Some d ->
               (List.length
                  (filter (fun s => (headline_count g <=? ts_headline_count s)%nat)
                          (to_summarize_joined cl ds' context_chars)) <= top_n)%nat ->
       exists n,
         In n (normalized cl ds' top_n context_chars) /\
         event_date n = d /\ country n = ctry /\
         n_analogs_txt n = "None"%string /\
         (coalesce (extraction_paths
                      (generate_row cl (generation temp max_tokens)
                         (briefing_prompt n))) <> None ->
          exists b,
            In b (daily_briefings
                    (create_daily_briefings cl ds' top_n context_chars max_tokens temp)) /\
            event_date b = d /\ country b = ctry)).
Proof.
  intros cl ds snip topk top_n context_chars max_tokens temp d ctry Hnone df ds'.
  assert (Hquery : forall row : cohort_row,
            event_date row = d -> country row = ctry ->
            sim_query cl ds row snip topk = []).
  { intros row Hd Hc. unfold sim_query. rewrite Hd, Hc.
    rewrite filter_nil.
    - rewrite order_by_nil. unfold limit. rewrite firstn_nil. reflexivity.
    - intros cand Hcand. apply Z.ltb_ge.
      specialize (Hnone cand Hcand). lia. }
  assert (Hdf : forall r, In r df -> ~ (event_date r = d /\ country r = ctry)).
  { intros r Hr [Hd Hc]. apply run_analog_searches_row in Hr.
    destruct Hr as [row [_ Hr]].
    destruct (sim_query_row cl ds row snip topk r Hr) as [Hd' [Hc' _]].
    rewrite (Hquery row) in Hr by congruence. contradiction. }
  assert (Hda : forall row, In row (daily_analogs ds') ->
                            ~ (event_date row = d /\ country row = ctry)).
  { intros row Hrow [Hd Hc]. simpl in Hrow.
    apply aggregate_analogs_row in Hrow.
    destruct Hrow as [_ [_ [r [Hr [Hd' Hc']]]]].
    apply (Hdf r Hr). split; congruence. }
  assert (Htxt : forall s, In s (to_summarize_joined cl ds' context_chars) ->
                           event_date s = d -> country s = ctry ->
                           n_analogs_txt (normalize cl s) = "None"%string).
  { intros s Hs Hd Hc. destruct (to_summarize_joined_row cl ds' context_chars s Hs)
      as [dct [_ [_ [_ Han]]]].
    unfold normalize. simpl.
    destruct (ts_analogs_txt s) as [txt |]; [| reflexivity].
    destruct Han as [an [Han [Hd' [Hc' _]]]].
    exfalso. apply (Hda an Han). split; congruence. }
  split; [exact Hquery |]. split; [exact Hdf |]. split; [exact Hda |]. split.
  - intros n Hn Hd Hc. apply normalized_row_origin in Hn.
    destruct Hn as [s [Hs ->]]. now apply Htxt.
  - intros g Hg Hd Hc Hmax Hlen.
    destruct (to_summarize_joined_has cl ds' context_chars g d Hmax Hg Hd)
      as [s [Hs [Hsd [Hsc Hcount]]]].
    assert (Hn : In (normalize cl s) (normalized cl ds' top_n context_chars)).
    { unfold normalized, to_summarize. apply in_map.
      apply in_limit_order_by;
        [intros a b; apply headline_rank_total
        | intros a b x; apply headline_rank_trans
        | exact Hs
        | rewrite Hcount; exact Hlen]. }
    exists (normalize cl s).
    split; [exact Hn |].
    split; [change (event_date s = d); congruence |].
    split; [change (country s = ctry); congruence |].
    split; [apply Htxt; congruence |].
    intros Hsome.
    destruct (briefing_row_present cl ds' top_n context_chars max_tokens temp _ Hn Hsome)
      as [b [Hb [Hbd Hbc]]].
    exists b. split; [exact Hb |].
    change (event_date b = event_date s) in Hbd.
    change (country b = country s) in Hbc. split; congruence.
Qed.

Lemma no_history_gives_none_and_keeps_the_country_witness :
  let ds' := Demo.crowded_first_day_searched in
  daily_analogs ds' = [] /\
  List.length (to_summarize_joined Demo.fifo_client ds' 700) = 3%nat /\
  List.length (normalized Demo.fifo_client ds' 2 700) = 2%nat /\
  (forall n, In n (normalized Demo.fifo_client ds' 2 700) ->
             event_date n = 10%Z -> country n = "A"%string ->
             n_analogs_txt n = "None"%string) /\
  exists n,
    In n (normalized Demo.fifo_client ds' 2 700) /\
    event_date n = 10%Z /\ country n = "A"%string /\
    n_analogs_txt n = "None"%string /\
    exists b,
      In b (daily_briefings (create_daily_briefings Demo.fifo_client ds' 2 700 300 (2 # 10))) /\
      event_date b = 10%Z /\ country b = "A"%string.
Proof.
  intros ds'.
  assert (Hnone : forall cand,
            In cand (fn_similar_to_day Demo.fifo_client Demo.crowded_first_day_cohort
                       "A" 10%Z) ->
            ~ (sim_event_date cand < 10)%Z)
    by (intros cand Hc; vm_compute in Hc; contradiction).
  destruct (no_history_gives_none_and_keeps_the_country
              Demo.fifo_client Demo.crowded_first_day_cohort 400 5 2 700 300 (2 # 10)
              10%Z "A"%string Hnone)
    as [_ [_ [_ [Htxt Hkeep]]]].
  split; [vm_compute; reflexivity |].
  split; [vm_compute; reflexivity |].
  split; [vm_compute; reflexivity |].
  split; [exact Htxt |].
  destruct (Hkeep (Demo.topic 10%Z "A" 30 5)) as [n [Hn [Hd [Hc [Hnonetxt Hb]]]]].
  - vm_compute. left. reflexivity.
  - reflexivity.
  - reflexivity.
  - vm_compute. reflexivity.
  - vm_compute. lia.
  - exists n. repeat split; auto. apply Hb.
    vm_compute in Hn. destruct Hn as [<- | [<- | []]]; [| discriminate Hc].
    vm_compute. discriminate.
Defined.

End NarrativeGenerator.

(* ===================================================================== *)
(** ** Text: characters, [LOWER] and [LENGTH] *)
(* ===================================================================== *)

Module TextFacts.
Import Sql.

(** *** Bytes *)

Ltac divmod :=
  repeat match goal with
  | |- context [(?a / ?b)%N] =>
      let q := fresh "q" in
      let r := fresh "r" in
      pose proof (N.div_mod a b ltac:(lia));
      pose proof (N.mod_lt a b ltac:(lia));
      set (q := (a / b)%N) in *; set (r := (a mod b)%N) in *; clearbody q r
  | |- context [(?a mod ?b)%N] =>
      let q := fresh "q" in
      let r := fresh "r" in
      pose proof (N.div_mod a b ltac:(lia));
      pose proof (N.mod_lt a b ltac:(lia));
      set (q := (a / b)%N) in *; set (r := (a mod b)%N) in *; clearbody q r
  end.

Ltac compare_all :=
  repeat match goal with
  | |- context [(?a <=? ?b)%N] => destruct (N.leb_spec a b)
  | |- context [(?a <? ?b)%N] => destruct (N.ltb_spec a b)
  | H : context [(?a <=? ?b)%N] |- _ => destruct (N.leb_spec a b)
  | H : context [(?a <? ?b)%N] |- _ => destruct (N.ltb_spec a b)
  end.

Lemma byte_of_byte (n : N) : (n < 256)%N -> byte (of_byte n) = n.
Proof. apply N_ascii_embedding. Qed.

Lemma of_byte_byte (c : ascii) : of_byte (byte c) = c.
Proof. apply ascii_N_embedding. Qed.

Lemma byte_bounded (c : ascii) : (byte c < 256)%N.
Proof. apply N_ascii_bounded. Qed.

Lemma continuation_not_ascii (c : ascii) : is_continuation c = true -> is_ascii c = false.
Proof.
  unfold is_continuation, is_ascii.
  compare_all; cbn; intros; try discriminate; reflexivity || lia.
Qed.

Lemma is_upper_byte (c : ascii) :
  is_upper c = (65 <=? byte c)%N && (byte c <=? 90)%N.
Proof.
  unfold is_upper, byte, nat_of_ascii. cbv zeta.
  destruct (Nat.leb_spec 65 (N.to_nat (N_of_ascii c))),
           (Nat.leb_spec (N.to_nat (N_of_ascii c)) 90),
           (N.leb_spec 65 (N_of_ascii c)), (N.leb_spec (N_of_ascii c) 90);
    cbn; try reflexivity; lia.
Qed.

(** *** The UTF-8 form of a code point *)

(** A character: one byte, followed by continuation bytes when it is not
    ASCII. *)
Definition character (g : text) : Prop :=
  exists c tail,
    g = c :: tail /\ forallb is_continuation tail = true /\
    (is_ascii c = true -> tail = []).

Definition leads (g : text) : bool :=
  match g with
  | c :: _ => negb (is_ascii c)
  | [] => false
  end.

Lemma continuation_byte (x : N) :
  (x < 64)%N ->
  is_continuation (of_byte (128 + x)) = true /\
  byte (of_byte (128 + x)) = (128 + x)%N.
Proof.
  intros Hx. assert (Hb : byte (of_byte (128 + x)) = (128 + x)%N)
    by (apply byte_of_byte; lia).
  split; [| exact Hb]. unfold is_continuation. rewrite Hb.
  compare_all; cbn; reflexivity || lia.
Qed.

Lemma decode_utf8 (p : N) : (p < 2097152)%N -> decode (utf8 p) = Some p.
Proof.
  intros Hp. unfold utf8.
  destruct (N.ltb_spec p 128) as [H1 | H1].
  { unfold decode. cbn [forallb map]. rewrite byte_of_byte by lia.
    destruct (N.ltb_spec p 128); [reflexivity | lia]. }
  destruct (N.ltb_spec p 2048) as [H2 | H2].
  { remember (p / 64)%N as a eqn:Ea. remember (p mod 64)%N as b eqn:Eb.
    assert (Ha : (a < 32)%N) by (subst a; divmod; lia).
    assert (Hb : (b < 64)%N) by (subst b; divmod; lia).
    assert (E : (a * 64 + b = p)%N) by (subst a b; divmod; lia).
    clear Ea Eb.
    destruct (continuation_byte b Hb) as [Hc1 Hb1].
    unfold decode. cbn [forallb map]. rewrite Hc1, Hb1. cbn [andb].
    rewrite byte_of_byte by lia.
    replace ((192 + a - 192) * 64 + (128 + b - 128))%N with p by lia.
    destruct (N.leb_spec 192 (192 + a)); [| lia].
    destruct (N.ltb_spec (192 + a) 224); [| lia].
    destruct (N.leb_spec 128 p); [reflexivity | lia]. }
  destruct (N.ltb_spec p 65536) as [H3 | H3].
  { remember (p / 4096)%N as a eqn:Ea. remember ((p / 64) mod 64)%N as b eqn:Eb.
    remember (p mod 64)%N as c eqn:Ec.
    assert (Ha : (a < 16)%N) by (subst a; divmod; lia).
    assert (Hb : (b < 64)%N) by (subst b; divmod; lia).
    assert (Hc : (c < 64)%N) by (subst c; divmod; lia).
    assert (E : (a * 4096 + b * 64 + c = p)%N) by (subst a b c; divmod; lia).
    clear Ea Eb Ec.
    destruct (continuation_byte b Hb) as [Hc1 Hb1].
    destruct (continuation_byte c Hc) as [Hc2 Hb2].
    unfold decode. cbn [forallb map]. rewrite Hc1, Hc2, Hb1, Hb2. cbn [andb].
    rewrite byte_of_byte by lia.
    replace ((224 + a - 224) * 4096 + (128 + b - 128) * 64 + (128 + c - 128))%N
      with p by lia.
    destruct (N.leb_spec 224 (224 + a)); [| lia].
    destruct (N.ltb_spec (224 + a) 240); [| lia].
    destruct (N.leb_spec 2048 p); [reflexivity | lia]. }
  remember ((p / 262144) mod 8)%N as a eqn:Ea.
  remember ((p / 4096) mod 64)%N as b eqn:Eb.
  remember ((p / 64) mod 64)%N as c eqn:Ec.
  remember (p mod 64)%N as d eqn:Ed.
  assert (Ha : (a < 8)%N) by (subst a; divmod; lia).
  assert (Hb : (b < 64)%N) by (subst b; divmod; lia).
  assert (Hc : (c < 64)%N) by (subst c; divmod; lia).
  assert (Hd : (d < 64)%N) by (subst d; divmod; lia).
  assert (E : (a * 262144 + b * 4096 + c * 64 + d = p)%N)
    by (subst a b c d; divmod; lia).
  clear Ea Eb Ec Ed.
  destruct (continuation_byte b Hb) as [Hc1 Hb1].
  destruct (continuation_byte c Hc) as [Hc2 Hb2].
  destruct (continuation_byte d Hd) as [Hc3 Hb3].
  unfold decode. cbn [forallb map]. rewrite Hc1, Hc2, Hc3, Hb1, Hb2, Hb3. cbn [andb].
  rewrite byte_of_byte by lia.
  replace ((240 + a - 240) * 262144 + (128 + b - 128) * 4096
           + (128 + c - 128) * 64 + (128 + d - 128))%N with p by lia.
  destruct (N.leb_spec 240 (240 + a)); [| lia].
  destruct (N.ltb_spec (240 + a) 248); [| lia].
  destruct (N.leb_spec 65536 p); [reflexivity | lia].
Qed.

Lemma utf8_character (p : N) :
  (p < 2097152)%N ->
  character (utf8 p) /\ starts_with_continuation (utf8 p) = false /\
  ((128 <= p)%N -> Forall (fun c => is_ascii c = false) (utf8 p)) /\
  ((p < 128)%N -> utf8 p = [ of_byte p ]).
Proof.
  intros Hp. unfold utf8.
  assert (Hlead : forall x, (192 <= x < 256)%N ->
            is_continuation (of_byte x) = false /\ is_ascii (of_byte x) = false).
  { intros x Hx. unfold is_continuation, is_ascii. rewrite byte_of_byte by lia.
    compare_all; cbn; split; reflexivity || lia. }
  assert (Hcont : forall x, (x < 64)%N ->
            is_continuation (of_byte (128 + x)) = true /\
            is_ascii (of_byte (128 + x)) = false).
  { intros x Hx. destruct (continuation_byte x Hx) as [Hc _].
    split; [exact Hc | now apply continuation_not_ascii]. }
  destruct (N.ltb_spec p 128) as [H1 | H1].
  { split; [| split; [| split; [lia | reflexivity]]].
    - exists (of_byte p), []. auto.
    - cbn. unfold is_continuation. rewrite byte_of_byte by lia.
      compare_all; cbn; reflexivity || lia. }
  destruct (N.ltb_spec p 2048) as [H2 | H2].
  { remember (p / 64)%N as a eqn:Ea. remember (p mod 64)%N as b eqn:Eb.
    assert (Ha : (a < 32)%N) by (subst a; divmod; lia).
    assert (Hb : (b < 64)%N) by (subst b; divmod; lia).
    clear Ea Eb.
    destruct (Hlead (192 + a)%N ltac:(lia)) as [Hl1 Hl2].
    destruct (Hcont _ Hb) as [Hc1 Hc2].
    split; [| split; [exact Hl1 | split; [| lia]]].
    - eexists _, _. split; [reflexivity |]. cbn [forallb]. rewrite Hc1.
      split; [reflexivity | congruence].
    - intros _. repeat constructor; assumption. }
  destruct (N.ltb_spec p 65536) as [H3 | H3].
  { remember (p / 4096)%N as a eqn:Ea. remember ((p / 64) mod 64)%N as b eqn:Eb.
    remember (p mod 64)%N as c eqn:Ec.
    assert (Ha : (a < 16)%N) by (subst a; divmod; lia).
    assert (Hb : (b < 64)%N) by (subst b; divmod; lia).
    assert (Hc : (c < 64)%N) by (subst c; divmod; lia).
    clear Ea Eb Ec.
    destruct (Hlead (224 + a)%N ltac:(lia)) as [Hl1 Hl2].
    destruct (Hcont _ Hb) as [Hc1 Hc1'].
    destruct (Hcont _ Hc) as [Hc2 Hc2'].
    split; [| split; [exact Hl1 | split; [| lia]]].
    - eexists _, _. split; [reflexivity |]. cbn [forallb]. rewrite Hc1, Hc2.
      split; [reflexivity | congruence].
    - intros _. repeat constructor; assumption. }
  remember ((p / 262144) mod 8)%N as a eqn:Ea.
  remember ((p / 4096) mod 64)%N as b eqn:Eb.
  remember ((p / 64) mod 64)%N as c eqn:Ec.
  remember (p mod 64)%N as d eqn:Ed.
  assert (Ha : (a < 8)%N) by (subst a; divmod; lia).
  assert (Hb : (b < 64)%N) by (subst b; divmod; lia).
  assert (Hc : (c < 64)%N) by (subst c; divmod; lia).
  assert (Hd : (d < 64)%N) by (subst d; divmod; lia).
  clear Ea Eb Ec Ed.
  destruct (Hlead (240 + a)%N ltac:(lia)) as [Hl1 Hl2].
  destruct (Hcont _ Hb) as [Hc1 Hc1'].
  destruct (Hcont _ Hc) as [Hc2 Hc2'].
  destruct (Hcont _ Hd) as [Hc3 Hc3'].
  split; [| split; [exact Hl1 | split; [| lia]]].
  - eexists _, _. split; [reflexivity |]. cbn [forallb]. rewrite Hc1, Hc2, Hc3.
    split; [reflexivity | congruence].
  - intros _. repeat constructor; assumption.
Qed.

(** What [decode] accepts: an ASCII byte alone, giving itself, or a byte
    from 192 on with continuation bytes, giving a code point from 128 on. *)
Lemma decode_some (g : text) (p : N) :
  decode g = Some p ->
  (p < 2097152)%N /\ starts_with_continuation g = false /\
  ((p < 128)%N -> g = [ of_byte p ]) /\
  ((128 <= p)%N -> leads g = true).
Proof.
  unfold decode. destruct g as [| c tail]; [discriminate |].
  destruct (forallb is_continuation tail) eqn:Htail; [| discriminate].
  assert (Hbound : forall b, In b tail -> (128 <= byte b < 192)%N).
  { intros b Hb. rewrite forallb_forall in Htail. specialize (Htail b Hb).
    unfold is_continuation in Htail. apply andb_true_iff in Htail.
    destruct Htail as [H1 H2]. apply N.leb_le in H1. apply N.ltb_lt in H2. lia. }
  pose proof (byte_bounded c) as Hc.
  cbn [starts_with_continuation leads]. unfold is_continuation, is_ascii.
  destruct tail as [| b1 [| b2 [| b3 [| b4 tail]]]]; cbn [map].
  - destruct (N.ltb_spec (byte c) 128) as [H | H]; [| discriminate].
    intros E. inversion E; subst p.
    split; [lia |]. split; [compare_all; cbn; reflexivity || lia |].
    split; [intros _; now rewrite of_byte_byte | lia].
  - pose proof (Hbound b1 (or_introl eq_refl)).
    destruct (N.leb_spec 192 (byte c)), (N.ltb_spec (byte c) 224); cbn [andb];
      try discriminate.
    match goal with |- context [(128 <=? ?x)%N] => destruct (N.leb_spec 128 x) end;
      [| discriminate].
    intros E. inversion E; subst p.
    split; [lia |]. split; [compare_all; cbn; reflexivity || lia |].
    split; [lia |]. intros _. compare_all; cbn; reflexivity || lia.
  - pose proof (Hbound b1 (or_introl eq_refl)).
    pose proof (Hbound b2 (or_intror (or_introl eq_refl))).
    destruct (N.leb_spec 224 (byte c)), (N.ltb_spec (byte c) 240); cbn [andb];
      try discriminate.
    match goal with |- context [(2048 <=? ?x)%N] => destruct (N.leb_spec 2048 x) end;
      [| discriminate].
    intros E. inversion E; subst p.
    split; [lia |]. split; [compare_all; cbn; reflexivity || lia |].
    split; [lia |]. intros _. compare_all; cbn; reflexivity || lia.
  - pose proof (Hbound b1 (or_introl eq_refl)).
    pose proof (Hbound b2 (or_intror (or_introl eq_refl))).
    pose proof (Hbound b3 (or_intror (or_intror (or_introl eq_refl)))).
    destruct (N.leb_spec 240 (byte c)), (N.ltb_spec (byte c) 248); cbn [andb];
      try discriminate.
    match goal with |- context [(65536 <=? ?x)%N] => destruct (N.leb_spec 65536 x) end;
      [| discriminate].
    intros E. inversion E; subst p.
    split; [lia |]. split; [compare_all; cbn; reflexivity || lia |].
    split; [lia |]. intros _. compare_all; cbn; reflexivity || lia.
  - discriminate.
Qed.

Lemma decode_ascii (c : ascii) : is_ascii c = true -> decode [c] = Some (byte c).
Proof. unfold decode, is_ascii. cbn. now intros ->. Qed.

(** *** The lower-case table *)

Definition target_fits (q : N * N) : bool :=
  (snd q <? 2097152)%N &&
  negb ((65 <=? snd q)%N && (snd q <=? 90)%N) &&
  negb (snd q =? 44)%N &&
  ((fst q <? 128)%N || negb (snd q <? 128)%N || (97 <=? snd q)%N) &&
  (negb (fst q <? 128)%N || (snd q <? 128)%N) &&
  negb (existsb (fun q' => (fst q' =? snd q)%N) lower_case_pairs).

Lemma targets_fit : forallb target_fits lower_case_pairs = true.
Proof. vm_compute. reflexivity. Qed.

Lemma capitals_covered :
  forallb (fun i => existsb (fun q => (fst q =? N.of_nat i)%N) lower_case_pairs)
          (seq 65 26) = true.
Proof. vm_compute. reflexivity. Qed.

Lemma ascii_agrees :
  forallb (fun i => (lower_code_point (N.of_nat i)
                     =? byte (lower_char (of_byte (N.of_nat i))))%N)
          (seq 0 128) = true.
Proof. vm_compute. reflexivity. Qed.

Lemma lower_code_point_cases (p : N) :
  (lower_code_point p = p /\
   forall q, In q lower_case_pairs -> fst q <> p) \/
  (exists q, In q lower_case_pairs /\ fst q = p /\ lower_code_point p = snd q /\
             target_fits q = true).
Proof.
  unfold lower_code_point.
  destruct (find (fun q => (fst q =? p)%N) lower_case_pairs) as [q |] eqn:Hfind.
  - right. apply find_some in Hfind. destruct Hfind as [Hin Hq].
    apply N.eqb_eq in Hq. exists q. repeat split; auto.
    pose proof targets_fit as H. rewrite forallb_forall in H. now apply H.
  - left. split; [reflexivity |]. intros q Hin Hq.
    pose proof (find_none _ _ Hfind q Hin) as H. cbn in H.
    apply N.eqb_neq in H. contradiction.
Qed.

Lemma lower_code_point_bounded (p : N) :
  (p < 2097152)%N -> (lower_code_point p < 2097152)%N.
Proof.
  intros Hp. destruct (lower_code_point_cases p) as [[-> _] | [q [_ [_ [-> Hfit]]]]];
    [exact Hp |].
  unfold target_fits in Hfit. rewrite !andb_true_iff in Hfit.
  destruct Hfit as [[[[[H _] _] _] _] _]. now apply N.ltb_lt in H.
Qed.

Lemma lower_code_point_idempotent (p : N) :
  lower_code_point (lower_code_point p) = lower_code_point p.
Proof.
  destruct (lower_code_point_cases p) as [[Hp _] | [q [_ [_ [Hp Hfit]]]]].
  - now rewrite Hp.
  - rewrite Hp. unfold target_fits in Hfit. rewrite !andb_true_iff in Hfit.
    destruct Hfit as [_ Hnot]. apply negb_true_iff in Hnot.
    unfold lower_code_point.
    destruct (find (fun q' => (fst q' =? snd q)%N) lower_case_pairs) as [q' |] eqn:Hfind;
      [| reflexivity].
    apply find_some in Hfind. destruct Hfind as [Hin Hq'].
    assert (existsb (fun q' => (fst q' =? snd q)%N) lower_case_pairs = true)
      by (apply existsb_exists; eauto).
    congruence.
Qed.

(** No lower-case form is a capital ASCII letter, and the only code point
    whose form is a comma is the comma. *)
Lemma lower_code_point_no_capital (p : N) : ~ (65 <= lower_code_point p <= 90)%N.
Proof.
  destruct (lower_code_point_cases p) as [[Hp Hnone] | [q [_ [_ [Hp Hfit]]]]].
  - rewrite Hp. intros Hrange.
    pose proof capitals_covered as H. rewrite forallb_forall in H.
    specialize (H (N.to_nat p)). rewrite N2Nat.id in H.
    assert (Hin : In (N.to_nat p) (seq 65 26)) by (apply in_seq; lia).
    apply H, existsb_exists in Hin. destruct Hin as [q [Hq Heq]].
    apply N.eqb_eq in Heq. exact (Hnone q Hq Heq).
  - rewrite Hp. unfold target_fits in Hfit. rewrite !andb_true_iff in Hfit.
    destruct Hfit as [[[[[_ H] _] _] _] _]. apply negb_true_iff in H.
    intros [H1 H2]. apply N.leb_le in H1, H2. rewrite H1, H2 in H. discriminate.
Qed.

Lemma lower_code_point_comma (p : N) : lower_code_point p = 44%N -> p = 44%N.
Proof.
  destruct (lower_code_point_cases p) as [[Hp _] | [q [_ [_ [Hp Hfit]]]]].
  - now rewrite Hp.
  - rewrite Hp. unfold target_fits in Hfit. rewrite !andb_true_iff in Hfit.
    destruct Hfit as [[[[_ H] _] _] _]. apply negb_true_iff, N.eqb_neq in H.
    contradiction.
Qed.

(** An ASCII code point has the ASCII lower-case form: [lower_char]. *)
Lemma lower_code_point_ascii (c : ascii) :
  is_ascii c = true -> lower_code_point (byte c) = byte (lower_char c).
Proof.
  unfold is_ascii. intros H. apply N.ltb_lt in H.
  pose proof ascii_agrees as Hall. rewrite forallb_forall in Hall.
  specialize (Hall (N.to_nat (byte c))). rewrite N2Nat.id, of_byte_byte in Hall.
  apply N.eqb_eq, Hall. apply in_seq. lia.
Qed.

Lemma lower_char_ascii (c : ascii) : is_ascii c = true -> is_ascii (lower_char c) = true.
Proof.
  intros H. unfold lower_char. rewrite is_upper_byte.
  destruct (N.leb_spec 65 (byte c)), (N.leb_spec (byte c) 90); cbn [andb]; try exact H.
  unfold is_ascii, byte, nat_of_ascii.
  change (ascii_of_nat (N.to_nat (N_of_ascii c) + 32)) with
    (ascii_of_N (N.of_nat (N.to_nat (N_of_ascii c) + 32))).
  rewrite N_ascii_embedding by (unfold byte in *; lia).
  apply N.ltb_lt. unfold byte in *. lia.
Qed.

(** *** Characters of a text *)

Definition next_joins (gs : list text) : bool :=
  match gs with
  | g :: _ => starts_with_continuation g
  | [] => false
  end.

(** A text cut into characters: no character could take the first byte of
    the next one. *)
Inductive grouped : list text -> Prop :=
| grouped_nil : grouped []
| grouped_cons (g : text) (gs : list text) :
    character g -> grouped gs -> leads g && next_joins gs = false ->
    grouped (g :: gs).

Lemma add_byte_nil (c : ascii) : add_byte c [] = [[c]].
Proof. reflexivity. Qed.

Lemma add_byte_cons (c : ascii) (g : text) (rest : list text) :
  add_byte c (g :: rest) =
  if negb (is_ascii c) && starts_with_continuation g then (c :: g) :: rest
  else [c] :: g :: rest.
Proof. reflexivity. Qed.

Lemma characters_cons (c : ascii) (t : text) :
  characters (c :: t) = add_byte c (characters t).
Proof. reflexivity. Qed.

Lemma concat_add_byte (c : ascii) (gs : list text) :
  List.concat (add_byte c gs) = c :: List.concat gs.
Proof.
  destruct gs as [| g rest]; [reflexivity |]. rewrite add_byte_cons.
  destruct (negb (is_ascii c) && starts_with_continuation g); reflexivity.
Qed.

Lemma concat_characters (t : text) : List.concat (characters t) = t.
Proof.
  induction t as [| c t IH]; [reflexivity |].
  now rewrite characters_cons, concat_add_byte, IH.
Qed.

Lemma characters_grouped (t : text) : grouped (characters t).
Proof.
  induction t as [| c t IH]; [constructor |].
  rewrite characters_cons. destruct (characters t) as [| g rest].
  - rewrite add_byte_nil. constructor; [| constructor | cbn; apply andb_false_r].
    exists c, []. auto.
  - rewrite add_byte_cons. inversion IH as [| g' gs' Hg Hrest Hjoin]; subst.
    destruct (negb (is_ascii c) && starts_with_continuation g) eqn:Hc.
    + apply andb_true_iff in Hc. destruct Hc as [Hc1 Hc2].
      destruct Hg as [c' [tail [-> [Htail Hascii]]]]. cbn in Hc2.
      constructor; [| exact Hrest |].
      * exists c, (c' :: tail). split; [reflexivity |]. split.
        -- cbn. now rewrite Hc2, Htail.
        -- intros H. rewrite H in Hc1. discriminate.
      * cbn [leads] in *. rewrite (continuation_not_ascii c' Hc2) in Hjoin.
        cbn in Hjoin. rewrite Hjoin. apply andb_false_r.
    + constructor; [| exact IH | exact Hc].
      exists c, []. auto.
Qed.

Lemma add_continuations (tail : text) (gs : list text) :
  tail <> [] -> forallb is_continuation tail = true -> next_joins gs = false ->
  fold_right add_byte gs tail = tail :: gs.
Proof.
  induction tail as [| b tail IH]; [congruence |]. intros _ Hall Hgs.
  cbn in Hall. apply andb_true_iff in Hall. destruct Hall as [Hb Htail].
  cbn [fold_right]. destruct tail as [| b' tail'].
  - cbn [fold_right]. destruct gs as [| g rest]; [reflexivity |].
    rewrite add_byte_cons. cbn in Hgs. rewrite Hgs, andb_false_r. reflexivity.
  - rewrite IH by (congruence || assumption). rewrite add_byte_cons.
    cbn in Htail. apply andb_true_iff in Htail. destruct Htail as [Hb' _].
    cbn. rewrite (continuation_not_ascii b Hb), Hb'. reflexivity.
Qed.

(** Cutting the bytes of characters gives the characters back. *)
Lemma characters_concat (gs : list text) :
  grouped gs -> characters (List.concat gs) = gs.
Proof.
  induction 1 as [| g gs Hg Hgs IH Hjoin]; [reflexivity |].
  cbn [List.concat]. unfold characters in *. rewrite fold_right_app, IH.
  destruct Hg as [c [tail [-> [Htail Hascii]]]]. cbn [fold_right].
  destruct tail as [| b tail'].
  - cbn [fold_right]. destruct gs as [| g' rest]; [reflexivity |].
    rewrite add_byte_cons. cbn in Hjoin. rewrite Hjoin. reflexivity.
  - assert (Hc : is_ascii c = false).
    { destruct (is_ascii c); [specialize (Hascii eq_refl); discriminate | reflexivity]. }
    cbn [leads] in Hjoin. rewrite Hc in Hjoin. cbn in Hjoin.
    rewrite add_continuations by (congruence || assumption).
    rewrite add_byte_cons. cbn in Htail. apply andb_true_iff in Htail.
    destruct Htail as [Hb _]. cbn. rewrite Hc, Hb. reflexivity.
Qed.

(** *** One character in lower case *)

Lemma lower_character_character (g : text) :
  character g -> character (lower_character g).
Proof.
  intros Hg. unfold lower_character. destruct (decode g) as [p |] eqn:Hd; [| exact Hg].
  apply decode_some in Hd. destruct Hd as [Hp _].
  apply utf8_character. now apply lower_code_point_bounded.
Qed.

Lemma lower_character_start (g : text) :
  starts_with_continuation (lower_character g) = starts_with_continuation g.
Proof.
  unfold lower_character. destruct (decode g) as [p |] eqn:Hd; [| reflexivity].
  apply decode_some in Hd. destruct Hd as [Hp [-> _]].
  apply utf8_character. now apply lower_code_point_bounded.
Qed.

Lemma lower_character_leads (g : text) :
  character g -> leads (lower_character g) = true -> leads g = true.
Proof.
  intros [c [tail [-> [Htail Hascii]]]]. cbn [leads].
  destruct (is_ascii c) eqn:Hc; [| reflexivity].
  rewrite (Hascii eq_refl). unfold lower_character.
  rewrite (decode_ascii c Hc), (lower_code_point_ascii c Hc).
  pose proof (lower_char_ascii c Hc) as Hlow.
  assert (Hb : (byte (lower_char c) < 128)%N) by (now apply N.ltb_lt).
  destruct (utf8_character (byte (lower_char c)) ltac:(lia)) as [_ [_ [_ Hone]]].
  rewrite (Hone Hb). cbn. rewrite of_byte_byte, Hlow. discriminate.
Qed.

Lemma lower_character_idempotent (g : text) :
  lower_character (lower_character g) = lower_character g.
Proof.
  unfold lower_character at 2 3. destruct (decode g) as [p |] eqn:Hd.
  - destruct (decode_some g p Hd) as [Hp _].
    unfold lower_character.
    rewrite decode_utf8 by (now apply lower_code_point_bounded).
    now rewrite lower_code_point_idempotent.
  - unfold lower_character. now rewrite Hd.
Qed.

Lemma grouped_lower (gs : list text) :
  grouped gs -> grouped (map lower_character gs).
Proof.
  induction 1 as [| g gs Hg Hgs IH Hjoin]; [constructor |].
  cbn [map]. constructor; [now apply lower_character_character | exact IH |].
  assert (Hnext : next_joins (map lower_character gs) = next_joins gs).
  { destruct gs as [| g' rest]; [reflexivity |]. cbn. apply lower_character_start. }
  rewrite Hnext.
  destruct (leads (lower_character g)) eqn:Hl; [| reflexivity].
  rewrite (lower_character_leads g Hg Hl) in Hjoin. exact Hjoin.
Qed.

(** *** [LOWER] and [LENGTH] *)

Lemma chars_of_str (t : text) : chars (str t) = t.
Proof. apply list_ascii_of_string_of_list_ascii. Qed.

Lemma characters_lower_text (t : text) :
  characters (lower_text t) = map lower_character (characters t).
Proof.
  unfold lower_text. rewrite flat_map_concat_map.
  apply characters_concat, grouped_lower, characters_grouped.
Qed.

(** [LOWER] keeps the number of characters. *)
Lemma length_lower (s : string) : sql_length (lower s) = sql_length s.
Proof.
  unfold sql_length, lower. rewrite chars_of_str, characters_lower_text.
  apply length_map.
Qed.

Lemma lower_idempotent (s : string) : lower (lower s) = lower s.
Proof.
  unfold lower. rewrite chars_of_str. f_equal.
  unfold lower_text at 1. rewrite characters_lower_text.
  unfold lower_text. rewrite !flat_map_concat_map, map_map. f_equal.
  apply map_ext. intros g. apply lower_character_idempotent.
Qed.

Lemma first_byte (gs : list text) (c : ascii) (t : text) :
  exists g rest, fold_right add_byte gs (c :: t) = (c :: g) :: rest.
Proof.
  cbn [fold_right].
  destruct (fold_right add_byte gs t) as [| g rest]; [rewrite add_byte_nil; eauto |].
  rewrite add_byte_cons.
  destruct (negb (is_ascii c) && starts_with_continuation g); eauto.
Qed.

(** A text has at least as many characters as any of its beginnings. *)
Lemma length_characters_app (t rest : text) :
  (List.length (characters t) <= List.length (characters (t ++ rest)))%nat.
Proof.
  unfold characters. rewrite fold_right_app.
  generalize (fold_right add_byte [] rest). intros gs.
  induction t as [| c t IH]; [cbn; lia |].
  destruct t as [| b t'].
  - cbn [fold_right]. rewrite add_byte_nil. cbn [List.length].
    destruct gs as [| g r]; [cbn; lia |]. rewrite add_byte_cons.
    destruct (negb (is_ascii c) && starts_with_continuation g); cbn; lia.
  - destruct (first_byte [] b t') as [g1 [r1 H1]].
    destruct (first_byte gs b t') as [g2 [r2 H2]].
    change (fold_right add_byte [] (c :: b :: t'))
      with (add_byte c (fold_right add_byte [] (b :: t'))).
    change (fold_right add_byte gs (c :: b :: t'))
      with (add_byte c (fold_right add_byte gs (b :: t'))).
    rewrite H1, H2 in *. rewrite !add_byte_cons. cbn [starts_with_continuation].
    destruct (negb (is_ascii c) && is_continuation b); cbn in *; lia.
Qed.

Lemma first_segment_prefix (t : text) : exists rest, t = first_segment t ++ rest.
Proof.
  induction t as [| c t [rest IH]]; [now exists [] |]. cbn.
  destruct (Ascii.eqb c ","%char); [now exists (c :: t) |].
  exists rest. cbn. now rewrite <- IH.
Qed.

(** The first comma segment of a text has no more characters than the
    text. *)
Lemma length_split_offset0 (s : string) :
  (sql_length (split_offset0 s) <= sql_length s)%nat.
Proof.
  unfold sql_length, split_offset0. rewrite chars_of_str.
  destruct (first_segment_prefix (chars s)) as [rest H].
  rewrite H at 2. apply length_characters_app.
Qed.

(** On ASCII text every byte is a character, and [LOWER] is the ASCII
    lower-casing. *)
Lemma characters_ascii (t : text) :
  forallb is_ascii t = true -> characters t = map (fun c => [c]) t.
Proof.
  unfold characters. induction t as [| c t IH]; [reflexivity |].
  cbn [forallb]. intros H. apply andb_true_iff in H. destruct H as [Hc Ht].
  cbn [fold_right map]. rewrite (IH Ht).
  destruct (map (fun c0 => [c0]) t); [reflexivity |].
  rewrite add_byte_cons, Hc. reflexivity.
Qed.

Lemma lower_ascii (s : string) :
  forallb is_ascii (chars s) = true ->
  lower s = str (map lower_char (chars s)) /\ sql_length s = String.length s.
Proof.
  intros H. unfold lower, lower_text, sql_length. rewrite (characters_ascii _ H).
  split.
  - f_equal. rewrite forallb_forall in H.
    induction (chars s) as [| c t IH]; [reflexivity |]. cbn [map flat_map].
    rewrite IH by (intros x Hx; apply H; now right).
    assert (Hc : is_ascii c = true) by (apply H; now left).
    unfold lower_character. rewrite (decode_ascii c Hc), (lower_code_point_ascii c Hc).
    pose proof (lower_char_ascii c Hc) as Hlow. apply N.ltb_lt in Hlow.
    destruct (utf8_character (byte (lower_char c)) ltac:(lia)) as [_ [_ [_ Hone]]].
    rewrite (Hone Hlow). now rewrite of_byte_byte.
  - rewrite length_map. unfold chars. clear H.
    induction s as [| c s IH]; cbn; auto.
Qed.

(** The bytes of a text in lower case: none is a capital ASCII letter, and
    a comma was a comma of the text. *)
Lemma lower_character_bytes (g : text) (ch : ascii) :
  character g -> In ch (lower_character g) ->
  is_upper ch = false /\ (ch = ","%char -> In ","%char g).
Proof.
  intros Hg Hin. unfold lower_character in Hin.
  destruct (decode g) as [p |] eqn:Hd.
  - apply decode_some in Hd. destruct Hd as [Hp [_ [Hsmall _]]].
    pose proof (lower_code_point_bounded p Hp) as Hb.
    destruct (utf8_character _ Hb) as [_ [_ [Hhigh Hlow]]].
    destruct (N.ltb_spec (lower_code_point p) 128) as [Hl | Hl].
    + rewrite (Hlow Hl) in Hin. destruct Hin as [<- | []].
      split.
      * rewrite is_upper_byte, byte_of_byte by lia.
        pose proof (lower_code_point_no_capital p).
        destruct (N.leb_spec 65 (lower_code_point p)),
                 (N.leb_spec (lower_code_point p) 90); cbn; reflexivity || lia.
      * intros Hcomma.
        assert (Hp44 : lower_code_point p = 44%N).
        { rewrite <- (byte_of_byte (lower_code_point p)) by lia.
          now rewrite Hcomma. }
        apply lower_code_point_comma in Hp44. subst p.
        rewrite (Hsmall ltac:(lia)). now left.
    + specialize (Hhigh Hl). rewrite Forall_forall in Hhigh.
      specialize (Hhigh ch Hin). unfold is_ascii in Hhigh. apply N.ltb_ge in Hhigh.
      split.
      * rewrite is_upper_byte.
        destruct (N.leb_spec 65 (byte ch)), (N.leb_spec (byte ch) 90); cbn;
          reflexivity || lia.
      * intros ->. vm_compute in Hhigh. now destruct Hhigh.
  - split; [| intros ->; exact Hin].
    destruct Hg as [c [tail [-> [Htail Hascii]]]].
    assert (Hc : is_ascii c = false).
    { destruct (is_ascii c) eqn:Hc; [| reflexivity].
      rewrite (Hascii eq_refl), (decode_ascii c Hc) in Hd. discriminate. }
    assert (Hhigh : is_ascii ch = false).
    { destruct Hin as [<- | Hin]; [exact Hc |].
      rewrite forallb_forall in Htail. now apply continuation_not_ascii, Htail. }
    unfold is_ascii in Hhigh. apply N.ltb_ge in Hhigh. rewrite is_upper_byte.
    destruct (N.leb_spec 65 (byte ch)), (N.leb_spec (byte ch) 90); cbn;
      reflexivity || lia.
Qed.

Lemma in_characters (t g : text) (ch : ascii) :
  In g (characters t) -> In ch g -> In ch t.
Proof.
  intros Hg Hch. rewrite <- (concat_characters t). apply in_concat. eauto.
Qed.

Lemma character_of_text (t g : text) : In g (characters t) -> character g.
Proof.
  intros Hin. pose proof (characters_grouped t) as H.
  induction H as [| g' gs Hg Hgs IH _]; [contradiction |].
  destruct Hin as [<- | Hin]; auto.
Qed.

Lemma lower_text_bytes (t : text) (ch : ascii) :
  In ch (lower_text t) -> is_upper ch = false /\ (ch = ","%char -> In ","%char t).
Proof.
  unfold lower_text. intros Hin. apply in_flat_map in Hin.
  destruct Hin as [g [Hg Hch]].
  destruct (lower_character_bytes g ch (character_of_text t g Hg) Hch) as [Hup Hcomma].
  split; [exact Hup |]. intros E. exact (in_characters t g _ Hg (Hcomma E)).
Qed.

End TextFacts.

(* ===================================================================== *)
(** ** Entity Ranker: [create_daily_top_entities] *)
(* ===================================================================== *)

Module EntityRanker.
Import Sql Schema Processing Spec SqlFacts SchemaFacts AnalogRetriever.

Lemma in_distinct_complete {K : Type} (eqb : K -> K -> bool) (l : list K) (x : K) :
  (forall a b, eqb a b = true <-> a = b) -> In x l -> In x (distinct eqb l).
Proof.
  intros Heqb. induction l as [| y l IH]; simpl; [auto |].
  intros [-> | Hx]; [now left |].
  destruct (eqb y x) eqn:E.
  - left. now apply Heqb.
  - right. apply filter_In. split; [auto | now rewrite E].
Qed.

(** A count row counts the tag rows of its key and tag. *)
Lemma count_tags_row (rows : list tag_row) (cr : count_row) :
  In cr (count_tags rows) ->
  exists tr,
    In tr rows /\
    event_date tr = event_date cr /\ country tr = country cr /\ tr_tag tr = cr_tag cr /\
    cr_c cr = List.length (filter (fun r => tag_row_eqb r tr) rows).
Proof.
  unfold count_tags. intros Hin. apply in_map_iff in Hin.
  destruct Hin as [[k g] [<- Hg]]. simpl.
  apply in_group_by in Hg. destruct Hg as [-> Hk]. rewrite map_id in Hk.
  exists k. auto.
Qed.

Lemma tag_row_eqb_eq (a b : tag_row) : tag_row_eqb a b = true <-> a = b.
Proof.
  unfold tag_row_eqb. rewrite andb_true_iff, same_key_eq, String.eqb_eq.
  destruct a as [d1 c1 t1], b as [d2 c2 t2]. simpl. split.
  - intros [[-> ->] ->]. reflexivity.
  - intros H. inversion H. auto.
Qed.

(** [GROUP BY 1,2,3] gives one count row per (event_date, country, tag). *)
Lemma count_tags_unique (rows : list tag_row) (x y : count_row) :
  In x (count_tags rows) -> In y (count_tags rows) ->
  event_date x = event_date y -> country x = country y -> cr_tag x = cr_tag y ->
  x = y.
Proof.
  unfold count_tags. intros Hx Hy Hd Hc Ht.
  apply in_map_iff in Hx. destruct Hx as [[k1 g1] [<- H1]].
  apply in_map_iff in Hy. destruct Hy as [[k2 g2] [<- H2]].
  apply in_group_by in H1. destruct H1 as [-> _].
  apply in_group_by in H2. destruct H2 as [-> _].
  simpl in *. assert (k1 = k2) as ->; [| reflexivity].
  destruct k1, k2. simpl in *. congruence.
Qed.

Lemma count_tags_NoDup (rows : list tag_row) : NoDup (count_tags rows).
Proof.
  unfold count_tags, group_by. rewrite map_map.
  apply Injective_map_NoDup_in.
  - intros k1 k2 _ _ H. inversion H. destruct k1, k2. simpl in *. congruence.
  - apply distinct_NoDup. apply tag_row_eqb_eq.
Qed.

(** Within one (event_date, country) every tag is counted once. *)
Lemma count_tags_tags_NoDup (rows : list tag_row) (d : date) (ctry : string) :
  NoDup (map cr_tag (filter (has_key d ctry) (count_tags rows))).
Proof.
  apply Injective_map_NoDup_in.
  - intros x y Hx Hy Ht. apply filter_In in Hx, Hy.
    destruct Hx as [Hx Hkx], Hy as [Hy Hky].
    apply has_key_eq in Hkx, Hky.
    apply (count_tags_unique rows x y Hx Hy); [| | exact Ht];
      destruct Hkx, Hky; congruence.
  - apply NoDup_filter, count_tags_NoDup.
Qed.

Lemma ranking_tags_NoDup (e : scan) (counts : list count_row) :
  NoDup (map cr_tag counts) -> NoDup (map tag (ranking e counts)).
Proof.
  intros H. unfold ranking, limit. rewrite map_map.
  change (NoDup (map cr_tag (firstn 10 (order_by e c_desc counts)))).
  rewrite <- firstn_map. apply NoDup_firstn.
  eapply Permutation_NoDup; [| exact H].
  apply Permutation_map, order_by_perm.
Qed.

(** A row of [top10] ranks the count rows of its key. *)
Lemma top10_row (cl : client) (counts : list count_row) (rk : ranked_row) :
  In rk (top10 cl counts) ->
  rk_top rk =
    ranking (engine cl) (filter (has_key (event_date rk) (country rk)) counts).
Proof.
  unfold top10. intros Hin. apply in_map_iff in Hin.
  destruct Hin as [[[d ctry] g] [<- Hg]]. simpl.
  apply in_group_by in Hg. destruct Hg as [-> _]. reflexivity.
Qed.

(** Every key with a count row has a row in [top10]. *)
Lemma top10_covers (cl : client) (counts : list count_row) (cr : count_row) :
  In cr counts ->
  exists rk, In rk (top10 cl counts) /\
             event_date rk = event_date cr /\ country rk = country cr.
Proof.
  intros Hin. unfold top10, group_by.
  assert (Hk : In (event_date cr, country cr)
                  (distinct key_eqb (map (fun r => (event_date r, country r)) counts))).
  { apply in_distinct_complete; [apply key_eqb_eq |].
    apply in_map_iff. exists cr. auto. }
  eexists. split.
  - apply in_map_iff. eexists. split; [reflexivity |].
    apply in_map_iff. eexists. split; [reflexivity | exact Hk].
  - simpl. auto.
Qed.

Lemma c_desc_total (a b : count_row) : c_desc a b = true \/ c_desc b a = true.
Proof. unfold c_desc. rewrite !Nat.leb_le. lia. Qed.

Lemma c_desc_trans (a b x : count_row) :
  c_desc a b = true -> c_desc b x = true -> c_desc a x = true.
Proof. unfold c_desc. rewrite !Nat.leb_le. lia. Qed.

(** [ORDER BY c DESC LIMIT 10] keeps the ten highest counts, highest
    first. *)
Lemma top10_of_ranking (e : scan) (counts : list count_row) :
  top10_of counts (ranking e counts).
Proof.
  exists (order_by e c_desc counts).
  split; [apply order_by_perm |]. split; [| reflexivity].
  unfold order_by.
  eapply strongly_sorted_impl;
    [| apply (sort_by_sorted c_desc c_desc_total c_desc_trans)].
  intros a b H. now apply Nat.leb_le.
Qed.

(** A row of [daily_top_entities]: its themes are a row of [top_themes],
    its people the row of [top_people] of the same key, or none when
    [top_people] has no row of that key. *)
Lemma top_entities_row (cl : client) (ds : dataset) (row : entities_row) :
  In row (top_entities cl ds) ->
  (exists t, In t (top_themes_cte cl ds) /\
             event_date t = event_date row /\ country t = country row /\
             top_themes row = rk_top t) /\
  ((top_people row = [] /\
    forall p, In p (top_people_cte cl ds) ->
              ~ (event_date p = event_date row /\ country p = country row)) \/
   (exists p, In p (top_people_cte cl ds) /\
              event_date p = event_date row /\ country p = country row /\
              top_people row = rk_top p)).
Proof.
  unfold top_entities. intros Hin. apply in_map_iff in Hin.
  destruct Hin as [[t op] [<- Hj]]. simpl.
  apply in_left_join in Hj. destruct Hj as [Ht Hp]. split.
  - exists t. auto.
  - destruct op as [p |]; simpl.
    + right. destruct Hp as [Hp Hk]. apply same_key_eq in Hk. destruct Hk as [Hd Hc].
      exists p. auto.
    + left. split; [reflexivity |]. intros p Hin [Hd Hc].
      specialize (Hp p Hin).
      assert (Hk : same_key t p = true) by (apply same_key_eq; auto).
      congruence.
Qed.

(** A label of [top_people] passed the noise filter. *)
Lemma top_people_label_kept (cl : client) (ds : dataset) (row : entities_row)
  (x : tag_count) :
  In row (top_entities cl ds) -> In x (top_people row) ->
  keep_person (Some (tag x)) = true.
Proof.
  intros Hrow Hx. destruct (top_entities_row cl ds row Hrow) as [_ [[Hnil _] | Hp]].
  - rewrite Hnil in Hx. contradiction.
  - destruct Hp as [p [Hp [_ [_ Htop]]]]. rewrite Htop in Hx.
    unfold top_people_cte in Hp. rewrite (top10_row cl _ p Hp) in Hx.
    unfold ranking in Hx. apply in_map_iff in Hx. destruct Hx as [cr [<- Hcr]]. simpl.
    apply in_limit, in_order_by, filter_In in Hcr. destruct Hcr as [Hcr _].
    unfold person_counts in Hcr. apply count_tags_row in Hcr.
    destruct Hcr as [tr [Htr [_ [_ [Htag _]]]]]. rewrite <- Htag.
    unfold tag_rows in Htr. apply in_flat_map in Htr. destruct Htr as [r [Hr Hin]].
    unfold clean_people in Hr. apply filter_In in Hr. destruct Hr as [_ Hkeep].
    destruct (person r) as [t |]; [| contradiction].
    destruct Hin as [<- | []]. exact Hkeep.
Qed.


(** The label of a tag has no more characters than the tag. *)
Lemma normalize_tag_length (raw : string) :
  (sql_length (normalize_tag raw) <= sql_length raw)%nat.
Proof.
  unfold normalize_tag. rewrite TextFacts.length_lower.
  apply TextFacts.length_split_offset0.
Qed.

(** C8. No label of [top_people] is shorter than three characters or on
    the platform denylist; so a person tag whose lower-cased first comma
    segment is on the denylist (Twitter) and a person tag shorter than
    three characters (Al) never show in [top_people], however often they
    occur.  Length is counted in characters, as [LENGTH] does, not in
    bytes: a tag of two accented characters is short although it takes
    three bytes. *)
Theorem top_people_has_no_platform_and_no_short_tag :
  (forall (cl : client) (ds : dataset) (row : entities_row) (x : tag_count),
     In row (daily_top_entities (create_daily_top_entities cl ds)) ->
     In x (top_people row) ->
     (3 <= sql_length (tag x))%nat /\
     ~ In (tag x) platform_denylist /\
     forall raw : string,
       In (normalize_tag raw) platform_denylist \/
       (sql_length raw < 3)%nat \/ (sql_length (normalize_tag raw) < 3)%nat ->
       tag x <> normalize_tag raw) /\
  (forall raw : string, (sql_length (normalize_tag raw) <= sql_length raw)%nat) /\
  (normalize_tag "Twitter" = "twitter"%string /\
   In "twitter"%string platform_denylist) /\
  (sql_length "Al" < 3)%nat /\
  (sql_length "Éa" = 2%nat /\ String.length "Éa" = 3%nat /\
   normalize_tag "Éa" = "éa"%string).
Proof.
  split; [| split; [exact normalize_tag_length |
                    split; [split; [vm_compute; reflexivity | vm_compute; tauto] |
                            split; [vm_compute; lia |
                                    repeat split; vm_compute; reflexivity]]]].
  intros cl ds row x Hrow Hx. simpl in Hrow.
  pose proof (top_people_label_kept cl ds row x Hrow Hx) as Hkeep.
  unfold keep_person in Hkeep. apply andb_true_iff in Hkeep.
  destruct Hkeep as [Hlen Hdeny]. apply Nat.leb_le in Hlen.
  assert (Hnot : ~ In (tag x) platform_denylist).
  { intros Hin. apply negb_true_iff in Hdeny.
    assert (existsb (String.eqb (tag x)) platform_denylist = true).
    { apply existsb_exists. exists (tag x). split; [exact Hin | apply String.eqb_refl]. }
    congruence. }
  split; [exact Hlen |]. split; [exact Hnot |].
  intros raw [Hin | [Hshort | Hshort]] Heq.
  - apply Hnot. now rewrite Heq.
  - pose proof (normalize_tag_length raw). rewrite <- Heq in H. lia.
  - rewrite <- Heq in Hshort. lia.
Qed.

Lemma top_people_has_no_platform_and_no_short_tag_witness :
  let row := hd (Build_entities_row 0%Z EmptyString [] [])
                (daily_top_entities
                   (create_daily_top_entities Demo.fifo_client Demo.accented)) in
  let x := hd (Build_tag_count EmptyString 0) (top_people row) in
  top_people row = [ x ] /\ tag x = "josé ángel"%string /\
  (3 <= sql_length (tag x))%nat /\
  ~ In (tag x) platform_denylist /\
  tag x <> normalize_tag "Twitter,33" /\ tag x <> normalize_tag "Al" /\
  tag x <> normalize_tag "Éa" /\ tag x <> normalize_tag "Ñu,3".
Proof.
  intros row x.
  assert (Hrow : In row (daily_top_entities
                           (create_daily_top_entities Demo.fifo_client Demo.accented)))
    by (vm_compute; left; reflexivity).
  assert (Hx : In x (top_people row)) by (vm_compute; left; reflexivity).
  destruct (proj1 top_people_has_no_platform_and_no_short_tag
                  Demo.fifo_client Demo.accented row x Hrow Hx) as [Hlen [Hnot Hraw]].
  split; [vm_compute; reflexivity |]. split; [vm_compute; reflexivity |].
  split; [exact Hlen |]. split; [exact Hnot |].
  repeat split; apply Hraw.
  - left. vm_compute. tauto.
  - right. left. vm_compute. lia.
  - right. left. vm_compute. lia.
  - right. right. vm_compute. lia.
Defined.

(** The two arrays of a row of [daily_top_entities] are the rankings of the
    count rows of its key. *)
Lemma top_entities_rankings (cl : client) (ds : dataset) (row : entities_row) :
  In row (top_entities cl ds) ->
  top_themes row =
    ranking (engine cl)
      (filter (has_key (event_date row) (country row)) (theme_counts cl ds)) /\
  top_people row =
    ranking (engine cl)
      (filter (has_key (event_date row) (country row)) (person_counts cl ds)).
Proof.
  intros Hrow. split.
  - destruct (top_entities_row cl ds row Hrow) as [[t [Ht [Hd [Hc Htop]]]] _].
    rewrite Htop. unfold top_themes_cte in Ht. rewrite (top10_row cl _ t Ht).
    now rewrite Hd, Hc.
  - destruct (top_entities_row cl ds row Hrow) as [_ [[Hnil Hno] | Hp]].
    + rewrite Hnil, filter_nil; [unfold ranking; now rewrite order_by_nil |].
      intros cr Hcr. destruct (has_key _ _ cr) eqn:Hk; [| reflexivity].
      apply has_key_eq in Hk. exfalso.
      destruct (top10_covers cl _ cr Hcr) as [rk [Hrk [Hd Hc]]].
      apply (Hno rk Hrk). split; [rewrite Hd | rewrite Hc]; tauto.
    + destruct Hp as [p [Hp [Hd [Hc Htop]]]].
      rewrite Htop. unfold top_people_cte in Hp. rewrite (top10_row cl _ p Hp).
      now rewrite Hd, Hc.
Qed.

(** The count of a tag row is the number of times its tag occurs among the
    tag rows of its key. *)
Lemma count_of_key_rows (rows : list tag_row) (k : tag_row) (d : date) (ctry : string) :
  has_key d ctry k = true ->
  List.length (filter (fun r => tag_row_eqb r k) rows) =
  count_occ string_dec (map tr_tag (filter (has_key d ctry) rows)) (tr_tag k).
Proof.
  intros Hk. induction rows as [| r rows IH]; simpl; [reflexivity |].
  destruct (tag_row_eqb r k) eqn:E.
  - apply tag_row_eqb_eq in E. subst r. rewrite Hk. simpl.
    destruct (string_dec (tr_tag k) (tr_tag k)); [now rewrite IH | contradiction].
  - destruct (has_key d ctry r) eqn:Hr; simpl; [| exact IH].
    destruct (string_dec (tr_tag r) (tr_tag k)) as [Ht | Ht]; [| exact IH].
    exfalso. apply has_key_eq in Hk, Hr.
    assert (tag_row_eqb r k = true); [| congruence].
    unfold tag_row_eqb. apply andb_true_iff. split.
    + apply same_key_eq. destruct Hk, Hr. split; congruence.
    + now apply String.eqb_eq.
Qed.

(** Under an engine that keeps rows in table order the ranking of the
    themes is the one by first sight: most frequent first, equally frequent
    tags in the order they were first seen. *)
Lemma table_order_ranks_by_first_sight (cl : client) (ds : dataset) (row : entities_row) :
  engine cl = fifo_scan ->
  In row (daily_top_entities (create_daily_top_entities cl ds)) ->
  top_themes row =
    first_seen_top10 (themes_seen cl ds (event_date row) (country row)).
Proof.
  intros He Hrow. simpl in Hrow.
  destruct (top_entities_rankings cl ds row Hrow) as [-> _]. rewrite He.
  set (d := event_date row). set (ctry := country row).
  unfold ranking, order_by, limit, first_seen_top10, themes_seen, theme_counts.
  cbn [row_order fifo_scan].
  set (rows := tag_rows theme (e cl ds)).
  rewrite <- firstn_map. f_equal.
  rewrite (map_sort_by to_tag_count c_desc (fun a b => (c b <=? c a)%nat))
    by reflexivity.
  f_equal.
  unfold count_tags, group_by. rewrite map_map, filter_map_swap, map_map.
  change (fun a : tag_row => has_key d ctry _) with (fun a : tag_row => has_key d ctry a).
  assert (Hfd : filter (fun a : tag_row => has_key d ctry a) (distinct tag_row_eqb rows)
                = distinct tag_row_eqb (filter (has_key d ctry) rows))
    by exact (filter_distinct tag_row_eqb (has_key d ctry) rows tag_row_eqb_eq).
  rewrite map_id, Hfd.
  rewrite (distinct_map tag_row_eqb String.eqb tr_tag).
  - rewrite map_map. apply map_ext_in. intros k Hk.
    apply in_distinct, filter_In in Hk. destruct Hk as [_ Hk].
    unfold to_tag_count. simpl. f_equal.
    exact (count_of_key_rows rows k d ctry Hk).
  - intros a b Ha Hb. apply filter_In in Ha, Hb.
    destruct Ha as [_ Ha], Hb as [_ Hb]. apply has_key_eq in Ha, Hb.
    unfold tag_row_eqb.
    replace (same_key a b) with true; [reflexivity |].
    symmetry. apply same_key_eq. destruct Ha, Hb. split; congruence.
Qed.

(** Counts that differ leave the engine no choice: the ranking is the
    count rows in descending order. *)
Lemma ranking_of_distinct_counts (e : scan) (counts : list count_row) :
  StronglySorted (fun a b => (cr_c b < cr_c a)%nat) counts ->
  ranking e counts = map to_tag_count (limit 10 counts).
Proof.
  intros Hstrict. unfold ranking. f_equal. f_equal. symmetry.
  apply (sorted_perm_unique (fun a b => (cr_c b < cr_c a)%nat)
                            (fun a b => c_desc a b = true)).
  - intros a b Hlt Hle. unfold c_desc in Hle. apply Nat.leb_le in Hle. lia.
  - exact Hstrict.
  - unfold order_by. apply (sort_by_sorted c_desc c_desc_total c_desc_trans).
  - apply order_by_perm.
Qed.

(** C7 on the code.  The count of a theme is taken over the rows of [e],
    which pair every theme of an event with every person of the same
    event, so it is not the number of occurrences of the theme.  On
    [Demo.uneven] election occurs four times, econ_inflation twice and
    protest once, no two alike, and the ranking by occurrences is
    election, econ_inflation, protest; the stage stores protest with 3,
    then econ_inflation with 2, and leaves election out, in whatever
    order the engine hands rows on. *)
Theorem themes_are_ranked_by_pairs_not_by_occurrences :
  forall sc : scan,
    let cl := Demo.toy_client sc in
    first_seen_top10 (theme_occurrences cl Demo.uneven 10%Z "A")
    = [ {| tag := "election"; c := 4 |}; {| tag := "econ_inflation"; c := 2 |};
        {| tag := "protest"; c := 1 |} ] /\
    (exists row,
       In row (daily_top_entities (create_daily_top_entities cl Demo.uneven)) /\
       event_date row = 10%Z /\ country row = "A"%string) /\
    (forall row,
       In row (daily_top_entities (create_daily_top_entities cl Demo.uneven)) ->
       event_date row = 10%Z /\ country row = "A"%string /\
       top_themes row
       = [ {| tag := "protest"; c := 3 |}; {| tag := "econ_inflation"; c := 2 |} ] /\
       top_themes row <> first_seen_top10 (theme_occurrences cl Demo.uneven 10%Z "A")).
Proof.
  intros sc cl.
  assert (Hspec : first_seen_top10 (theme_occurrences cl Demo.uneven 10%Z "A")
                  = [ {| tag := "election"; c := 4 |};
                      {| tag := "econ_inflation"; c := 2 |};
                      {| tag := "protest"; c := 1 |} ])
    by (vm_compute; reflexivity).
  assert (Hkey : forall row,
            In row (top_entities cl Demo.uneven) ->
            event_date row = 10%Z /\ country row = "A"%string).
  { intros row Hrow.
    destruct (top_entities_row cl Demo.uneven row Hrow) as [[t [Ht [Hd [Hc _]]]] _].
    rewrite <- Hd, <- Hc. unfold top_themes_cte, top10 in Ht.
    apply in_map_iff in Ht. destruct Ht as [[[d ctry] g] [<- Hg]]. simpl.
    apply in_group_by in Hg. destruct Hg as [_ Hk].
    vm_compute in Hk.
    destruct Hk as [Hk | [Hk | []]]; injection Hk as <- <-; split; reflexivity. }
  split; [exact Hspec |].
  split; [| intros row Hrow;
            change (In row (top_entities cl Demo.uneven)) in Hrow].
  - assert (Hcr : In {| cr_event_date := 10%Z; cr_country := "A"; cr_tag := "protest";
                        cr_c := 3 |} (theme_counts cl Demo.uneven))
      by (vm_compute; left; reflexivity).
    destruct (top10_covers cl _ _ Hcr) as [rk [Hrk [Hd Hc]]].
    destruct (left_join_keeps same_key _ (top_people_cte cl Demo.uneven) rk Hrk)
      as [op Hop].
    eexists. split.
    + change (daily_top_entities (create_daily_top_entities cl Demo.uneven))
        with (top_entities cl Demo.uneven).
      unfold top_entities. apply in_map_iff. eexists.
      split; [reflexivity | exact Hop].
    + split; [exact Hd | exact Hc].
  - destruct (Hkey row Hrow) as [Hd Hc].
    assert (Htop : top_themes row
                   = [ {| tag := "protest"; c := 3 |};
                       {| tag := "econ_inflation"; c := 2 |} ]).
    { destruct (top_entities_rankings cl Demo.uneven row Hrow) as [-> _].
      rewrite Hd, Hc.
      assert (Hcounts : filter (has_key 10%Z "A") (theme_counts cl Demo.uneven)
                        = [ {| cr_event_date := 10%Z; cr_country := "A";
                               cr_tag := "protest"; cr_c := 3 |};
                            {| cr_event_date := 10%Z; cr_country := "A";
                               cr_tag := "econ_inflation"; cr_c := 2 |} ])
        by (vm_compute; reflexivity).
      rewrite Hcounts. rewrite ranking_of_distinct_counts; [reflexivity |].
      repeat constructor. }
    split; [exact Hd |]. split; [exact Hc |]. split; [exact Htop |].
    rewrite Htop, Hspec. discriminate.
Qed.

End EntityRanker.
(* ===================================================================== *)
(** ** More facts about tables, joins and rounding *)
(* ===================================================================== *)

Module TableFacts.
Import Sql Schema SqlFacts SchemaFacts.

Lemma strongly_sorted_app {A : Type} (R : A -> A -> Prop) (l1 l2 : list A) :
  StronglySorted R (l1 ++ l2) -> forall x y, In x l1 -> In y l2 -> R x y.
Proof.
  induction l1 as [| a l1 IH]; simpl; intros Hs x y Hx Hy; [contradiction |].
  inversion Hs as [| a' l' Hs' Hall]; subst.
  destruct Hx as [-> | Hx].
  - rewrite Forall_forall in Hall. apply Hall. apply in_or_app. now right.
  - now apply IH.
Qed.

Lemma fold_max_spec (l : list date) (d : date) :
  In (fold_left Z.max l d) (d :: l) /\
  forall x, In x (d :: l) -> (x <= fold_left Z.max l d)%Z.
Proof.
  revert d. induction l as [| y l IH]; intros d; simpl.
  - split; [now left |]. intros x [-> | []]. lia.
  - destruct (IH (Z.max d y)) as [Hin Hle]. split.
    + destruct Hin as [Hin | Hin]; [| now right; right].
      rewrite <- Hin. destruct (Z.max_spec d y) as [[_ ->] | [_ ->]]; auto.
    + intros x Hx.
      assert (Hm : (Z.max d y <= fold_left Z.max l (Z.max d y))%Z)
        by (apply Hle; now left).
      destruct Hx as [-> | [-> | Hx]]; [lia | lia |].
      apply Hle. now right.
Qed.

(** [MAX(event_date)] is a date of the table, and no date is later. *)
Lemma max_date_spec (l : list date) (d : date) :
  max_date l = Some d <-> In d l /\ forall x, In x l -> (x <= d)%Z.
Proof.
  destruct l as [| y l]; simpl.
  - split; [discriminate | intros [[] _]].
  - destruct (fold_max_spec l y) as [Hin Hle]. split.
    + intros H. inversion H; subst. split; assumption.
    + intros [Hd Hub]. f_equal.
      assert (H1 : (fold_left Z.max l y <= d)%Z) by (apply Hub; exact Hin).
      assert (H2 : (d <= fold_left Z.max l y)%Z) by (apply Hle; exact Hd).
      lia.
Qed.

(** The rows on the latest day of [of_table]: their date is a date of
    [of_table], and no row of [of_table] is later. *)
Lemma on_latest_day_spec {A B : Type} `{Keyed A} `{Keyed B}
  (of_table : list B) (rows : list A) (r : A) :
  In r (on_latest_day of_table rows) <->
  In r rows /\
  (exists b, In b of_table /\ event_date b = event_date r) /\
  (forall b, In b of_table -> (event_date b <= event_date r)%Z).
Proof.
  unfold on_latest_day. split.
  - destruct (max_date (map event_date of_table)) as [d |] eqn:Hmax; [| intros []].
    rewrite filter_In. intros [Hin Hd]. apply Z.eqb_eq in Hd.
    apply max_date_spec in Hmax. destruct Hmax as [Hd_in Hub].
    apply in_map_iff in Hd_in. destruct Hd_in as [b [Hb Hbin]].
    split; [exact Hin |]. split.
    + exists b. split; [exact Hbin | congruence].
    + intros b' Hb'. rewrite Hd. apply Hub. now apply in_map.
  - intros [Hin [[b [Hb Hbd]] Hub]].
    assert (Hmax : max_date (map event_date of_table) = Some (event_date r)).
    { apply max_date_spec. split.
      - rewrite <- Hbd. now apply in_map.
      - intros x Hx. apply in_map_iff in Hx. destruct Hx as [b' [<- Hb']]. now apply Hub. }
    rewrite Hmax. apply filter_In. split; [exact Hin | apply Z.eqb_refl].
Qed.

Lemma flat_map_ext_on {A B : Type} (f g : A -> list B) (l : list A) :
  (forall a, In a l -> f a = g a) -> flat_map f l = flat_map g l.
Proof.
  induction l as [| a l IH]; simpl; intros Hfg; [reflexivity |].
  rewrite Hfg by now left. f_equal. apply IH. intros; apply Hfg; now right.
Qed.

Lemma flat_map_singleton {A B : Type} (f : A -> B) (l : list A) :
  flat_map (fun a => [f a]) l = map f l.
Proof. induction l as [| a l IH]; simpl; [| rewrite IH]; reflexivity. Qed.

Lemma length_flat_map_le {A B : Type} (f : A -> list B) (l : list A) (k : nat) :
  (forall a, In a l -> (List.length (f a) <= k)%nat) ->
  (List.length (flat_map f l) <= List.length l * k)%nat.
Proof.
  induction l as [| a l IH]; simpl; intros Hk; [lia |].
  rewrite length_app.
  assert (H1 : (List.length (f a) <= k)%nat) by (apply Hk; now left).
  assert (H2 : (List.length (flat_map f l) <= List.length l * k)%nat)
    by (apply IH; intros; apply Hk; now right).
  lia.
Qed.

(** At most one row of a table with unique keys satisfies a condition
    that fixes the key. *)
Lemma filter_at_most_one {A K : Type} (key : A -> K) (p : A -> bool) (k : K)
  (r : list A) :
  NoDup (map key r) -> (forall b, In b r -> p b = true -> key b = k) ->
  (List.length (filter p r) <= 1)%nat.
Proof.
  induction r as [| b r IH]; simpl; intros Hnd Hk; [lia |].
  inversion Hnd as [| x l Hnotin Hnd']; subst.
  assert (IH' : (List.length (filter p r) <= 1)%nat).
  { apply IH; [exact Hnd' |]. intros b' Hb'. apply Hk. now right. }
  destruct (p b) eqn:Hpb; [| exact IH']. simpl.
  assert (Hnil : filter p r = []).
  { apply filter_nil. intros b' Hb'. destruct (p b') eqn:Hpb'; [| reflexivity].
    exfalso. apply Hnotin.
    assert (key b' = key b).
    { rewrite (Hk b' (or_intror Hb') Hpb'), (Hk b (or_introl eq_refl) Hpb). reflexivity. }
    rewrite <- H. now apply in_map. }
  rewrite Hnil. simpl. lia.
Qed.

(** A left join whose right side has at most one partner per left row
    keeps the left rows as they are: none lost, none repeated. *)
Lemma left_join_fst {A B : Type} (on : A -> B -> bool) (l : list A) (r : list B) :
  (forall a, In a l -> (List.length (filter (on a) r) <= 1)%nat) ->
  map fst (left_join on l r) = l.
Proof.
  unfold left_join. induction l as [| a l IH]; intros H1; [reflexivity |].
  cbn [flat_map]. rewrite map_app, IH by (intros; apply H1; now right).
  specialize (H1 a (or_introl eq_refl)).
  destruct (filter (on a) r) as [| b [| b' bs]]; simpl in *; try reflexivity. lia.
Qed.

(** An inner join of a table with unique keys against one row made from
    each of its rows, on the key: every row meets its own row only. *)
Lemma inner_join_own {A B K : Type} (key : A -> K) (g : A -> B)
  (on : A -> B -> bool) (l : list A) :
  NoDup (map key l) ->
  (forall a b, on a (g b) = true <-> key a = key b) ->
  inner_join on l (map g l) = map (fun a => (a, g a)) l.
Proof.
  intros Hnd Hon. unfold inner_join.
  rewrite <- (flat_map_singleton (fun a => (a, g a))).
  apply flat_map_ext_on. intros a Ha.
  assert (Hone : forall l', NoDup (map key l') ->
            (In a l' -> filter (on a) (map g l') = [g a]) /\
            (~ In (key a) (map key l') -> filter (on a) (map g l') = [])).
  { induction l' as [| b l' IH]; simpl; intros Hnd'.
    - split; [intros [] | reflexivity].
    - inversion Hnd' as [| x y Hnotin Hnd'']; subst.
      destruct (IH Hnd'') as [IH1 IH2]. split.
      + intros [-> | Hin].
        * assert (Ht : on a (g a) = true) by (apply Hon; reflexivity).
          rewrite Ht, IH2 by exact Hnotin. reflexivity.
        * destruct (on a (g b)) eqn:Hab.
          -- exfalso. apply Hon in Hab. apply Hnotin. rewrite <- Hab. now apply in_map.
          -- now apply IH1.
      + intros Hn. destruct (on a (g b)) eqn:Hab.
        * exfalso. apply Hon in Hab. apply Hn. now left.
        * apply IH2. intros Hk. apply Hn. now right. }
  rewrite (proj1 (Hone l Hnd) Ha). reflexivity.
Qed.

Lemma NoDup_map_filter {A K : Type} (key : A -> K) (p : A -> bool) (l : list A) :
  NoDup (map key l) -> NoDup (map key (filter p l)).
Proof.
  induction l as [| a l IH]; simpl; intros Hnd; [constructor |].
  inversion Hnd as [| x y Hnotin Hnd']; subst.
  destruct (p a); simpl; [| now apply IH].
  constructor; [| now apply IH].
  intros Hin. apply Hnotin. apply in_map_iff in Hin. destruct Hin as [b [Hb Hbin]].
  apply filter_In in Hbin. rewrite <- Hb. apply in_map. tauto.
Qed.

Lemma NoDup_map_firstn {A K : Type} (key : A -> K) (k : nat) (l : list A) :
  NoDup (map key l) -> NoDup (map key (firstn k l)).
Proof. intros Hnd. rewrite <- firstn_map. now apply NoDup_firstn. Qed.

Lemma NoDup_map_order_by (e : scan) {A K : Type} (key : A -> K)
  (leb : A -> A -> bool) (l : list A) :
  NoDup (map key l) -> NoDup (map key (order_by e leb l)).
Proof.
  intros Hnd. eapply Permutation_NoDup; [| exact Hnd].
  apply Permutation_map. apply order_by_perm.
Qed.

(** The keys of the groups of a [GROUP BY event_date, country]. *)
Lemma group_by_keys {A : Type} `{Keyed A} (rows : list A) :
  map fst (group_by key_eqb key_of rows) = distinct key_eqb (map key_of rows).
Proof. unfold group_by. rewrite map_map. simpl. apply map_id. Qed.

Lemma in_distinct_iff {K : Type} (eqb : K -> K -> bool) (l : list K) (x : K) :
  (forall a b, eqb a b = true <-> a = b) -> In x (distinct eqb l) <-> In x l.
Proof.
  intros Heq. split; [apply in_distinct |].
  induction l as [| y l IH]; simpl; [tauto |].
  intros [-> | Hin]; [now left |].
  destruct (eqb y x) eqn:Hyx.
  - left. now apply Heq.
  - right. apply filter_In. split; [now apply IH | now rewrite Hyx].
Qed.

Lemma key_of_eq {A B : Type} `{Keyed A} `{Keyed B} (a : A) (b : B) :
  key_of a = key_of b <-> event_date a = event_date b /\ country a = country b.
Proof.
  unfold key_of. split; [intros Hk; inversion Hk; auto | intros [-> ->]; reflexivity].
Qed.

Lemma in_keys {A : Type} `{Keyed A} (l : list A) (d : date) (ctry : string) :
  In (d, ctry) (map key_of l) <->
  exists r, In r l /\ event_date r = d /\ country r = ctry.
Proof.
  rewrite in_map_iff. split.
  - intros [r [Hk Hr]]. inversion Hk; subst. eauto.
  - intros [r [Hr [<- <-]]]. exists r. split; [reflexivity | exact Hr].
Qed.

Lemma length_filter_flat_map {A B : Type} (p : B -> bool) (f : A -> list B) (l : list A) :
  List.length (filter p (flat_map f l)) =
  list_sum (map (fun x => List.length (filter p (f x))) l).
Proof.
  induction l as [| x l IH]; simpl; [reflexivity |].
  rewrite filter_app, length_app, IH. reflexivity.
Qed.

Lemma length_filter_const {A B : Type} (p : B -> bool) (b : B) (l : list A) :
  List.length (filter p (map (fun _ => b) l)) = if p b then List.length l else 0%nat.
Proof.
  induction l as [| x l IH]; simpl; [now destruct (p b) |].
  destruct (p b) eqn:Hp; simpl; [now rewrite IH | exact IH].
Qed.

Lemma list_sum_zero {A : Type} (f : A -> nat) (l : list A) :
  (forall x, In x l -> f x = 0%nat) -> list_sum (map f l) = 0%nat.
Proof.
  induction l as [| x l IH]; simpl; intros H0; [reflexivity |].
  rewrite H0 by now left. apply IH. intros; apply H0; now right.
Qed.

Lemma list_sum_filter {A : Type} (p : A -> bool) (f : A -> nat) (l : list A) :
  list_sum (map (fun x => if p x then f x else 0%nat) l) = list_sum (map f (filter p l)).
Proof.
  induction l as [| x l IH]; simpl; [reflexivity |].
  destruct (p x); simpl; now rewrite IH.
Qed.

Lemma filter_flat_map {A B : Type} (p : B -> bool) (f : A -> list B) (l : list A) :
  filter p (flat_map f l) = flat_map (fun x => filter p (f x)) l.
Proof.
  induction l as [| x l IH]; simpl; [reflexivity |].
  rewrite filter_app. f_equal. exact IH.
Qed.

Lemma list_sum_const {A : Type} (n : nat) (l : list A) :
  list_sum (map (fun _ => n) l) = (n * List.length l)%nat.
Proof. induction l as [| x l IH]; simpl; [lia | rewrite IH; lia]. Qed.

Lemma append_empty (s : string) : (s ++ "")%string = s.
Proof. induction s as [| ch s IH]; simpl; [reflexivity | now rewrite IH]. Qed.

End TableFacts.

Module RoundingFacts.
Import Sql.

(** The nearest integer is at most one half away. *)
Lemma round_half_away_near (y : Q) :
  (Qabs (inject_Z (round_half_away y) - y) <= 1 # 2)%Q.
Proof.
  apply Qabs_Qle_condition. unfold round_half_away.
  destruct (Qle_bool 0 y) eqn:Hy; cbv iota.
  - pose proof (Qfloor_le (y + (1 # 2))) as H1.
    pose proof (Qlt_floor (y + (1 # 2))) as H2.
    rewrite inject_Z_plus in H2. change (inject_Z 1) with 1%Q in H2.
    split; lra.
  - pose proof (Qfloor_le (- y + (1 # 2))) as H1.
    pose proof (Qlt_floor (- y + (1 # 2))) as H2.
    rewrite inject_Z_plus in H2. change (inject_Z 1) with 1%Q in H2.
    rewrite inject_Z_opp. split; lra.
Qed.

(** [ROUND(x, 4)] is a whole number of ten-thousandths, at most half a
    ten-thousandth from [x]. *)
Lemma sql_round4_near (x : Q) :
  exists z : Z,
    sql_round (Some x) 4 = Some (inject_Z z / 10000)%Q /\
    (Qabs (inject_Z z / 10000 - x) <= 1 # 20000)%Q.
Proof.
  exists (round_half_away (x * 10000)). split; [reflexivity |].
  pose proof (round_half_away_near (x * 10000)) as H.
  apply Qabs_Qle_condition in H. apply Qabs_Qle_condition.
  set (z := inject_Z (round_half_away (x * 10000))) in *.
  unfold Qdiv. change (/ 10000)%Q with (1 # 10000)%Q. split; lra.
Qed.

End RoundingFacts.

(* ===================================================================== *)
(** ** The URL pattern [https?://\S+] and its removal *)
(* ===================================================================== *)

Module UrlPattern.
Import Sql Spec RegexFacts SentimentPattern.



Ltac literal H :=
  apply matches_one_inv in H; [| reflexivity];
  let ch := fresh "ch" in
  let m' := fresh "m" in
  let Hc := fresh "Hc" in
  destruct H as [ch [m' [-> [Hc H]]]];
  cbn [class lit] in Hc; apply Ascii.eqb_eq in Hc; subst ch.















Lemma chars_str (t : text) : chars (str t) = t.
Proof. apply list_ascii_of_string_of_list_ascii. Qed.

Lemma str_chars (s : string) : str (chars s) = s.
Proof. apply string_of_list_ascii_of_string. Qed.

(** [SUBSTR(REGEXP_REPLACE(doc, r'https?://\S+', ''), 1, n)] in one piece. *)
Lemma strip_urls_substr_eq (doc : string) (n : nat) :
  Analytics.strip_urls_substr (Some doc) n =
  Some (str (firstn n (replace_from url_re [] 0 (chars doc)))).
Proof.
  unfold Analytics.strip_urls_substr, regexp_replace, substr1. simpl.
  rewrite chars_str. reflexivity.
Qed.


End UrlPattern.

(* ===================================================================== *)
(** ** The cohort, the analog search and its snippets *)
(* ===================================================================== *)

Module CohortAndAnalogs.
Import Sql Schema Processing Analytics Spec SqlFacts SchemaFacts TableFacts UrlPattern.

Lemma headlines_desc_total (a b : topic_row) :
  headlines_desc a b = true \/ headlines_desc b a = true.
Proof. unfold headlines_desc. rewrite !Nat.leb_le. lia. Qed.

Lemma headlines_desc_trans (a b x : topic_row) :
  headlines_desc a b = true -> headlines_desc b x = true -> headlines_desc a x = true.
Proof. unfold headlines_desc. rewrite !Nat.leb_le. lia. Qed.

Lemma order_by_headlines_sorted (e : scan) (l : list topic_row) :
  StronglySorted (fun a b => (headline_count b <= headline_count a)%nat)
                 (order_by e headlines_desc l).
Proof.
  unfold order_by.
  eapply AnalogRetriever.strongly_sorted_impl;
    [| apply (sort_by_sorted headlines_desc headlines_desc_total headlines_desc_trans)].
  intros a b H. now apply Nat.leb_le.
Qed.

Lemma length_cohort (cl : client) (ds : dataset) (top_n : nat) :
  (List.length (today_for_analogs (create_today_for_analogs cl ds top_n)) <= top_n)%nat.
Proof.
  unfold create_today_for_analogs. cbn [today_for_analogs set_today_for_analogs].
  rewrite length_map. apply length_limit.
Qed.

(** X1. [create_today_for_analogs] keeps, of the aggregates of the latest
    day of [daily_country_topics], the [top_n] with the most headlines:
    the cohort is the head of a ranking of those aggregates by headline
    count, it has at most [top_n] rows, every row is the key of an
    aggregate and no aggregate is dated later, the whole latest day is
    taken when it has no more than [top_n] aggregates, and an empty table
    gives an empty cohort. *)
Theorem cohort_is_the_top_n_of_the_latest_day :
  forall (cl : client) (ds : dataset) (top_n : nat),
    let topics := daily_country_topics ds in
    let cohort := today_for_analogs (create_today_for_analogs cl ds top_n) in
    (List.length cohort <= top_n)%nat /\
    (exists ranked,
       Permutation (on_latest_day topics topics) ranked /\
       StronglySorted (fun a b => (headline_count b <= headline_count a)%nat) ranked /\
       cohort =
         map (fun r => {| tfa_event_date := event_date r; tfa_country := country r |})
             (firstn top_n ranked)) /\
    (forall row, In row cohort ->
       (exists g, In g topics /\ event_date g = event_date row /\
                  country g = country row) /\
       (forall g, In g topics -> (event_date g <= event_date row)%Z)) /\
    (forall g, In g topics ->
       (forall g', In g' topics -> (event_date g' <= event_date g)%Z) ->
       (List.length (on_latest_day topics topics) <= top_n)%nat ->
       In {| tfa_event_date := event_date g; tfa_country := country g |} cohort) /\
    (topics = [] -> cohort = []).
Proof.
  intros cl ds top_n topics cohort.
  assert (Hcohort : cohort =
    map (fun r : topic_row =>
           {| tfa_event_date := event_date r; tfa_country := country r |})
        (firstn top_n (order_by (engine cl) headlines_desc
                         (on_latest_day topics topics)))) by reflexivity.
  split; [| split; [| split; [| split]]].
  - apply length_cohort.
  - exists (order_by (engine cl) headlines_desc (on_latest_day topics topics)).
    split; [apply order_by_perm |]. split; [apply order_by_headlines_sorted | exact Hcohort].
  - intros row Hin. rewrite Hcohort in Hin. apply in_map_iff in Hin.
    destruct Hin as [g [<- Hg]]. apply in_limit, in_order_by in Hg.
    apply on_latest_day_spec in Hg. destruct Hg as [Hg [_ Hub]].
    split; [exists g; auto | exact Hub].
  - intros g Hg Hlast Hlen. rewrite Hcohort.
    apply (in_map (fun r : topic_row =>
                     {| tfa_event_date := event_date r; tfa_country := country r |})).
    rewrite firstn_all2.
    + apply in_order_by. apply on_latest_day_spec.
      split; [exact Hg |]. split; [exists g; auto | exact Hlast].
    + rewrite <- (Permutation_length (order_by_perm (engine cl) headlines_desc _)).
      exact Hlen.
  - intros Hnil. rewrite Hcohort.
    unfold topics in Hnil |- *. rewrite Hnil.
    change (on_latest_day (@nil topic_row) (@nil topic_row)) with (@nil topic_row).
    rewrite order_by_nil. now rewrite firstn_nil.
Qed.

Lemma cohort_is_the_top_n_of_the_latest_day_witness :
  let cohort := today_for_analogs (create_today_for_analogs Demo.fifo_client Demo.week 2) in
  cohort = [ {| tfa_event_date := 10%Z; tfa_country := "A"%string |};
             {| tfa_event_date := 10%Z; tfa_country := "B"%string |} ] /\
  (List.length cohort <= 2)%nat /\
  forall row, In row cohort ->
    (exists g, In g (daily_country_topics Demo.week) /\
               event_date g = event_date row /\ country g = country row) /\
    (forall g, In g (daily_country_topics Demo.week) ->
               (event_date g <= event_date row)%Z).
Proof.
  cbv zeta. split; [vm_compute; reflexivity |].
  pose proof (cohort_is_the_top_n_of_the_latest_day Demo.fifo_client Demo.week 2%nat)
    as [Hlen [_ [Hrows _]]].
  split; [exact Hlen | exact Hrows].
Defined.

Lemma length_sim_query (cl : client) (ds : dataset) (row : cohort_row) (snip k : nat) :
  (List.length (sim_query cl ds row snip k) <= k)%nat.
Proof. unfold sim_query. rewrite length_map. apply length_limit. Qed.

(** X2. A run searches once per cohort row and keeps at most [analog_topk]
    rows of each search: after [create_today_for_analogs] with [top_n],
    [run_analog_searches] returns at most [top_n * analog_topk] rows, each
    under the key of a cohort row; an empty cohort gives an empty frame. *)
Theorem a_run_keeps_at_most_top_n_times_k_analog_rows :
  forall (cl : client) (ds : dataset) (top_n analog_snip_chars analog_topk : nat),
    let ds' := create_today_for_analogs cl ds top_n in
    let df := run_analog_searches cl ds' analog_snip_chars analog_topk in
    (List.length df <= top_n * analog_topk)%nat /\
    (forall ds0 : dataset,
       (List.length (run_analog_searches cl ds0 analog_snip_chars analog_topk)
        <= List.length (today_for_analogs ds0) * analog_topk)%nat) /\
    (forall r, In r df ->
       exists row, In row (today_for_analogs ds') /\
                   event_date r = event_date row /\ country r = country row) /\
    (forall ds0 : dataset,
       today_for_analogs ds0 = [] ->
       run_analog_searches cl ds0 analog_snip_chars analog_topk = []).
Proof.
  intros cl ds top_n snip k ds' df.
  assert (Hsize : forall ds0 : dataset,
    (List.length (run_analog_searches cl ds0 snip k)
     <= List.length (today_for_analogs ds0) * k)%nat).
  { intros ds0. unfold run_analog_searches.
    rewrite (Permutation_length (row_order_perm (engine cl) _ (today_for_analogs ds0))).
    apply length_flat_map_le. intros row _. apply length_sim_query. }
  split; [| split; [exact Hsize | split]].
  - eapply Nat.le_trans; [apply Hsize |].
    apply Nat.mul_le_mono_r.
    apply (length_cohort cl ds top_n).
  - intros r Hr.
    destruct (AnalogRetriever.run_analog_searches_row cl ds' snip k r Hr) as [row [Hrow Hq]].
    destruct (AnalogRetriever.sim_query_row cl ds' row snip k r Hq) as [Hd [Hc _]].
    exists row. auto.
  - intros ds0 Hnil. unfold run_analog_searches.
    assert (Hempty : row_order (engine cl) _ (today_for_analogs ds0) = []).
    { apply Permutation_nil. rewrite <- Hnil at 1.
      apply row_order_perm. }
    rewrite Hempty. reflexivity.
Qed.

Lemma a_run_keeps_at_most_top_n_times_k_analog_rows_witness :
  let ds' := create_today_for_analogs Demo.fifo_client Demo.week 2 in
  let df := run_analog_searches Demo.fifo_client ds' 400 1 in
  List.length df = 2%nat /\ (List.length df <= 2 * 1)%nat /\
  forall r, In r df ->
    exists row, In row (today_for_analogs ds') /\
                event_date r = event_date row /\ country r = country row.
Proof.
  cbv zeta. split; [vm_compute; reflexivity |].
  pose proof (a_run_keeps_at_most_top_n_times_k_analog_rows
                Demo.fifo_client Demo.week 2%nat 400%nat 1%nat) as [Hlen [_ [Hrows _]]].
  split; [exact Hlen | exact Hrows].
Defined.



Lemma aggregate_analogs_keys (cl : client) (flat : list analog_result) (k : nat) :
  map key_of (aggregate_analogs cl flat k) = distinct key_eqb (map key_of flat).
Proof.
  unfold aggregate_analogs. rewrite <- group_by_keys, map_map.
  apply map_ext. intros [[d ctry] g]. reflexivity.
Qed.

(** X4. [save_daily_analogs] stores the frame as [daily_analogs_flat] and
    rebuilds [daily_analogs] with exactly one row per (event_date, country)
    of the frame: no key twice, no key of the frame missing, no key that
    the frame does not hold; a row's array is not empty unless
    [analog_topk] is 0, and an empty frame gives an empty table. *)
Theorem daily_analogs_has_one_row_per_key_of_the_frame :
  forall (cl : client) (ds : dataset) (df : list analog_result) (analog_topk : nat),
    let ds' := save_daily_analogs cl ds df analog_topk in
    daily_analogs_flat ds' = df /\
    NoDup (map key_of (daily_analogs ds')) /\
    (forall (d : date) (ctry : string),
       (exists row, In row (daily_analogs ds') /\ event_date row = d /\ country row = ctry)
       <-> (exists r, In r df /\ event_date r = d /\ country r = ctry)) /\
    (forall row, In row (daily_analogs ds') -> (0 < analog_topk)%nat ->
                 analogs row <> []) /\
    (df = [] -> daily_analogs ds' = []).
Proof.
  intros cl ds df k ds'.
  assert (Hda : daily_analogs ds' = aggregate_analogs cl df k) by reflexivity.
  split; [reflexivity |]. rewrite Hda.
  split; [| split; [| split]].
  - rewrite aggregate_analogs_keys. apply distinct_NoDup. apply key_eqb_eq.
  - intros d ctry. rewrite <- !in_keys, aggregate_analogs_keys.
    apply in_distinct_iff. apply key_eqb_eq.
  - intros row Hrow Hk Hnil.
    destruct (AnalogRetriever.aggregate_analogs_row cl df k row Hrow)
      as [Harr [_ [r [Hr [Hd Hc]]]]].
    rewrite Harr in Hnil. apply map_eq_nil in Hnil.
    assert (Hin : In r (order_by (engine cl) (by_distance ar_distance)
                          (filter (has_key (event_date row) (country row)) df))).
    { apply in_order_by. apply filter_In. split; [exact Hr |]. now apply has_key_eq. }
    unfold limit in Hnil.
    destruct (order_by (engine cl) (by_distance ar_distance)
                (filter (has_key (event_date row) (country row)) df)) as [| x l];
      [contradiction |].
    destruct k; [lia | discriminate].
  - intros ->. reflexivity.
Qed.

Lemma daily_analogs_has_one_row_per_key_of_the_frame_witness :
  let df := run_analog_searches Demo.fifo_client Demo.week_cohort 400 5 in
  let ds' := save_daily_analogs Demo.fifo_client Demo.week_cohort df 5 in
  map key_of df = [ (10%Z, "A"%string); (10%Z, "A"%string); (10%Z, "B"%string);
                    (10%Z, "B"%string); (10%Z, "C"%string); (10%Z, "C"%string) ] /\
  map key_of (daily_analogs ds') = [ (10%Z, "A"%string); (10%Z, "B"%string);
                                     (10%Z, "C"%string) ] /\
  daily_analogs_flat ds' = df /\
  NoDup (map key_of (daily_analogs ds')).
Proof.
  cbv zeta. split; [vm_compute; reflexivity |]. split; [vm_compute; reflexivity |].
  pose proof (daily_analogs_has_one_row_per_key_of_the_frame
                Demo.fifo_client Demo.week_cohort
                (run_analog_searches Demo.fifo_client Demo.week_cohort 400 5) 5%nat)
    as [Hflat [Hnd _]].
  split; [exact Hflat | exact Hnd].
Defined.

(** X5. The array of a [daily_analogs] row holds the nearest rows of its
    key: it is the head of a ranking by distance of all rows of the key in
    the frame, it has [analog_topk] elements or, when the key has fewer
    rows, all of them, and a row of the key that is left out is at least as
    far as every element kept. *)
Theorem daily_analogs_keep_the_nearest_rows :
  forall (cl : client) (ds : dataset) (df : list analog_result) (analog_topk : nat)
         (row : daily_analogs_row),
    In row (daily_analogs (save_daily_analogs cl ds df analog_topk)) ->
    let mine := filter (has_key (event_date row) (country row)) df in
    (exists ranked,
       Permutation mine ranked /\
       StronglySorted (fun a b => ar_distance a <= ar_distance b)%Q ranked /\
       analogs row = map to_struct (firstn analog_topk ranked)) /\
    List.length (analogs row) = Nat.min analog_topk (List.length mine) /\
    (forall r, In r mine ->
       In (to_struct r) (analogs row) \/
       forall a, In a (analogs row) -> (distance a <= ar_distance r)%Q).
Proof.
  intros cl ds df k row Hrow mine.
  destruct (AnalogRetriever.aggregate_analogs_row cl df k row Hrow) as [Harr _].
  fold mine in Harr. unfold limit in Harr.
  set (ranked := order_by (engine cl) (by_distance ar_distance) mine) in *.
  assert (Hperm : Permutation mine ranked) by apply order_by_perm.
  assert (Hsorted : StronglySorted (fun a b => ar_distance a <= ar_distance b)%Q ranked)
    by apply AnalogRetriever.order_by_distance_sorted.
  split; [exists ranked; auto |]. split.
  - rewrite Harr, length_map, length_firstn.
    now rewrite (Permutation_length Hperm).
  - intros r Hr.
    assert (Hin : In r (firstn k ranked ++ skipn k ranked)).
    { rewrite firstn_skipn. eapply Permutation_in; eauto. }
    apply in_app_or in Hin. destruct Hin as [Hin | Hin].
    + left. rewrite Harr. now apply in_map.
    + right. intros a Ha. rewrite Harr in Ha. apply in_map_iff in Ha.
      destruct Ha as [r' [<- Hr']]. cbn [distance to_struct].
      rewrite <- (firstn_skipn k ranked) in Hsorted.
      exact (strongly_sorted_app _ _ _ Hsorted r' r Hr' Hin).
Qed.

Lemma daily_analogs_keep_the_nearest_rows_witness :
  let df := run_analog_searches Demo.fifo_client Demo.week_cohort 400 5 in
  let row := hd (Build_daily_analogs_row 0%Z EmptyString [] EmptyString)
                (daily_analogs (save_daily_analogs Demo.fifo_client Demo.week_cohort df 1)) in
  In row (daily_analogs (save_daily_analogs Demo.fifo_client Demo.week_cohort df 1)) /\
  List.length (filter (has_key (event_date row) (country row)) df) = 2%nat /\
  List.length (analogs row) = 1%nat /\
  (exists ranked,
     Permutation (filter (has_key (event_date row) (country row)) df) ranked /\
     StronglySorted (fun a b => ar_distance a <= ar_distance b)%Q ranked /\
     analogs row = map to_struct (firstn 1 ranked)).
Proof.
  cbv zeta.
  assert (Hin :
    In (hd (Build_daily_analogs_row 0%Z EmptyString [] EmptyString)
          (daily_analogs
             (save_daily_analogs Demo.fifo_client Demo.week_cohort
                (run_analog_searches Demo.fifo_client Demo.week_cohort 400 5) 1)))
       (daily_analogs
          (save_daily_analogs Demo.fifo_client Demo.week_cohort
             (run_analog_searches Demo.fifo_client Demo.week_cohort 400 5) 1)))
    by (vm_compute; auto).
  split; [exact Hin |]. split; [vm_compute; reflexivity |].
  split; [vm_compute; reflexivity |].
  exact (proj1 (daily_analogs_keep_the_nearest_rows Demo.fifo_client Demo.week_cohort
                  _ 1%nat _ Hin)).
Defined.

End CohortAndAnalogs.

(* ===================================================================== *)
(** ** One briefing and one mood per country-day *)
(* ===================================================================== *)

Module KeysOfTheLatestDay.
Import Sql Json Schema Processing Analytics Analytics.Briefings Analytics.Moodmap.
Import Spec SqlFacts SchemaFacts TableFacts.

Lemma on_latest_day_keys_NoDup {A B : Type} `{Keyed A} `{Keyed B}
  (of_table : list B) (rows : list A) :
  NoDup (map key_of rows) -> NoDup (map key_of (on_latest_day of_table rows)).
Proof.
  intros Hnd. unfold on_latest_day.
  destruct (max_date (map event_date of_table)); [| constructor].
  now apply NoDup_map_filter.
Qed.

Lemma length_on_latest_day {A B : Type} `{Keyed A} `{Keyed B}
  (of_table : list B) (rows : list A) :
  (List.length (on_latest_day of_table rows) <= List.length rows)%nat.
Proof.
  unfold on_latest_day.
  destruct (max_date (map event_date of_table)); [apply filter_length_le | simpl; lia].
Qed.

(** A row has at most one partner in a table with one row per key. *)
Lemma one_partner {A B : Type} `{Keyed A} `{Keyed B} (a : A) (r : list B) :
  NoDup (map key_of r) -> (List.length (filter (same_key a) r) <= 1)%nat.
Proof.
  intros Hnd.
  apply (filter_at_most_one key_of (same_key a) (event_date a, country a) r Hnd).
  intros b _ Hb. apply same_key_eq in Hb. destruct Hb as [Hd Hc].
  unfold key_of. now rewrite Hd, Hc.
Qed.

Lemma to_summarize_joined_keys (cl : client) (ds : dataset) (context_chars : nat) :
  NoDup (map key_of (daily_top_entities ds)) ->
  NoDup (map key_of (daily_analogs ds)) ->
  map key_of (to_summarize_joined cl ds context_chars) =
  map key_of (on_latest_day (daily_country_topics ds) (daily_country_topics ds)).
Proof.
  intros Hent Han. unfold to_summarize_joined. rewrite map_map.
  rewrite <- (left_join_fst same_key
                (on_latest_day (daily_country_topics ds) (daily_country_topics ds))
                (daily_top_entities ds)) at 2
    by (intros a _; now apply one_partner).
  rewrite <- (left_join_fst (fun l r => same_key (fst l) r)
                (left_join same_key
                   (on_latest_day (daily_country_topics ds) (daily_country_topics ds))
                   (daily_top_entities ds))
                (daily_analogs ds)) at 2
    by (intros a _; now apply (one_partner (fst a))).
  rewrite !map_map. apply map_ext. intros j. reflexivity.
Qed.

Lemma normalized_keys_NoDup (cl : client) (ds : dataset) (top_n context_chars : nat) :
  NoDup (map key_of (daily_country_topics ds)) ->
  NoDup (map key_of (daily_top_entities ds)) ->
  NoDup (map key_of (daily_analogs ds)) ->
  NoDup (map key_of (normalized cl ds top_n context_chars)).
Proof.
  intros Htop Hent Han. unfold normalized, to_summarize, limit.
  rewrite map_map.
  rewrite (map_ext (fun x => key_of (normalize cl x)) key_of) by reflexivity.
  apply NoDup_map_firstn. apply NoDup_map_order_by.
  rewrite to_summarize_joined_keys by assumption.
  now apply on_latest_day_keys_NoDup.
Qed.

Lemma length_normalized (cl : client) (ds : dataset) (top_n context_chars : nat) :
  (List.length (normalized cl ds top_n context_chars) <= top_n)%nat.
Proof. unfold normalized, to_summarize. rewrite length_map. apply length_limit. Qed.

(** With one row per key the join with the model's output pairs every
    prompt row with its own answer. *)
Lemma llm_own (cl : client) (ds : dataset) (top_n context_chars max_tokens : nat)
  (temp : Q) :
  NoDup (map key_of (normalized cl ds top_n context_chars)) ->
  llm cl ds top_n context_chars max_tokens temp =
  map (fun n => (n, generate_row cl (generation temp max_tokens) (briefing_prompt n)))
      (normalized cl ds top_n context_chars).
Proof.
  intros Hnd. unfold llm, ml_generate_text. cbv zeta. rewrite map_map.
  apply (inner_join_own key_of
           (fun n => generate_row cl (generation temp max_tokens) (briefing_prompt n))
           same_key _ Hnd).
  intros a b. rewrite same_key_eq, key_of_eq.
  split; intros [H1 H2]; split; first [exact H1 | exact H2].
Qed.

(** The key of a briefing, taken from the row of CTE [final]. *)
Definition final_key (f : final_row) : date * string := (f_event_date f, f_country f).

Lemma briefings_keys (cl : client) (ds : dataset) (top_n context_chars max_tokens : nat)
  (temp : Q) :
  map key_of
      (daily_briefings (create_daily_briefings cl ds top_n context_chars max_tokens temp)) =
  map final_key
      (filter (fun f => is_not_null (f_briefing_text f))
              (final cl ds top_n context_chars max_tokens temp)).
Proof.
  unfold create_daily_briefings. cbn [daily_briefings set_daily_briefings].
  rewrite map_map. apply map_ext. intros f. reflexivity.
Qed.

(** A briefing is under the key of an aggregate of the latest day. *)
Lemma briefing_row_latest (cl : client) (ds : dataset)
  (top_n context_chars max_tokens : nat) (temp : Q) (b : briefing_row) :
  In b (daily_briefings (create_daily_briefings cl ds top_n context_chars max_tokens temp)) ->
  (exists g, In g (daily_country_topics ds) /\
             event_date g = event_date b /\ country g = country b) /\
  (forall g, In g (daily_country_topics ds) -> (event_date g <= event_date b)%Z).
Proof.
  intros Hb.
  destruct (NarrativeGenerator.briefing_row_origin cl ds top_n context_chars max_tokens
              temp b Hb) as [_ [n [Hn [Hd [Hc _]]]]].
  unfold normalized, to_summarize in Hn. apply in_map_iff in Hn.
  destruct Hn as [s [<- Hs]]. apply in_limit, in_order_by in Hs.
  unfold to_summarize_joined in Hs. apply in_map_iff in Hs.
  destruct Hs as [[[dct ent] an] [<- Hj]].
  apply in_left_join in Hj. destruct Hj as [Hj _].
  apply in_left_join in Hj. destruct Hj as [Hj _].
  apply on_latest_day_spec in Hj. destruct Hj as [Hin [_ Hub]].
  change (event_date dct = event_date b) in Hd.
  change (country dct = country b) in Hc. split.
  - exists dct. auto.
  - intros g Hg. rewrite <- Hd. now apply Hub.
Qed.

Lemma briefings_one_per_key (cl : client) (ds : dataset)
  (top_n context_chars max_tokens : nat) (temp : Q) :
  NoDup (map key_of (daily_country_topics ds)) ->
  NoDup (map key_of (daily_top_entities ds)) ->
  NoDup (map key_of (daily_analogs ds)) ->
  NoDup (map key_of
           (daily_briefings
              (create_daily_briefings cl ds top_n context_chars max_tokens temp))) /\
  (List.length
     (daily_briefings (create_daily_briefings cl ds top_n context_chars max_tokens temp))
   <= top_n)%nat.
Proof.
  intros Htop Hent Han.
  pose proof (normalized_keys_NoDup cl ds top_n context_chars Htop Hent Han) as Hnd.
  split.
  - rewrite briefings_keys. apply NoDup_map_filter.
    unfold final. rewrite (llm_own cl ds top_n context_chars max_tokens temp Hnd).
    rewrite !map_map.
    rewrite (map_ext _ key_of) by reflexivity. exact Hnd.
  - unfold create_daily_briefings. cbn [daily_briefings set_daily_briefings].
    rewrite length_map.
    eapply Nat.le_trans; [apply filter_length_le |].
    unfold final. rewrite (llm_own cl ds top_n context_chars max_tokens temp Hnd).
    rewrite !length_map. apply length_normalized.
Qed.

(** X6. [create_daily_briefings] writes briefings of the latest day of
    [daily_country_topics] only, each with a text and under the key of an
    aggregate.  When the three tables it joins hold one row per
    (event_date, country), so does [daily_briefings], and it has at most
    [top_n] rows; an empty aggregate table gives an empty table. *)
Theorem briefings_are_of_the_latest_day_one_per_key :
  forall (cl : client) (ds : dataset) (top_n context_chars max_tokens : nat) (temp : Q),
    let out :=
      daily_briefings (create_daily_briefings cl ds top_n context_chars max_tokens temp) in
    (forall b, In b out ->
       briefing_text b <> None /\
       (exists g, In g (daily_country_topics ds) /\
                  event_date g = event_date b /\ country g = country b) /\
       (forall g, In g (daily_country_topics ds) -> (event_date g <= event_date b)%Z)) /\
    (NoDup (map key_of (daily_country_topics ds)) ->
     NoDup (map key_of (daily_top_entities ds)) ->
     NoDup (map key_of (daily_analogs ds)) ->
     NoDup (map key_of out) /\ (List.length out <= top_n)%nat) /\
    (daily_country_topics ds = [] -> out = []).
Proof.
  intros cl ds top_n cc max_tokens temp out.
  split; [| split].
  - intros b Hb.
    destruct (NarrativeGenerator.briefing_row_origin cl ds top_n cc max_tokens temp b Hb)
      as [Hnn _].
    split; [exact Hnn |].
    exact (briefing_row_latest cl ds top_n cc max_tokens temp b Hb).
  - apply briefings_one_per_key.
  - intros Hnil. unfold out, create_daily_briefings, final, llm, normalized,
      to_summarize, to_summarize_joined.
    cbn [daily_briefings set_daily_briefings]. rewrite Hnil.
    change (on_latest_day (@nil topic_row) (@nil topic_row)) with (@nil topic_row).
    cbn [left_join flat_map map]. rewrite order_by_nil.
    unfold limit. rewrite firstn_nil. reflexivity.
Qed.

Lemma briefings_are_of_the_latest_day_one_per_key_witness :
  let ds := Demo.week_searched in
  let out := daily_briefings (create_daily_briefings Demo.fifo_client ds 80 700 300 (2 # 10)) in
  List.length out = 3%nat /\
  NoDup (map key_of (daily_country_topics ds)) /\
  NoDup (map key_of (daily_top_entities ds)) /\
  NoDup (map key_of (daily_analogs ds)) /\
  NoDup (map key_of out) /\ (List.length out <= 80)%nat.
Proof.
  cbv zeta.
  assert (H1 : NoDup (map key_of (daily_country_topics Demo.week_searched))).
  { vm_compute. repeat constructor; simpl; intuition discriminate. }
  assert (H2 : NoDup (map key_of (daily_top_entities Demo.week_searched))).
  { vm_compute. repeat constructor; simpl; intuition discriminate. }
  assert (H3 : NoDup (map key_of (daily_analogs Demo.week_searched))).
  { vm_compute. repeat constructor; simpl; intuition discriminate. }
  split; [vm_compute; reflexivity |].
  split; [exact H1 |]. split; [exact H2 |]. split; [exact H3 |].
  exact (proj1 (proj2 (briefings_are_of_the_latest_day_one_per_key
                         Demo.fifo_client Demo.week_searched 80 700 300 (2 # 10)))
           H1 H2 H3).
Defined.

End KeysOfTheLatestDay.

(* ===================================================================== *)
(** ** Prompts, and the rows of the mood map *)
(* ===================================================================== *)

Module PromptsAndMoodRows.
Import Sql Json Schema Processing Analytics Analytics.Briefings Analytics.Moodmap.
Import Spec SqlFacts SchemaFacts TableFacts RoundingFacts MoodmapFacts KeysOfTheLatestDay.

Lemma briefing_prompt_null (n : normalized_row) :
  prompt (briefing_prompt n) = None <-> ctx n = None.
Proof.
  unfold briefing_prompt. cbn [prompt].
  destruct (ctx n) as [v |]; cbn [concat null_bind coalesce];
    split; intros H; first [discriminate H | reflexivity].
Qed.

Lemma strip_urls_substr_null (doc : option string) (n : nat) :
  strip_urls_substr doc n = None <-> doc = None.
Proof.
  destruct doc as [d |]; [| split; reflexivity].
  rewrite UrlPattern.strip_urls_substr_eq. split; discriminate.
Qed.

(** X7. A prompt is one [CONCAT], so it is NULL as soon as one of its
    parts is.  The briefing prompt is NULL exactly when the context [ctx]
    is, that is when the aggregate of the country has no [topic_doc]: the
    theme and people lists fall back to 'none', the context does not.  The
    sentiment prompt is NULL exactly when the briefing text is, which no
    row written by [create_daily_briefings] allows; the summary prompt is
    never NULL. *)
Theorem prompts_are_null_exactly_without_their_text :
  (forall n : normalized_row, prompt (briefing_prompt n) = None <-> ctx n = None) /\
  (forall (cl : client) (ds : dataset) (top_n context_chars : nat) (n : normalized_row),
     In n (normalized cl ds top_n context_chars) ->
     exists dct,
       In dct (daily_country_topics ds) /\
       event_date dct = event_date n /\ country dct = country n /\
       ctx n = strip_urls_substr (topic_doc dct) context_chars /\
       (prompt (briefing_prompt n) = None <-> topic_doc dct = None)) /\
  (forall j : joined_row, prompt (sentiment_prompt j) = None <-> j_briefing_text j = None) /\
  (forall (cl : client) (ds : dataset) (top_n context_chars max_tokens : nat) (temp : Q)
          (j : joined_row),
     In j (joined_data (create_daily_briefings cl ds top_n context_chars max_tokens temp)) ->
     prompt (sentiment_prompt j) <> None) /\
  (forall b : blended_row, prompt (summary_prompt b) <> None).
Proof.
  assert (Hsent : forall j : joined_row,
            prompt (sentiment_prompt j) = None <-> j_briefing_text j = None).
  { intros j. unfold sentiment_prompt. cbn [prompt].
    destruct (j_briefing_text j) as [v |]; cbn [concat null_bind];
      split; intros H; first [discriminate H | reflexivity]. }
  split; [exact briefing_prompt_null |]. split; [| split; [exact Hsent | split]].
  - intros cl ds top_n cc n Hn.
    unfold normalized, to_summarize in Hn. apply in_map_iff in Hn.
    destruct Hn as [s [<- Hs]]. apply in_limit, in_order_by in Hs.
    unfold to_summarize_joined in Hs. apply in_map_iff in Hs.
    destruct Hs as [[[dct ent] an] [<- Hj]].
    apply in_left_join in Hj. destruct Hj as [Hj _].
    apply in_left_join in Hj. destruct Hj as [Hj _].
    apply in_on_latest_day in Hj.
    exists dct. split; [exact Hj |]. split; [reflexivity |]. split; [reflexivity |].
    split; [reflexivity |].
    rewrite briefing_prompt_null.
    change (strip_urls_substr (topic_doc dct) cc = None <-> topic_doc dct = None).
    apply strip_urls_substr_null.
  - intros cl ds top_n cc max_tokens temp j Hj Hnull.
    apply Hsent in Hnull.
    destruct (joined_data_origin _ j Hj) as [[b [Hb [_ [_ Htxt]]]] _].
    destruct (NarrativeGenerator.briefing_row_origin cl ds top_n cc max_tokens temp b Hb)
      as [Hnn _].
    apply Hnn. now rewrite Htxt.
  - intros b. unfold summary_prompt. cbn [prompt concat null_bind]. discriminate.
Qed.

Lemma prompts_are_null_exactly_without_their_text_witness :
  let n := {| n_event_date := 10%Z; n_country := "A"%string; n_headline_count := 3;
              ctx := None; n_analogs_txt := "None"%string;
              n_themes_nice := "Inflation"%string; n_people_nice := "Jane Doe"%string |} in
  ctx n = None /\ prompt (briefing_prompt n) = None /\
  forall j,
    In j (joined_data (create_daily_briefings Demo.fifo_client Demo.week_searched
                         80 700 300 (2 # 10))) ->
    prompt (sentiment_prompt j) <> None.
Proof.
  cbv zeta. split; [reflexivity |]. split.
  - apply (proj1 prompts_are_null_exactly_without_their_text). reflexivity.
  - exact (proj1 (proj2 (proj2 (proj2 prompts_are_null_exactly_without_their_text)))
             Demo.fifo_client Demo.week_searched 80%nat 700%nat 300%nat (2 # 10)).
Defined.

(** *** The rows of [daily_moodmap] *)

(** The key of a blended row, and nothing else. *)
Definition key_only (d : date) (ctry : string) : blended_row :=
  {| b_event_date := d; b_country := ctry; b_mood_score := None;
     b_top_themes := []; b_briefing_text := None |}.

Lemma summary_prompt_key (b : blended_row) :
  summary_prompt b = summary_prompt (key_only (event_date b) (country b)).
Proof. reflexivity. Qed.

Lemma joined_row_fields (ds : dataset) (j : joined_row) :
  In j (joined_data ds) ->
  exists b,
    In b (on_latest_day (daily_briefings ds) (daily_briefings ds)) /\
    event_date b = event_date j /\ country b = country j /\
    j_briefing_text j = briefing_text b /\
    (j_top_themes j = [] \/
     exists ent, In ent (daily_top_entities ds) /\
                 event_date ent = event_date j /\ country ent = country j /\
                 j_top_themes j = top_themes ent).
Proof.
  unfold joined_data. intros Hin. apply in_map_iff in Hin.
  destruct Hin as [[[b og] oent] [<- Hin]].
  apply in_left_join in Hin. destruct Hin as [Hin Hent].
  apply in_left_join in Hin. destruct Hin as [Hb _].
  exists b. split; [exact Hb |]. split; [reflexivity |]. split; [reflexivity |].
  split; [reflexivity |].
  destruct oent as [ent |]; [right | left; reflexivity].
  destruct Hent as [Hent Hk]. apply same_key_eq in Hk. destruct Hk as [Hd Hc].
  exists ent. split; [exact Hent |]. split; [symmetry; exact Hd |].
  split; [symmetry; exact Hc | reflexivity].
Qed.

Lemma moodmap_row_fields (cl : client) (ds : dataset) (temp : Q) (max_tokens : nat)
  (r : moodmap_row) :
  In r (daily_moodmap (create_daily_moodmap cl ds temp max_tokens)) ->
  exists j,
    In j (joined_data ds) /\
    event_date j = event_date r /\ country j = country r /\
    dm_briefing_text r = j_briefing_text j /\
    dm_top_themes r = j_top_themes j /\
    summary_ref r =
      llm_result (gen_model cl (generation temp 60)
                    (summary_prompt (key_only (event_date r) (country r)))).
Proof.
  unfold create_daily_moodmap. cbn [daily_moodmap set_daily_moodmap]. intros Hin.
  apply filter_In in Hin. destruct Hin as [Hin _].
  unfold short_summary in Hin. apply in_map_iff in Hin.
  destruct Hin as [[b t] [<- Hin]].
  apply in_inner_join in Hin. destruct Hin as [Hb [Ht Hk]].
  unfold ml_generate_text in Ht. apply in_map_iff in Ht.
  destruct Ht as [i [<- Hi]]. apply in_map_iff in Hi. destruct Hi as [b' [<- Hb']].
  apply same_key_eq in Hk. destruct Hk as [Hd Hc].
  change (event_date b = event_date b') in Hd.
  change (country b = country b') in Hc.
  unfold blended_scores in Hb. apply in_map_iff in Hb. destruct Hb as [p [<- Hp]].
  unfold parsed_scores in Hp. apply in_map_iff in Hp. destruct Hp as [[j t'] [<- Hjt]].
  unfold llm_outputs in Hjt. apply in_inner_join in Hjt. destruct Hjt as [Hj _].
  exists j. split; [exact Hj |].
  split; [reflexivity |]. split; [reflexivity |].
  split; [reflexivity |]. split; [reflexivity |].
  cbn [summary_ref fst snd generate_row ml_generate_text_llm_result].
  rewrite (summary_prompt_key b'). rewrite <- Hd, <- Hc. reflexivity.
Qed.

Lemma joined_data_keys (ds : dataset) :
  NoDup (map key_of (daily_country_topics ds)) ->
  NoDup (map key_of (daily_top_entities ds)) ->
  map key_of (joined_data ds) =
  map key_of (on_latest_day (daily_briefings ds) (daily_briefings ds)).
Proof.
  intros Htop Hent. unfold joined_data. rewrite map_map.
  rewrite <- (left_join_fst same_key
                (on_latest_day (daily_briefings ds) (daily_briefings ds))
                (daily_country_topics ds)) at 2
    by (intros a _; now apply one_partner).
  rewrite <- (left_join_fst (fun l r => same_key (fst l) r)
                (left_join same_key
                   (on_latest_day (daily_briefings ds) (daily_briefings ds))
                   (daily_country_topics ds))
                (daily_top_entities ds)) at 2
    by (intros a _; now apply (one_partner (fst a))).
  rewrite !map_map. apply map_ext. intros j. reflexivity.
Qed.

Lemma llm_outputs_own (cl : client) (ds : dataset) (temp : Q) (max_tokens : nat) :
  NoDup (map key_of (joined_data ds)) ->
  llm_outputs cl ds temp max_tokens =
  map (fun j => (j, generate_row cl (generation temp max_tokens) (sentiment_prompt j)))
      (joined_data ds).
Proof.
  intros Hnd. unfold llm_outputs, ml_generate_text. rewrite map_map.
  apply (inner_join_own key_of
           (fun j => generate_row cl (generation temp max_tokens) (sentiment_prompt j))
           same_key _ Hnd).
  intros a b. rewrite same_key_eq, key_of_eq.
  split; intros [H1 H2]; split; first [exact H1 | exact H2].
Qed.

Lemma blended_scores_keys (cl : client) (ds : dataset) (temp : Q) (max_tokens : nat) :
  NoDup (map key_of (joined_data ds)) ->
  map key_of (blended_scores cl ds temp max_tokens) = map key_of (joined_data ds).
Proof.
  intros Hnd. unfold blended_scores, parsed_scores.
  rewrite (llm_outputs_own cl ds temp max_tokens Hnd).
  rewrite !map_map. apply map_ext. intros j. reflexivity.
Qed.

Lemma short_summary_keys (cl : client) (ds : dataset) (temp : Q) (max_tokens : nat) :
  NoDup (map key_of (joined_data ds)) ->
  map key_of (short_summary cl ds temp max_tokens) = map key_of (joined_data ds).
Proof.
  intros Hnd. unfold short_summary, ml_generate_text.
  assert (Hb : NoDup (map key_of (blended_scores cl ds temp max_tokens)))
    by (now rewrite blended_scores_keys).
  rewrite (map_map summary_prompt (generate_row cl (generation temp 60))).
  rewrite (inner_join_own key_of
             (fun b => generate_row cl (generation temp 60) (summary_prompt b))
             same_key _ Hb).
  - rewrite !map_map. rewrite <- (blended_scores_keys cl ds temp max_tokens Hnd).
    apply map_ext. intros b. reflexivity.
  - intros a b. rewrite same_key_eq, key_of_eq.
    split; intros [H1 H2]; split; first [exact H1 | exact H2].
Qed.

Lemma moodmap_one_per_key (cl : client) (ds : dataset) (temp : Q) (max_tokens : nat) :
  NoDup (map key_of (daily_briefings ds)) ->
  NoDup (map key_of (daily_country_topics ds)) ->
  NoDup (map key_of (daily_top_entities ds)) ->
  NoDup (map key_of (daily_moodmap (create_daily_moodmap cl ds temp max_tokens))) /\
  (List.length (daily_moodmap (create_daily_moodmap cl ds temp max_tokens))
   <= List.length (daily_briefings ds))%nat.
Proof.
  intros Hb Htop Hent.
  assert (Hj : NoDup (map key_of (joined_data ds))).
  { rewrite joined_data_keys by assumption. now apply on_latest_day_keys_NoDup. }
  unfold create_daily_moodmap. cbn [daily_moodmap set_daily_moodmap]. split.
  - apply NoDup_map_filter. now rewrite short_summary_keys.
  - eapply Nat.le_trans; [apply filter_length_le |].
    rewrite <- (length_map key_of), short_summary_keys, joined_data_keys, length_map
      by assumption.
    apply length_on_latest_day.
Qed.

(** A row of the mood map is under the key of a briefing of the latest
    day, and carries its text. *)
Lemma moodmap_row_briefing (cl : client) (ds : dataset) (temp : Q) (max_tokens : nat)
  (r : moodmap_row) :
  In r (daily_moodmap (create_daily_moodmap cl ds temp max_tokens)) ->
  (exists b, In b (daily_briefings ds) /\
             event_date b = event_date r /\ country b = country r /\
             dm_briefing_text r = briefing_text b) /\
  (forall b, In b (daily_briefings ds) -> (event_date b <= event_date r)%Z).
Proof.
  intros Hr.
  destruct (moodmap_row_fields cl ds temp max_tokens r Hr)
    as [j [Hj [Hd [Hc [Htxt _]]]]].
  destruct (joined_row_fields ds j Hj) as [b [Hb [Hbd [Hbc [Hbt _]]]]].
  apply on_latest_day_spec in Hb. destruct Hb as [Hbin [_ Hub]]. split.
  - exists b. split; [exact Hbin |].
    split; [congruence |]. split; [congruence | congruence].
  - intros b' Hb'. rewrite <- Hd, <- Hbd. now apply Hub.
Qed.

(** X8. Every row of [daily_moodmap] comes from a briefing of the latest
    day of [daily_briefings]: it has a score, it carries that briefing's
    text and the top themes of the entity row of its key (none when there
    is no such row), and its summary is what the model answers, with 60
    output tokens, to a prompt made of the country code alone: neither
    the briefing nor the score is part of it.  When the three tables the
    stage joins hold one row per (event_date, country), so does
    [daily_moodmap]; no briefings, no rows. *)
Theorem moodmap_rows_come_from_the_latest_briefings :
  forall (cl : client) (ds : dataset) (temp : Q) (max_tokens : nat),
    let out := daily_moodmap (create_daily_moodmap cl ds temp max_tokens) in
    (forall r, In r out ->
       mood_score r <> None /\
       (exists b, In b (daily_briefings ds) /\
                  event_date b = event_date r /\ country b = country r /\
                  dm_briefing_text r = briefing_text b) /\
       (forall b, In b (daily_briefings ds) -> (event_date b <= event_date r)%Z) /\
       (dm_top_themes r = [] \/
        exists ent, In ent (daily_top_entities ds) /\
                    event_date ent = event_date r /\ country ent = country r /\
                    dm_top_themes r = top_themes ent) /\
       summary_ref r =
         llm_result (gen_model cl (generation temp 60)
                       (summary_prompt (key_only (event_date r) (country r))))) /\
    (NoDup (map key_of (daily_briefings ds)) ->
     NoDup (map key_of (daily_country_topics ds)) ->
     NoDup (map key_of (daily_top_entities ds)) ->
     NoDup (map key_of out) /\
     (List.length out <= List.length (daily_briefings ds))%nat) /\
    (daily_briefings ds = [] -> out = []).
Proof.
  intros cl ds temp max_tokens out. split; [| split].
  - intros r Hr.
    destruct (moodmap_row_origin cl ds temp max_tokens r Hr)
      as [_ [_ [_ [_ [_ [_ [Hnn _]]]]]]].
    destruct (moodmap_row_fields cl ds temp max_tokens r Hr)
      as [j [Hj [Hd [Hc [Htxt [Hth Hsum]]]]]].
    destruct (joined_row_fields ds j Hj) as [b [_ [_ [_ [_ Hent]]]]].
    destruct (moodmap_row_briefing cl ds temp max_tokens r Hr) as [Hbrief Hlatest].
    split; [exact Hnn |]. split; [exact Hbrief |]. split; [exact Hlatest |].
    split; [| exact Hsum].
    destruct Hent as [Hnil | [ent [He [Hed [Hec Het]]]]].
    + left. congruence.
    + right. exists ent. split; [exact He |].
      split; [congruence |]. split; [congruence | congruence].
  - apply moodmap_one_per_key.
  - intros Hnil. unfold out, create_daily_moodmap, short_summary, blended_scores,
      parsed_scores, llm_outputs, joined_data.
    cbn [daily_moodmap set_daily_moodmap]. rewrite Hnil. reflexivity.
Qed.

Lemma moodmap_rows_come_from_the_latest_briefings_witness :
  let ds := Demo.week_briefed in
  let out := daily_moodmap Demo.week_mood in
  let r := hd (Build_moodmap_row 0%Z EmptyString None [] None None) out in
  In r out /\
  dm_briefing_text r = Some "Briefing for A"%string /\
  summary_ref r = Some "A quiet day."%string /\
  NoDup (map key_of out) /\ (List.length out <= 3)%nat /\
  summary_ref r =
    llm_result (gen_model Demo.fifo_client (generation (2 # 10) 60)
                  (summary_prompt (key_only (event_date r) (country r)))).
Proof.
  cbv zeta.
  assert (Hin : In (hd (Build_moodmap_row 0%Z EmptyString None [] None None)
                       (daily_moodmap Demo.week_mood))
                   (daily_moodmap Demo.week_mood)) by (vm_compute; auto).
  assert (H1 : NoDup (map key_of (daily_briefings Demo.week_briefed))).
  { vm_compute. repeat constructor; simpl; intuition discriminate. }
  assert (H2 : NoDup (map key_of (daily_country_topics Demo.week_briefed))).
  { vm_compute. repeat constructor; simpl; intuition discriminate. }
  assert (H3 : NoDup (map key_of (daily_top_entities Demo.week_briefed))).
  { vm_compute. repeat constructor; simpl; intuition discriminate. }
  pose proof (moodmap_rows_come_from_the_latest_briefings
                Demo.fifo_client Demo.week_briefed (2 # 10) 300%nat) as [Hrows [Hkeys _]].
  destruct (Hkeys H1 H2 H3) as [Hnd Hlen].
  destruct (Hrows _ Hin) as [_ [_ [_ [_ Hsum]]]].
  split; [exact Hin |]. split; [vm_compute; reflexivity |].
  split; [vm_compute; reflexivity |].
  split; [exact Hnd |]. split; [exact Hlen | exact Hsum].
Defined.

(** X9. The mood score is cut to four decimals and nothing else is done to
    it: ROUND gives the whole number of ten-thousandths nearest to the
    blend (s + a / 10) / 2, at most 0.00005 away, so every stored score is
    a whole number of ten-thousandths; there is no clamp, a blend of
    1.0001 or more is stored as a score above 1, one of -1.0001 or less as
    a score below -1. *)
Theorem mood_score_has_four_decimals_and_no_clamp :
  (forall s a : Q,
     exists z : Z,
       blend (Some s) (Some a) = Some (inject_Z z / 10000)%Q /\
       (Qabs (inject_Z z / 10000 - (s + a / 10) / 2) <= 1 # 20000)%Q) /\
  (forall (cl : client) (ds : dataset) (temp : Q) (max_tokens : nat) (r : moodmap_row),
     In r (daily_moodmap (create_daily_moodmap cl ds temp max_tokens)) ->
     exists z : Z, mood_score r = Some (inject_Z z / 10000)%Q) /\
  (forall s a m : Q,
     blend (Some s) (Some a) = Some m ->
     (1 + (1 # 10000) <= (s + a / 10) / 2)%Q -> (1 < m)%Q) /\
  (forall s a m : Q,
     blend (Some s) (Some a) = Some m ->
     ((s + a / 10) / 2 <= - 1 - (1 # 10000))%Q -> (m < - 1)%Q) /\
  (exists m, blend (Some 2.5%Q) (Some 5%Q) = Some m /\ (m == 1.5)%Q).
Proof.
  assert (Hnear : forall s a : Q,
     exists z : Z,
       blend (Some s) (Some a) = Some (inject_Z z / 10000)%Q /\
       (Qabs (inject_Z z / 10000 - (s + a / 10) / 2) <= 1 # 20000)%Q).
  { intros s a. exact (sql_round4_near ((s + a / 10) / 2)). }
  split; [exact Hnear |]. split; [| split; [| split]].
  - intros cl ds temp max_tokens r Hr.
    destruct (moodmap_row_origin cl ds temp max_tokens r Hr)
      as [j [j' [_ [_ [_ [_ [Hnn Hm]]]]]]].
    destruct (mood_score r) as [m |] eqn:Hscore; [| congruence].
    symmetry in Hm. destruct (blend_some _ _ m Hm) as [s [a [Hs [Ha _]]]].
    rewrite Hs, Ha in Hm. destruct (Hnear s a) as [z [Hz _]].
    exists z. rewrite <- Hm. exact Hz.
  - intros s a m Hm Hhigh. destruct (Hnear s a) as [z [Hz Hclose]].
    rewrite Hz in Hm. inversion Hm; subst.
    apply Qabs_Qle_condition in Hclose. lra.
  - intros s a m Hm Hlow. destruct (Hnear s a) as [z [Hz Hclose]].
    rewrite Hz in Hm. inversion Hm; subst.
    apply Qabs_Qle_condition in Hclose. lra.
  - eexists. split; [reflexivity | vm_compute; reflexivity].
Qed.

Lemma mood_score_has_four_decimals_and_no_clamp_witness :
  (exists m, blend (Some 2.5%Q) (Some 5%Q) = Some m /\ (1 < m)%Q) /\
  let r := hd (Build_moodmap_row 0%Z EmptyString None [] None None)
              (daily_moodmap Demo.week_mood) in
  exists z : Z, mood_score r = Some (inject_Z z / 10000)%Q.
Proof.
  split.
  - eexists. split; [reflexivity |].
    apply (proj1 (proj2 (proj2 mood_score_has_four_decimals_and_no_clamp))
             2.5%Q 5%Q _ eq_refl).
    vm_compute. discriminate.
  - cbv zeta.
    apply (proj1 (proj2 mood_score_has_four_decimals_and_no_clamp)
             Demo.fifo_client Demo.week_briefed (2 # 10) 300%nat).
    vm_compute. auto.
Defined.

(** X10. A briefing of a country-day whose aggregate has no [avg_tone], or
    that has no aggregate at all, gives no row of [daily_moodmap]: the
    blend of a sentiment with a NULL tone is NULL, and rows without a
    score are dropped. *)
Theorem a_country_without_tone_has_no_mood :
  forall (cl : client) (ds : dataset) (temp : Q) (max_tokens : nat)
         (d : date) (ctry : string),
    (forall g, In g (daily_country_topics ds) ->
               event_date g = d -> country g = ctry -> avg_tone g = None) ->
    (forall sentiment, blend sentiment None = None) /\
    (forall r, In r (daily_moodmap (create_daily_moodmap cl ds temp max_tokens)) ->
               ~ (event_date r = d /\ country r = ctry)).
Proof.
  intros cl ds temp max_tokens d ctry Hnone. split.
  - intros [s |]; reflexivity.
  - intros r Hr [Hd Hc].
    destruct (moodmap_row_origin cl ds temp max_tokens r Hr)
      as [j [j' [Hj [_ [[Hjd Hjc] [_ [Hnn Hm]]]]]]].
    destruct (mood_score r) as [m |] eqn:Hscore; [| congruence].
    symmetry in Hm. destruct (blend_some _ _ m Hm) as [s [a [_ [Ha _]]]].
    destruct (joined_data_origin ds j Hj) as [_ Htone].
    destruct (Htone a Ha) as [g [Hg [Hgd [Hgc Hga]]]].
    rewrite (Hnone g Hg) in Hga by congruence. discriminate.
Qed.

Lemma a_country_without_tone_has_no_mood_witness :
  let ds :=
    Aggregator.set_daily_country_topics Demo.week_briefed
      [ {| dct_event_date := 10%Z; dct_country := "A"%string; headline_count := 30;
           avg_tone := None; topic_doc := None |};
        Demo.topic 10%Z "B" 20 (-2) ] in
  (exists b, In b (daily_briefings ds) /\ event_date b = 10%Z /\ country b = "A"%string) /\
  List.length (daily_moodmap (create_daily_moodmap Demo.fifo_client ds (2 # 10) 300)) = 1%nat /\
  forall r, In r (daily_moodmap (create_daily_moodmap Demo.fifo_client ds (2 # 10) 300)) ->
            ~ (event_date r = 10%Z /\ country r = "A"%string).
Proof.
  cbv zeta. split; [| split].
  - exists {| db_event_date := 10%Z; db_country := "A"%string;
              briefing_text := Some "Briefing for A"%string |}.
    vm_compute. auto.
  - vm_compute. reflexivity.
  - apply (a_country_without_tone_has_no_mood Demo.fifo_client _ (2 # 10) 300%nat
             10%Z "A"%string).
    intros g [<- | [<- | []]] Hd Hc; [reflexivity |].
    vm_compute in Hc. discriminate Hc.
Defined.

End PromptsAndMoodRows.

(* ===================================================================== *)
(** ** More on the entity ranking *)
(* ===================================================================== *)

Module EntityCounts.
Import Sql Schema Processing Spec SqlFacts SchemaFacts TableFacts KeysOfTheLatestDay.

(** The tag rows one event contributes, for a choice of the tag. *)
Definition event_theme_rows (r : enriched_row) : list tag_row :=
  flat_map (fun t =>
    map (fun _ : string =>
           {| tr_event_date := event_date r; tr_country := country r;
              tr_tag := normalize_tag t |})
        (persons r))
    (themes r).

Lemma tag_rows_flat_map {A : Type} (col : exploded_row -> option string)
  (f : A -> list exploded_row) (l : list A) :
  tag_rows col (flat_map f l) = flat_map (fun x => tag_rows col (f x)) l.
Proof.
  unfold tag_rows. induction l as [| x l IH]; simpl; [reflexivity |].
  rewrite flat_map_app. f_equal. exact IH.
Qed.

Lemma theme_rows_eq (cl : client) (ds : dataset) :
  tag_rows theme (e cl ds) =
  flat_map event_theme_rows (filter (in_window cl) (gdelt_events_enriched ds)).
Proof.
  unfold e. rewrite tag_rows_flat_map. apply flat_map_ext. intros r.
  rewrite tag_rows_flat_map. unfold event_theme_rows. apply flat_map_ext. intros t.
  unfold tag_rows. induction (persons r) as [| p ps IH]; [reflexivity |].
  cbn [map flat_map]. rewrite IH. reflexivity.
Qed.

Lemma in_event_theme_rows (r : enriched_row) (tr : tag_row) :
  In tr (event_theme_rows r) <->
  persons r <> [] /\
  exists t, In t (themes r) /\
            tr = {| tr_event_date := event_date r; tr_country := country r;
                    tr_tag := normalize_tag t |}.
Proof.
  unfold event_theme_rows. rewrite in_flat_map. split.
  - intros [t [Ht Hin]]. apply in_map_iff in Hin. destruct Hin as [p [<- Hp]].
    split; [intros Hnil; rewrite Hnil in Hp; contradiction | eauto].
  - intros [Hne [t [Ht ->]]]. exists t. split; [exact Ht |].
    destruct (persons r) as [| p ps]; [congruence |]. now left.
Qed.

(** The theme rows of a key exist exactly when an event of the key in
    the window lists a theme and a person. *)
Lemma theme_rows_of_key (cl : client) (ds : dataset) (d : date) (ctry : string) :
  In (d, ctry) (map key_of (tag_rows theme (e cl ds))) <->
  exists ev,
    In ev (gdelt_events_enriched ds) /\ in_window cl ev = true /\
    event_date ev = d /\ country ev = ctry /\
    themes ev <> [] /\ persons ev <> [].
Proof.
  rewrite in_keys, theme_rows_eq. split.
  - intros [tr [Hin [Hd Hc]]]. apply in_flat_map in Hin.
    destruct Hin as [ev [Hev Htr]]. apply filter_In in Hev. destruct Hev as [Hev Hw].
    apply in_event_theme_rows in Htr. destruct Htr as [Hp [t [Ht ->]]].
    exists ev. repeat split; auto.
    intros Hnil. rewrite Hnil in Ht. contradiction.
  - intros [ev [Hev [Hw [Hd [Hc [Ht Hp]]]]]].
    destruct (themes ev) as [| t ts] eqn:Hthemes; [congruence |].
    exists {| tr_event_date := event_date ev; tr_country := country ev;
              tr_tag := normalize_tag t |}.
    split; [| split; assumption].
    apply in_flat_map. exists ev. split; [apply filter_In; auto |].
    apply in_event_theme_rows. split; [exact Hp |].
    exists t. split; [rewrite Hthemes; now left | reflexivity].
Qed.

Lemma count_tags_keys (rows : list tag_row) (k : date * string) :
  In k (map key_of (count_tags rows)) <-> In k (map key_of rows).
Proof.
  destruct k as [d ctry]. rewrite !in_keys. split.
  - intros [cr [Hcr [Hd Hc]]].
    destruct (EntityRanker.count_tags_row rows cr Hcr) as [tr [Htr [Hd' [Hc' _]]]].
    exists tr. split; [exact Htr |]. split; congruence.
  - intros [tr [Htr [Hd Hc]]].
    exists {| cr_event_date := event_date tr; cr_country := country tr;
              cr_tag := tr_tag tr;
              cr_c := List.length (filter (fun r => tag_row_eqb r tr) rows) |}.
    split; [| split; assumption].
    unfold count_tags, group_by. rewrite map_map. apply in_map_iff.
    exists tr. split; [reflexivity |].
    rewrite map_id. apply EntityRanker.in_distinct_complete;
      [apply EntityRanker.tag_row_eqb_eq | exact Htr].
Qed.

Lemma top10_keys (cl : client) (counts : list count_row) :
  map key_of (top10 cl counts) = distinct key_eqb (map key_of counts).
Proof.
  unfold top10. rewrite <- group_by_keys, map_map.
  apply map_ext. intros [[d ctry] g]. reflexivity.
Qed.

Lemma top_entities_keys (cl : client) (ds : dataset) :
  map key_of (top_entities cl ds) = distinct key_eqb (map key_of (theme_counts cl ds)).
Proof.
  unfold top_entities. rewrite map_map.
  rewrite <- (top10_keys cl (theme_counts cl ds)).
  fold (top_themes_cte cl ds).
  rewrite <- (left_join_fst same_key (top_themes_cte cl ds) (top_people_cte cl ds)) at 2.
  - rewrite map_map. apply map_ext. intros j. reflexivity.
  - intros a _. apply one_partner. unfold top_people_cte. rewrite top10_keys.
    apply distinct_NoDup. apply key_eqb_eq.
Qed.

(** X11. [create_daily_top_entities] writes one row per (event_date,
    country), and a country-day has a row exactly when one of its events
    of the last seven days lists at least one theme and at least one
    person: the statement pairs the themes of an event with its persons,
    so an event without persons adds no theme either. *)
Theorem top_entities_has_one_row_per_key_with_a_theme_and_a_person :
  forall (cl : client) (ds : dataset),
    let out := daily_top_entities (create_daily_top_entities cl ds) in
    NoDup (map key_of out) /\
    (forall (d : date) (ctry : string),
       (exists row, In row out /\ event_date row = d /\ country row = ctry) <->
       (exists ev,
          In ev (gdelt_events_enriched ds) /\
          (current_date cl - 7 <= event_date ev)%Z /\
          event_date ev = d /\ country ev = ctry /\
          themes ev <> [] /\ persons ev <> [])) /\
    (forall row, In row out -> top_themes row <> []) /\
    ((forall ev, In ev (gdelt_events_enriched ds) -> persons ev = []) -> out = []).
Proof.
  intros cl ds out.
  assert (Hout : out = top_entities cl ds) by reflexivity.
  assert (Hkeys : forall (d : date) (ctry : string),
       (exists row, In row out /\ event_date row = d /\ country row = ctry) <->
       (exists ev,
          In ev (gdelt_events_enriched ds) /\
          (current_date cl - 7 <= event_date ev)%Z /\
          event_date ev = d /\ country ev = ctry /\
          themes ev <> [] /\ persons ev <> [])).
  { intros d ctry. rewrite Hout, <- in_keys, top_entities_keys.
    rewrite (in_distinct_iff key_eqb _ _ key_eqb_eq).
    unfold theme_counts. rewrite count_tags_keys, theme_rows_of_key.
    split; intros [ev [Hev [Hw H]]]; exists ev; (split; [exact Hev |]);
      (split; [| exact H]); unfold in_window in *; now apply Z.leb_le. }
  split; [| split; [exact Hkeys | split]].
  - rewrite Hout, top_entities_keys. apply distinct_NoDup. apply key_eqb_eq.
  - intros row Hrow Hnil.
    destruct (EntityRanker.top_entities_rankings cl ds row Hrow) as [Hth _].
    rewrite Hth in Hnil. unfold ranking, limit in Hnil. apply map_eq_nil in Hnil.
    assert (Hk : In (event_date row, country row) (map key_of (top_entities cl ds)))
      by (apply (in_map key_of _ _ Hrow)).
    rewrite top_entities_keys in Hk. apply in_distinct in Hk. apply in_keys in Hk.
    destruct Hk as [cr [Hcr [Hd Hc]]].
    assert (Hin : In cr (order_by (engine cl) c_desc
                           (filter (has_key (event_date row) (country row))
                                   (theme_counts cl ds)))).
    { apply in_order_by. apply filter_In. split; [exact Hcr |]. now apply has_key_eq. }
    destruct (order_by (engine cl) c_desc
                (filter (has_key (event_date row) (country row)) (theme_counts cl ds)))
      as [| x l]; [contradiction | discriminate].
  - intros Hnone. destruct out as [| row rest] eqn:Hrows; [reflexivity |].
    exfalso.
    destruct (proj1 (Hkeys (event_date row) (country row))) as [ev [Hev [_ [_ [_ [_ Hp]]]]]].
    + exists row. split; [now left | auto].
    + apply Hp. now apply Hnone.
Qed.

Lemma top_entities_has_one_row_per_key_with_a_theme_and_a_person_witness :
  let no_person :=
    {| gdelt_events_enriched :=
         [ {| ge_event_date := 10%Z; ge_country := "A"%string;
              themes := [ "ECON_INFLATION,40"%string ]; persons := [] |} ];
       daily_country_topics := []; news_embeddings := [];
       today_for_analogs := []; daily_analogs_flat := []; daily_analogs := [];
       daily_top_entities := []; daily_briefings := []; daily_moodmap := [] |} in
  (forall ev, In ev (gdelt_events_enriched no_person) -> persons ev = []) /\
  daily_top_entities (create_daily_top_entities Demo.fifo_client no_person) = [] /\
  List.length (daily_top_entities (create_daily_top_entities Demo.fifo_client Demo.week))
    = 1%nat.
Proof.
  cbv zeta.
  match goal with
  | |- ?H /\ _ => assert (Hnone : H) by (intros ev [<- | []]; reflexivity)
  end.
  split; [exact Hnone |]. split; [| vm_compute; reflexivity].
  exact (proj2 (proj2 (proj2
           (top_entities_has_one_row_per_key_with_a_theme_and_a_person
              Demo.fifo_client _))) Hnone).
Defined.

(** *** What a count counts *)

(** The rows one event adds to the count of a tag under a key: none when
    the event has another key, else one per listing of the tag and per
    person. *)
Lemma event_theme_rows_count (r : enriched_row) (k : tag_row) :
  List.length (filter (fun x => tag_row_eqb x k) (event_theme_rows r)) =
  if has_key (event_date k) (country k) r then
    (count_occ string_dec (map normalize_tag (themes r)) (tr_tag k)
     * List.length (persons r))%nat
  else 0%nat.
Proof.
  unfold event_theme_rows. rewrite length_filter_flat_map.
  rewrite (map_ext _
             (fun t => if has_key (event_date k) (country k) r
                          && String.eqb (normalize_tag t) (tr_tag k)
                       then List.length (persons r) else 0%nat))
    by (intros t; exact (length_filter_const _ _ _)).
  destruct (has_key (event_date k) (country k) r) eqn:Hk; cbn [andb].
  - induction (themes r) as [| t ts IH]; [reflexivity |].
    cbn [map list_sum fold_right count_occ]. fold (list_sum
      (map (fun t0 => if String.eqb (normalize_tag t0) (tr_tag k)
                      then List.length (persons r) else 0%nat) ts)).
    rewrite IH.
    destruct (string_dec (normalize_tag t) (tr_tag k)) as [Heq | Hne].
    + rewrite (proj2 (String.eqb_eq _ _) Heq). lia.
    + rewrite (proj2 (String.eqb_neq _ _) Hne). lia.
  - apply list_sum_zero. intros t _. reflexivity.
Qed.

Lemma theme_count_value (cl : client) (ds : dataset) (cr : count_row) :
  In cr (theme_counts cl ds) ->
  cr_c cr =
    list_sum
      (map (fun ev =>
              (count_occ string_dec (map normalize_tag (themes ev)) (cr_tag cr)
               * List.length (persons ev))%nat)
           (filter (has_key (event_date cr) (country cr))
                   (filter (in_window cl) (gdelt_events_enriched ds)))).
Proof.
  intros Hcr. unfold theme_counts in Hcr.
  destruct (EntityRanker.count_tags_row _ cr Hcr) as [tr [_ [Hd [Hc [Ht Hcount]]]]].
  rewrite Hcount, theme_rows_eq, length_filter_flat_map.
  rewrite <- (list_sum_filter (has_key (event_date cr) (country cr))
                (fun ev =>
                   (count_occ string_dec (map normalize_tag (themes ev)) (cr_tag cr)
                    * List.length (persons ev))%nat)).
  f_equal. apply map_ext. intros ev.
  rewrite event_theme_rows_count, Hd, Hc, Ht. reflexivity.
Qed.

(** The tag rows one event contributes to [person_counts]. *)
Definition event_person_rows (r : enriched_row) : list tag_row :=
  flat_map (fun _ : string =>
    flat_map (fun p =>
      if keep_person (Some (normalize_tag p)) then
        [ {| tr_event_date := event_date r; tr_country := country r;
             tr_tag := normalize_tag p |} ]
      else [])
      (persons r))
    (themes r).

Lemma person_rows_eq (cl : client) (ds : dataset) :
  tag_rows person (clean_people cl ds) =
  flat_map event_person_rows (filter (in_window cl) (gdelt_events_enriched ds)).
Proof.
  unfold clean_people, e. rewrite filter_flat_map, tag_rows_flat_map.
  apply flat_map_ext. intros r.
  rewrite filter_flat_map, tag_rows_flat_map. unfold event_person_rows.
  apply flat_map_ext. intros t.
  unfold tag_rows. induction (persons r) as [| p ps IH]; [reflexivity |].
  cbn [map filter flat_map person].
  destruct (keep_person (Some (normalize_tag p))); cbn [flat_map person app];
    rewrite IH; reflexivity.
Qed.

Lemma event_person_rows_count (r : enriched_row) (k : tag_row) :
  keep_person (Some (tr_tag k)) = true ->
  List.length (filter (fun x => tag_row_eqb x k) (event_person_rows r)) =
  if has_key (event_date k) (country k) r then
    (count_occ string_dec (map normalize_tag (persons r)) (tr_tag k)
     * List.length (themes r))%nat
  else 0%nat.
Proof.
  intros Hkeep. unfold event_person_rows. rewrite length_filter_flat_map.
  assert (Hinner :
    List.length
      (filter (fun x => tag_row_eqb x k)
         (flat_map (fun p =>
            if keep_person (Some (normalize_tag p)) then
              [ {| tr_event_date := event_date r; tr_country := country r;
                   tr_tag := normalize_tag p |} ]
            else [])
            (persons r))) =
    if has_key (event_date k) (country k) r then
      count_occ string_dec (map normalize_tag (persons r)) (tr_tag k)
    else 0%nat).
  { assert (Hrow : forall p,
      tag_row_eqb {| tr_event_date := event_date r; tr_country := country r;
                     tr_tag := normalize_tag p |} k =
      has_key (event_date k) (country k) r && String.eqb (normalize_tag p) (tr_tag k))
      by reflexivity.
    induction (persons r) as [| p ps IH].
    - now destruct (has_key (event_date k) (country k) r).
    - cbn [flat_map map count_occ]. rewrite filter_app, length_app, IH.
      destruct (string_dec (normalize_tag p) (tr_tag k)) as [Heq | Hne].
      + assert (Hkp : keep_person (Some (normalize_tag p)) = true)
          by (rewrite Heq; exact Hkeep).
        rewrite Hkp. cbn [filter]. rewrite Hrow, (proj2 (String.eqb_eq _ _) Heq).
        destruct (has_key (event_date k) (country k) r); reflexivity.
      + destruct (keep_person (Some (normalize_tag p))); cbn [filter];
          [| now destruct (has_key (event_date k) (country k) r)].
        rewrite Hrow, (proj2 (String.eqb_neq _ _) Hne), andb_false_r.
        now destruct (has_key (event_date k) (country k) r). }
  rewrite (map_ext _ (fun _ => if has_key (event_date k) (country k) r
                               then count_occ string_dec
                                      (map normalize_tag (persons r)) (tr_tag k)
                               else 0%nat))
    by (intros t; exact Hinner).
  rewrite list_sum_const. now destruct (has_key (event_date k) (country k) r).
Qed.

Lemma person_count_value (cl : client) (ds : dataset) (cr : count_row) :
  In cr (person_counts cl ds) ->
  keep_person (Some (cr_tag cr)) = true /\
  cr_c cr =
    list_sum
      (map (fun ev =>
              (count_occ string_dec (map normalize_tag (persons ev)) (cr_tag cr)
               * List.length (themes ev))%nat)
           (filter (has_key (event_date cr) (country cr))
                   (filter (in_window cl) (gdelt_events_enriched ds)))).
Proof.
  intros Hcr. unfold person_counts in Hcr.
  destruct (EntityRanker.count_tags_row _ cr Hcr) as [tr [Htr [Hd [Hc [Ht Hcount]]]]].
  assert (Hkeep : keep_person (Some (tr_tag tr)) = true).
  { rewrite person_rows_eq in Htr. apply in_flat_map in Htr.
    destruct Htr as [ev [_ Htr]]. unfold event_person_rows in Htr.
    apply in_flat_map in Htr. destruct Htr as [t [_ Htr]].
    apply in_flat_map in Htr. destruct Htr as [p [_ Htr]].
    destruct (keep_person (Some (normalize_tag p))) eqn:Hk; [| contradiction].
    destruct Htr as [<- | []]. exact Hk. }
  split; [now rewrite <- Ht |].
  rewrite Hcount, person_rows_eq, length_filter_flat_map.
  rewrite <- (list_sum_filter (has_key (event_date cr) (country cr))
                (fun ev =>
                   (count_occ string_dec (map normalize_tag (persons ev)) (cr_tag cr)
                    * List.length (themes ev))%nat)).
  f_equal. apply map_ext. intros ev.
  rewrite (event_person_rows_count ev tr Hkeep), Hd, Hc, Ht. reflexivity.
Qed.

Lemma count_is_positive (rows : list tag_row) (cr : count_row) :
  In cr (count_tags rows) -> (1 <= cr_c cr)%nat.
Proof.
  intros Hcr.
  destruct (EntityRanker.count_tags_row _ cr Hcr) as [tr [Htr [_ [_ [_ Hcount]]]]].
  rewrite Hcount.
  assert (Hin : In tr (filter (fun r => tag_row_eqb r tr) rows)).
  { apply filter_In. split; [exact Htr |]. now apply EntityRanker.tag_row_eqb_eq. }
  destruct (filter (fun r => tag_row_eqb r tr) rows); [contradiction | simpl; lia].
Qed.

Lemma in_ranking_of_key (e : scan) (counts : list count_row) (d : date) (ctry : string)
  (x : tag_count) :
  In x (ranking e (filter (has_key d ctry) counts)) ->
  exists cr, In cr counts /\ event_date cr = d /\ country cr = ctry /\
             tag x = cr_tag cr /\ c x = cr_c cr.
Proof.
  unfold ranking. intros Hx. apply in_map_iff in Hx.
  destruct Hx as [cr [<- Hcr]]. apply in_limit, in_order_by in Hcr.
  apply filter_In in Hcr. destruct Hcr as [Hcr Hk]. apply has_key_eq in Hk.
  exists cr. tauto.
Qed.

(** X12. What a count counts.  The statement pairs every theme of an
    event with every person of the same event before it counts.  So the
    count [c] of a theme under a key is the sum, over the events of the key
    in the window, of the number of times the event lists the theme (after
    normalisation) times the number of persons the event lists; and the
    count of a person is the number of times the event lists the person
    times the number of themes the event lists.  No count is 0. *)
Theorem a_tag_is_counted_once_per_partner_in_its_event :
  forall (cl : client) (ds : dataset) (row : entities_row),
    In row (daily_top_entities (create_daily_top_entities cl ds)) ->
    let events :=
      filter (has_key (event_date row) (country row))
             (filter (in_window cl) (gdelt_events_enriched ds)) in
    (forall x, In x (top_themes row) ->
       c x =
         list_sum
           (map (fun ev =>
                   (count_occ string_dec (map normalize_tag (themes ev)) (tag x)
                    * List.length (persons ev))%nat) events) /\
       (1 <= c x)%nat) /\
    (forall x, In x (top_people row) ->
       c x =
         list_sum
           (map (fun ev =>
                   (count_occ string_dec (map normalize_tag (persons ev)) (tag x)
                    * List.length (themes ev))%nat) events) /\
       (1 <= c x)%nat).
Proof.
  intros cl ds row Hrow events.
  destruct (EntityRanker.top_entities_rankings cl ds row Hrow) as [Hth Hpe].
  split; intros x Hx.
  - rewrite Hth in Hx. apply in_ranking_of_key in Hx.
    destruct Hx as [cr [Hcr [Hd [Hc [Ht Hn]]]]]. rewrite Hn, Ht. split.
    + rewrite (theme_count_value cl ds cr Hcr), Hd, Hc. reflexivity.
    + exact (count_is_positive _ cr Hcr).
  - rewrite Hpe in Hx. apply in_ranking_of_key in Hx.
    destruct Hx as [cr [Hcr [Hd [Hc [Ht Hn]]]]]. rewrite Hn, Ht. split.
    + rewrite (proj2 (person_count_value cl ds cr Hcr)), Hd, Hc. reflexivity.
    + exact (count_is_positive _ cr Hcr).
Qed.

Lemma a_tag_is_counted_once_per_partner_in_its_event_witness :
  let out := daily_top_entities (create_daily_top_entities Demo.fifo_client Demo.week) in
  let row := hd (Build_entities_row 0%Z EmptyString [] []) out in
  let events :=
    filter (has_key (event_date row) (country row))
           (filter (in_window Demo.fifo_client) (gdelt_events_enriched Demo.week)) in
  In row out /\
  top_themes row = [ {| tag := "econ_inflation"%string; c := 5 |};
                     {| tag := "tax_fncact_president"%string; c := 3 |} ] /\
  top_people row = [ {| tag := "jane doe"%string; c := 3 |} ] /\
  (forall x, In x (top_themes row) ->
     c x =
       list_sum
         (map (fun ev =>
                 (count_occ string_dec (map normalize_tag (themes ev)) (tag x)
                  * List.length (persons ev))%nat) events) /\
     (1 <= c x)%nat).
Proof.
  cbv zeta.
  assert (Hrow :
    In (hd (Build_entities_row 0%Z EmptyString [] [])
          (daily_top_entities (create_daily_top_entities Demo.fifo_client Demo.week)))
       (daily_top_entities (create_daily_top_entities Demo.fifo_client Demo.week)))
    by (vm_compute; auto).
  split; [exact Hrow |]. split; [vm_compute; reflexivity |].
  split; [vm_compute; reflexivity |].
  exact (proj1 (a_tag_is_counted_once_per_partner_in_its_event
                  Demo.fifo_client Demo.week _ Hrow)).
Defined.

(** X13. A country-day whose persons are all dropped by the people filter
    (shorter than three characters, or a platform name) still has its row,
    with its themes and an empty people list: the people are joined to the
    themes by a LEFT JOIN. *)
Theorem a_row_without_kept_people_has_an_empty_people_list :
  forall (cl : client) (ds : dataset) (row : entities_row),
    In row (daily_top_entities (create_daily_top_entities cl ds)) ->
    (forall ev p,
       In ev (gdelt_events_enriched ds) ->
       event_date ev = event_date row -> country ev = country row ->
       In p (persons ev) -> keep_person (Some (normalize_tag p)) = false) ->
    top_people row = [] /\ top_themes row <> [].
Proof.
  intros cl ds row Hrow Hnone.
  destruct (EntityRanker.top_entities_rankings cl ds row Hrow) as [Hth Hpe].
  split.
  - destruct (top_people row) as [| x rest] eqn:Hpeople; [reflexivity |].
    exfalso.
    assert (Hx : In x (ranking (engine cl)
                         (filter (has_key (event_date row) (country row))
                                 (person_counts cl ds))))
      by (rewrite <- Hpe; now left).
    apply in_ranking_of_key in Hx. destruct Hx as [cr [Hcr [Hd [Hc _]]]].
    unfold person_counts in Hcr.
    destruct (EntityRanker.count_tags_row _ cr Hcr) as [tr [Htr [Hd' [Hc' _]]]].
    rewrite person_rows_eq in Htr. apply in_flat_map in Htr.
    destruct Htr as [ev [Hev Htr]]. apply filter_In in Hev. destruct Hev as [Hev _].
    unfold event_person_rows in Htr.
    apply in_flat_map in Htr. destruct Htr as [t [_ Htr]].
    apply in_flat_map in Htr. destruct Htr as [p [Hp Htr]].
    destruct (keep_person (Some (normalize_tag p))) eqn:Hk; [| contradiction].
    destruct Htr as [<- | []].
    change (event_date ev = event_date cr) in Hd'.
    change (country ev = country cr) in Hc'.
    rewrite (Hnone ev p Hev) in Hk by congruence. discriminate.
  - intros Hnil. rewrite Hth in Hnil. unfold ranking, limit in Hnil.
    apply map_eq_nil in Hnil.
    assert (Hk : In (event_date row, country row) (map key_of (top_entities cl ds)))
      by (apply (in_map key_of _ _ Hrow)).
    rewrite top_entities_keys in Hk. apply in_distinct in Hk. apply in_keys in Hk.
    destruct Hk as [cr [Hcr [Hd Hc]]].
    assert (Hin : In cr (order_by (engine cl) c_desc
                           (filter (has_key (event_date row) (country row))
                                   (theme_counts cl ds)))).
    { apply in_order_by. apply filter_In. split; [exact Hcr |]. now apply has_key_eq. }
    destruct (order_by (engine cl) c_desc
                (filter (has_key (event_date row) (country row)) (theme_counts cl ds)))
      as [| y l]; [contradiction | discriminate].
Qed.

Lemma a_row_without_kept_people_has_an_empty_people_list_witness :
  let noisy :=
    {| gdelt_events_enriched :=
         [ {| ge_event_date := 10%Z; ge_country := "A"%string;
              themes := [ "ECON_INFLATION,40"%string ];
              persons := [ "Al"%string; "Twitter,33"%string ] |} ];
       daily_country_topics := []; news_embeddings := [];
       today_for_analogs := []; daily_analogs_flat := []; daily_analogs := [];
       daily_top_entities := []; daily_briefings := []; daily_moodmap := [] |} in
  let out := daily_top_entities (create_daily_top_entities Demo.fifo_client noisy) in
  let row := hd (Build_entities_row 0%Z EmptyString [] []) out in
  In row out /\
  top_themes row = [ {| tag := "econ_inflation"%string; c := 2 |} ] /\
  top_people row = [].
Proof.
  cbv zeta.
  match goal with
  | |- In ?r ?o /\ _ => assert (Hrow : In r o) by (vm_compute; auto)
  end.
  split; [exact Hrow |]. split; [vm_compute; reflexivity |].
  refine (proj1 (a_row_without_kept_people_has_an_empty_people_list
                   Demo.fifo_client _ _ Hrow _)).
  intros ev p [<- | []] _ _ [<- | [<- | []]]; vm_compute; reflexivity.
Defined.

End EntityCounts.

Module EntityLabels.
Import Sql Schema Processing Spec SqlFacts SchemaFacts TableFacts EntityCounts.

Lemma first_segment_no_comma (t : text) : ~ In ","%char (first_segment t).
Proof.
  induction t as [| ch t IH]; simpl; [tauto |].
  destruct (Ascii.eqb ch ","%char) eqn:Hc; simpl; [tauto |].
  intros [H | H]; [| now apply IH].
  apply Ascii.eqb_neq in Hc. congruence.
Qed.

Lemma first_segment_fixed (t : text) : ~ In ","%char t -> first_segment t = t.
Proof.
  induction t as [| ch t IH]; simpl; intros Hno; [reflexivity |].
  destruct (Ascii.eqb ch ","%char) eqn:Hc.
  - apply Ascii.eqb_eq in Hc. exfalso. apply Hno. now left.
  - f_equal. apply IH. intros H. apply Hno. now right.
Qed.

Lemma normalize_tag_chars (raw : string) :
  chars (normalize_tag raw) = lower_text (first_segment (chars raw)).
Proof.
  unfold normalize_tag, lower, split_offset0.
  now rewrite !UrlPattern.chars_str.
Qed.

Lemma normalize_tag_shape (raw : string) :
  Forall (fun ch => is_upper ch = false /\ ch <> ","%char) (chars (normalize_tag raw)).
Proof.
  rewrite normalize_tag_chars. apply Forall_forall. intros ch Hch.
  destruct (TextFacts.lower_text_bytes _ ch Hch) as [Hup Hcomma].
  split; [exact Hup |].
  intros E. exact (first_segment_no_comma _ (Hcomma E)).
Qed.

Lemma normalize_tag_idempotent (raw : string) :
  normalize_tag (normalize_tag raw) = normalize_tag raw.
Proof.
  pose proof (normalize_tag_shape raw) as Hshape.
  unfold normalize_tag at 1.
  assert (Hseg : split_offset0 (normalize_tag raw) = normalize_tag raw).
  { unfold split_offset0. rewrite first_segment_fixed.
    - apply UrlPattern.str_chars.
    - intros Hin. rewrite Forall_forall in Hshape.
      destruct (Hshape _ Hin) as [_ Hne]. now apply Hne. }
  rewrite Hseg. unfold normalize_tag. apply TextFacts.lower_idempotent.
Qed.

(** X14. A label of [top_themes] or [top_people] is the raw tag of an
    event of the row's key in the window, cut at its first comma and
    lower-cased ([LOWER(SPLIT(t, ',')[OFFSET(0)])]), character by
    character, accented capitals included: it holds no comma and no
    capital ASCII letter, it has as many characters as the first comma
    segment of the tag, and normalising it once more changes nothing. *)
Theorem labels_are_lower_case_and_hold_no_comma :
  (forall raw : string,
     Forall (fun ch => is_upper ch = false /\ ch <> ","%char) (chars (normalize_tag raw)) /\
     sql_length (normalize_tag raw) = sql_length (split_offset0 raw) /\
     normalize_tag (normalize_tag raw) = normalize_tag raw) /\
  (normalize_tag "TAX_FNCACT_PRESIDENT,12" = "tax_fncact_president"%string /\
   normalize_tag "ÉCONOMIE,7" = "économie"%string /\
   normalize_tag "JOSÉ ÁNGEL,3" = "josé ángel"%string) /\
  (forall (cl : client) (ds : dataset) (row : entities_row) (x : tag_count),
     In row (daily_top_entities (create_daily_top_entities cl ds)) ->
     (In x (top_themes row) ->
      exists ev raw,
        In ev (gdelt_events_enriched ds) /\ in_window cl ev = true /\
        event_date ev = event_date row /\ country ev = country row /\
        In raw (themes ev) /\ tag x = normalize_tag raw) /\
     (In x (top_people row) ->
      exists ev raw,
        In ev (gdelt_events_enriched ds) /\ in_window cl ev = true /\
        event_date ev = event_date row /\ country ev = country row /\
        In raw (persons ev) /\ tag x = normalize_tag raw)).
Proof.
  split; [| split; [repeat split; vm_compute; reflexivity |]].
  - intros raw. split; [apply normalize_tag_shape |].
    split; [apply TextFacts.length_lower | apply normalize_tag_idempotent].
  - intros cl ds row x Hrow.
    destruct (EntityRanker.top_entities_rankings cl ds row Hrow) as [Hth Hpe].
    split; intros Hx.
    + rewrite Hth in Hx. apply in_ranking_of_key in Hx.
      destruct Hx as [cr [Hcr [Hd [Hc [Ht _]]]]]. unfold theme_counts in Hcr.
      destruct (EntityRanker.count_tags_row _ cr Hcr) as [tr [Htr [Hd' [Hc' [Ht' _]]]]].
      rewrite theme_rows_eq in Htr. apply in_flat_map in Htr.
      destruct Htr as [ev [Hev Htr]]. apply filter_In in Hev. destruct Hev as [Hev Hw].
      apply in_event_theme_rows in Htr. destruct Htr as [_ [raw [Hraw ->]]].
      change (event_date ev = event_date cr) in Hd'.
      change (country ev = country cr) in Hc'.
      change (normalize_tag raw = cr_tag cr) in Ht'.
      exists ev, raw. repeat split; try assumption; congruence.
    + rewrite Hpe in Hx. apply in_ranking_of_key in Hx.
      destruct Hx as [cr [Hcr [Hd [Hc [Ht _]]]]]. unfold person_counts in Hcr.
      destruct (EntityRanker.count_tags_row _ cr Hcr) as [tr [Htr [Hd' [Hc' [Ht' _]]]]].
      rewrite person_rows_eq in Htr. apply in_flat_map in Htr.
      destruct Htr as [ev [Hev Htr]]. apply filter_In in Hev. destruct Hev as [Hev Hw].
      unfold event_person_rows in Htr.
      apply in_flat_map in Htr. destruct Htr as [t [_ Htr]].
      apply in_flat_map in Htr. destruct Htr as [raw [Hraw Htr]].
      destruct (keep_person (Some (normalize_tag raw))); [| contradiction].
      destruct Htr as [<- | []].
      change (event_date ev = event_date cr) in Hd'.
      change (country ev = country cr) in Hc'.
      change (normalize_tag raw = cr_tag cr) in Ht'.
      exists ev, raw. repeat split; try assumption; congruence.
Qed.

Lemma labels_are_lower_case_and_hold_no_comma_witness :
  let out := daily_top_entities
               (create_daily_top_entities Demo.fifo_client Demo.accented) in
  let row := hd (Build_entities_row 0%Z EmptyString [] []) out in
  let x := hd (Build_tag_count EmptyString 0) (top_people row) in
  let y := hd (Build_tag_count EmptyString 0) (top_themes row) in
  In row out /\ In x (top_people row) /\ tag x = "josé ángel"%string /\
  tag y = "économie"%string /\
  (exists ev raw,
     In ev (gdelt_events_enriched Demo.accented) /\ in_window Demo.fifo_client ev = true /\
     event_date ev = event_date row /\ country ev = country row /\
     In raw (persons ev) /\ tag x = normalize_tag raw) /\
  (exists ev raw,
     In ev (gdelt_events_enriched Demo.accented) /\ in_window Demo.fifo_client ev = true /\
     event_date ev = event_date row /\ country ev = country row /\
     In raw (themes ev) /\ tag y = normalize_tag raw).
Proof.
  intros out row x y.
  assert (Hrow : In row out) by (vm_compute; left; reflexivity).
  assert (Hx : In x (top_people row)) by (vm_compute; left; reflexivity).
  assert (Hy : In y (top_themes row)) by (vm_compute; left; reflexivity).
  split; [exact Hrow |]. split; [exact Hx |]. split; [vm_compute; reflexivity |].
  split; [vm_compute; reflexivity |]. split.
  - exact (proj2 (proj2 (proj2 labels_are_lower_case_and_hold_no_comma)
                    Demo.fifo_client Demo.accented _ _ Hrow) Hx).
  - exact (proj1 (proj2 (proj2 labels_are_lower_case_and_hold_no_comma)
                    Demo.fifo_client Demo.accented _ _ Hrow) Hy).
Defined.

End EntityLabels.

(* ===================================================================== *)
(** ** The aggregation and the embedding of the aggregates *)
(* ===================================================================== *)

Module DemoEvents.
Import Sql Schema Aggregator.
Open Scope string_scope.
Open Scope Z_scope.

Definition event (d : date) (ctry : option string) (code : option string)
  (t : option Q) (u : option string) : raw_event :=
  {| raw_event_date := d; raw_country := ctry; EventRootCode := code;
     tone := t; url := u |}.

(** Day 10 is today.  Country A has three events on day 10, one of them
    without tone and URL; B has one event without tone; one event has no
    country and one is older than seven days. *)
Definition events : list raw_event :=
  [ event 10 (Some "A") (Some "14") (Some (-4)%Q) (Some "https://a.example/1");
    event 10 (Some "A") (Some "04") (Some 1%Q) (Some "https://a.example/2");
    event 10 (Some "A") (Some "14") None None;
    event 10 (Some "B") (Some "01") None (Some "https://b.example/1");
    event 10 None (Some "02") (Some 2%Q) (Some "https://c.example/1");
    event 2 (Some "A") (Some "19") (Some (-9)%Q) (Some "https://a.example/0") ].

(** A FLOAT64 written as the integer of its hundredths, for the toy
    client. *)
Definition hundredths (x : Q) : string :=
  let z := Qfloor (x * 100) in
  (if (z <? 0)%Z then "-" else "") ++
  NilZero.string_of_uint (N.to_uint (Z.to_N (Z.abs z))) ++ "e-2".


Definition aggregated : dataset :=
  create_daily_country_topics Demo.fifo_client hundredths events Demo.empty_dataset.


End DemoEvents.

Module AggregatorFacts.
Import Sql Schema Processing Aggregator SqlFacts SchemaFacts TableFacts.

(** A raw event counts for (d, ctry): it names the country and lies in
    the seven-day window; its URL plays no part. *)
Definition counted (cl : client) (d : date) (ctry : string) (ev : raw_event) : bool :=
  match raw_country ev with
  | Some x => String.eqb x ctry
  | None => false
  end
  && (raw_event_date ev =? d)%Z
  && (current_date cl - 7 <=? raw_event_date ev)%Z.

(** The kept events of a key. *)
Definition events_of (cl : client) (events : list raw_event) (d : date) (ctry : string)
  : list kept_event :=
  filter (has_key d ctry) (kept cl events).

Lemma in_kept (cl : client) (events : list raw_event) (k : kept_event) :
  In k (kept cl events) <->
  exists ev,
    In ev events /\ raw_country ev = Some (country k) /\
    raw_event_date ev = event_date k /\
    (current_date cl - 7 <= event_date k)%Z /\
    ke_code k = EventRootCode ev /\ ke_tone k = tone ev /\ ke_url k = url ev.
Proof.
  unfold kept. rewrite in_flat_map. split.
  - intros [ev [Hev Hk]]. exists ev.
    destruct (raw_country ev) as [ctry |] eqn:Hc; [| contradiction].
    destruct (current_date cl - 7 <=? raw_event_date ev)%Z eqn:Hw; [| contradiction].
    destruct Hk as [<- | []]. apply Z.leb_le in Hw. cbn. tauto.
  - intros [ev [Hev [Hc [Hd [Hw [H1 [H2 H3]]]]]]]. exists ev. split; [exact Hev |].
    rewrite Hc. rewrite <- Hd in Hw. apply Z.leb_le in Hw. rewrite Hw. left.
    destruct k as [d ctry code t u]. cbn in *. congruence.
Qed.

Lemma country_day_keys (cl : client) (events : list raw_event) :
  map key_of (country_day cl events) = distinct key_eqb (map key_of (kept cl events)).
Proof.
  unfold country_day. rewrite <- group_by_keys, map_map.
  apply map_ext. intros [[d ctry] g]. reflexivity.
Qed.

Lemma country_day_row_origin (cl : client) (events : list raw_event) (r : country_day_row) :
  In r (country_day cl events) ->
  let mine := events_of cl events (event_date r) (country r) in
  cd_headline_count r = List.length mine /\
  cd_avg_tone r = sql_avg (map ke_tone mine) /\
  cd_min_tone r = sql_min (map ke_tone mine) /\
  cd_max_tone r = sql_max (map ke_tone mine) /\
  cd_top_event_types r = array_agg_distinct (engine cl) 20 (map ke_code mine) /\
  cd_sample_urls r = array_agg_distinct (engine cl) 30 (map ke_url mine) /\
  exists k, In k mine.
Proof.
  unfold country_day. intros Hin. apply in_map_iff in Hin.
  destruct Hin as [[[d ctry] g] [<- Hg]]. cbv zeta.
  apply in_group_by in Hg. destruct Hg as [-> Hk].
  repeat (split; [reflexivity |]).
  apply in_map_iff in Hk. destruct Hk as [k [Hkey Hk]]. exists k.
  unfold events_of. apply filter_In. split; [exact Hk |].
  inversion Hkey; subst. apply has_key_eq. split; reflexivity.
Qed.

Lemma in_omit_nulls {A : Type} (l : list (option A)) (x : A) :
  In x (omit_nulls l) <-> In (Some x) l.
Proof.
  induction l as [| [v |] l IH]; simpl; [tauto | |].
  - rewrite IH. split; intros [H | H]; auto; left; congruence.
  - rewrite IH. split; [auto | intros [H | H]; [discriminate | exact H]].
Qed.

(** *** MIN, MAX and AVG *)

Lemma least_spec (a b : Q) :
  (least a b = a \/ least a b = b) /\ (least a b <= a)%Q /\ (least a b <= b)%Q.
Proof.
  unfold least. destruct (Qle_bool a b) eqn:Hab.
  - apply Qle_bool_iff in Hab. split; [now left |]. split; [apply Qle_refl | exact Hab].
  - assert (Hba : (b < a)%Q).
    { apply Qnot_le_lt. intros H. apply Qle_bool_iff in H. congruence. }
    split; [now right |]. split; [now apply Qlt_le_weak | apply Qle_refl].
Qed.

Lemma greatest_spec (a b : Q) :
  (greatest a b = a \/ greatest a b = b) /\ (a <= greatest a b)%Q /\ (b <= greatest a b)%Q.
Proof.
  unfold greatest. destruct (Qle_bool a b) eqn:Hab.
  - apply Qle_bool_iff in Hab. split; [now right |]. split; [exact Hab | apply Qle_refl].
  - assert (Hba : (b < a)%Q).
    { apply Qnot_le_lt. intros H. apply Qle_bool_iff in H. congruence. }
    split; [now left |]. split; [apply Qle_refl | now apply Qlt_le_weak].
Qed.

Lemma fold_least_spec (vs : list Q) (v : Q) :
  In (fold_left least vs v) (v :: vs) /\
  forall x, In x (v :: vs) -> (fold_left least vs v <= x)%Q.
Proof.
  revert v. induction vs as [| y vs IH]; intros v; cbn [fold_left].
  - split; [now left |]. intros x [<- | []]. apply Qle_refl.
  - destruct (IH (least v y)) as [Hin Hle].
    destruct (least_spec v y) as [Hor [Hv Hy]]. split.
    + destruct Hin as [Hin | Hin]; [| now right; right].
      rewrite <- Hin. destruct Hor as [-> | ->]; [now left | now right; left].
    + assert (Hm : (fold_left least vs (least v y) <= least v y)%Q)
        by (apply Hle; now left).
      intros x [<- | [<- | Hx]].
      * eapply Qle_trans; eauto.
      * eapply Qle_trans; eauto.
      * apply Hle. now right.
Qed.

Lemma fold_greatest_spec (vs : list Q) (v : Q) :
  In (fold_left greatest vs v) (v :: vs) /\
  forall x, In x (v :: vs) -> (x <= fold_left greatest vs v)%Q.
Proof.
  revert v. induction vs as [| y vs IH]; intros v; cbn [fold_left].
  - split; [now left |]. intros x [<- | []]. apply Qle_refl.
  - destruct (IH (greatest v y)) as [Hin Hle].
    destruct (greatest_spec v y) as [Hor [Hv Hy]]. split.
    + destruct Hin as [Hin | Hin]; [| now right; right].
      rewrite <- Hin. destruct Hor as [-> | ->]; [now left | now right; left].
    + assert (Hm : (greatest v y <= fold_left greatest vs (greatest v y))%Q)
        by (apply Hle; now left).
      intros x [<- | [<- | Hx]].
      * eapply Qle_trans; eauto.
      * eapply Qle_trans; eauto.
      * apply Hle. now right.
Qed.

Lemma tone_statistics (col : list (option float64)) :
  match omit_nulls col with
  | [] => sql_avg col = None /\ sql_min col = None /\ sql_max col = None
  | v :: vs =>
      exists avg lo hi,
        sql_avg col = Some avg /\ sql_min col = Some lo /\ sql_max col = Some hi /\
        In lo (v :: vs) /\ In hi (v :: vs) /\
        (forall x, In x (v :: vs) -> lo <= x /\ x <= hi)%Q
  end.
Proof.
  unfold sql_avg, sql_min, sql_max.
  destruct (omit_nulls col) as [| v vs]; [repeat split |].
  destruct (fold_least_spec vs v) as [Hlo_in Hlo].
  destruct (fold_greatest_spec vs v) as [Hhi_in Hhi].
  eexists _, _, _. split; [reflexivity |]. split; [reflexivity |]. split; [reflexivity |].
  split; [exact Hlo_in |]. split; [exact Hhi_in |].
  intros x Hx; split; [now apply Hlo | now apply Hhi].
Qed.

(** X15. The tone statistics of a country-day.  [AVG], [MIN] and [MAX]
    skip the events without a tone: the three are NULL together, exactly
    when no event of the key has a tone; otherwise none of them is NULL,
    [min_tone] and [max_tone] are tones of events of the key, and every
    tone of the key lies between them.  (Nothing is said of the value of
    [avg_tone]: the sum behind it is rounded by the engine.) *)
Theorem tone_statistics_of_a_country_day :
  forall (cl : client) (events : list raw_event) (r : country_day_row),
    In r (country_day cl events) ->
    let tones :=
      omit_nulls (map ke_tone (events_of cl events (event_date r) (country r))) in
    (tones = [] ->
     cd_avg_tone r = None /\ cd_min_tone r = None /\ cd_max_tone r = None) /\
    (tones <> [] ->
     exists avg lo hi,
       cd_avg_tone r = Some avg /\ cd_min_tone r = Some lo /\ cd_max_tone r = Some hi /\
       In lo tones /\ In hi tones /\
       (forall x, In x tones -> lo <= x /\ x <= hi)%Q).
Proof.
  intros cl events r Hr tones.
  destruct (country_day_row_origin cl events r Hr) as [_ [Havg [Hmin [Hmax _]]]].
  rewrite Havg, Hmin, Hmax.
  pose proof (tone_statistics
                (map ke_tone (events_of cl events (event_date r) (country r)))) as H.
  fold tones in H. split.
  - intros Hnil. rewrite Hnil in H. exact H.
  - intros Hne. destruct tones as [| v vs]; [congruence | exact H].
Qed.

Lemma tone_statistics_of_a_country_day_witness :
  let r := hd (Build_country_day_row 0%Z EmptyString 0 None None None None None)
              (country_day Demo.fifo_client DemoEvents.events) in
  In r (country_day Demo.fifo_client DemoEvents.events) /\
  (event_date r = 10%Z /\ country r = "A"%string /\ cd_headline_count r = 3%nat) /\
  exists avg lo hi,
    cd_avg_tone r = Some avg /\ cd_min_tone r = Some lo /\ cd_max_tone r = Some hi /\
    (lo == -4)%Q /\ (hi == 1)%Q /\
    (forall x,
       In x (omit_nulls
               (map ke_tone (events_of Demo.fifo_client DemoEvents.events 10%Z "A"))) ->
       lo <= x /\ x <= hi)%Q.
Proof.
  cbv zeta.
  match goal with
  | |- In ?x ?l /\ _ => assert (Hr : In x l) by (vm_compute; auto)
  end.
  split; [exact Hr |]. split; [vm_compute; auto |].
  destruct (proj2 (tone_statistics_of_a_country_day Demo.fifo_client DemoEvents.events _ Hr))
    as [avg [lo [hi [Havg [Hmin [Hmax [_ [_ Hbetween]]]]]]]].
  { vm_compute. discriminate. }
  exists avg, lo, hi.
  split; [exact Havg |]. split; [exact Hmin |]. split; [exact Hmax |].
  vm_compute in Havg, Hmin, Hmax.
  inversion Havg; inversion Hmin; inversion Hmax; subst.
  split; [reflexivity |]. split; [reflexivity | exact Hbetween].
Defined.

(** *** Groups *)

Lemma kept_count (cl : client) (events : list raw_event) (d : date) (ctry : string) :
  List.length (events_of cl events d ctry) = List.length (filter (counted cl d ctry) events).
Proof.
  unfold events_of, kept. rewrite length_filter_flat_map.
  rewrite <- (Nat.mul_1_l (List.length (filter (counted cl d ctry) events))).
  rewrite <- list_sum_const, <- list_sum_filter.
  f_equal. apply map_ext. intros ev. unfold counted.
  destruct (raw_country ev) as [x |]; [| reflexivity].
  destruct (current_date cl - 7 <=? raw_event_date ev)%Z;
    [| now rewrite andb_false_r].
  cbn [filter]. rewrite andb_true_r, andb_comm.
  match goal with
  | |- context [has_key d ctry ?k] =>
      change (has_key d ctry k) with ((raw_event_date ev =? d)%Z && String.eqb x ctry)
  end.
  now destruct ((raw_event_date ev =? d)%Z && String.eqb x ctry).
Qed.

Lemma counted_spec (cl : client) (d : date) (ctry : string) (ev : raw_event) :
  counted cl d ctry ev = true <->
  raw_country ev = Some ctry /\ raw_event_date ev = d /\
  (current_date cl - 7 <= raw_event_date ev)%Z.
Proof.
  unfold counted. rewrite !andb_true_iff, Z.eqb_eq, Z.leb_le.
  destruct (raw_country ev) as [x |].
  - rewrite String.eqb_eq. split; [intros [[-> Hd] Hw]; auto | intros [Hx [Hd Hw]]].
    inversion Hx. auto.
  - split; [intros [[H _] _]; discriminate | intros [H _]; discriminate].
Qed.

Lemma topics_keys (cl : client) (cast_float64_as_string : float64 -> string)
  (events : list raw_event) (ds : dataset) :
  map key_of
      (daily_country_topics
         (create_daily_country_topics cl cast_float64_as_string events ds)) =
  distinct key_eqb (map key_of (kept cl events)).
Proof.
  unfold create_daily_country_topics.
  cbn [daily_country_topics set_daily_country_topics].
  rewrite map_map, <- country_day_keys. apply map_ext. intros r. reflexivity.
Qed.

Lemma topics_cover (cl : client) (cast_float64_as_string : float64 -> string)
  (events : list raw_event) (ds : dataset) (d : date) (ctry : string) :
  (exists g,
     In g (daily_country_topics
             (create_daily_country_topics cl cast_float64_as_string events ds)) /\
     event_date g = d /\ country g = ctry) <->
  (exists ev, In ev events /\ raw_country ev = Some ctry /\
              raw_event_date ev = d /\ (current_date cl - 7 <= d)%Z).
Proof.
  rewrite <- in_keys, topics_keys.
  rewrite (in_distinct_iff key_eqb _ _ key_eqb_eq), in_keys. split.
  - intros [k [Hk [Hd Hc]]]. apply in_kept in Hk.
    destruct Hk as [ev [Hev [Hctry [Hdate [Hw _]]]]].
    exists ev. rewrite <- Hd, <- Hc. auto.
  - intros [ev [Hev [Hctry [Hdate Hw]]]].
    exists {| ke_event_date := d; ke_country := ctry; ke_code := EventRootCode ev;
              ke_tone := tone ev; ke_url := url ev |}.
    split; [| split; reflexivity].
    apply in_kept. exists ev. cbn. auto 8.
Qed.

(** An aggregate with a tone has an event with a tone. *)
Lemma topic_with_tone (cl : client) (cast_float64_as_string : float64 -> string)
  (events : list raw_event) (ds : dataset) (g : topic_row) (a : float64) :
  In g (daily_country_topics
          (create_daily_country_topics cl cast_float64_as_string events ds)) ->
  avg_tone g = Some a ->
  exists ev,
    In ev events /\ raw_country ev = Some (country g) /\
    raw_event_date ev = event_date g /\ tone ev <> None /\
    (current_date cl - 7 <= event_date g)%Z.
Proof.
  unfold create_daily_country_topics.
  cbn [daily_country_topics set_daily_country_topics]. intros Hg Ha.
  apply in_map_iff in Hg. destruct Hg as [r [<- Hr]].
  cbn [avg_tone to_topic_row] in Ha.
  change (event_date (to_topic_row cl cast_float64_as_string r)) with (event_date r).
  change (country (to_topic_row cl cast_float64_as_string r)) with (country r).
  destruct (country_day_row_origin cl events r Hr) as [_ [Havg _]].
  rewrite Havg in Ha. unfold sql_avg in Ha.
  destruct (omit_nulls (map ke_tone (events_of cl events (event_date r) (country r))))
    as [| x xs] eqn:Hvals; [discriminate |].
  assert (Hx : In (Some x) (map ke_tone (events_of cl events (event_date r) (country r)))).
  { apply in_omit_nulls. rewrite Hvals. now left. }
  apply in_map_iff in Hx. destruct Hx as [k [Hk Hkin]].
  unfold events_of in Hkin. apply filter_In in Hkin. destruct Hkin as [Hkin Hkey].
  apply has_key_eq in Hkey. destruct Hkey as [Hd Hc].
  apply in_kept in Hkin. destruct Hkin as [ev [Hev [Hctry [Hdate [Hw [_ [Htone _]]]]]]].
  exists ev. split; [exact Hev |]. rewrite Hctry, Hdate, Hc, Hd.
  repeat split; try reflexivity.
  - rewrite <- Htone, Hk. discriminate.
  - now rewrite <- Hd.
Qed.

(** X16. [create_daily_country_topics] writes one row per (event_date,
    country) that has an event of the last seven days naming the country;
    [headline_count] is the number of those events, at least 1, whether or
    not they carry a URL or a tone, and no row is older than seven days. *)
Theorem one_aggregate_per_country_day_of_the_window :
  forall (cl : client) (cast_float64_as_string : float64 -> string)
         (events : list raw_event) (ds : dataset),
    let out :=
      daily_country_topics
        (create_daily_country_topics cl cast_float64_as_string events ds) in
    NoDup (map key_of out) /\
    (forall (d : date) (ctry : string),
       (exists g, In g out /\ event_date g = d /\ country g = ctry) <->
       (exists ev, In ev events /\ raw_country ev = Some ctry /\
                   raw_event_date ev = d /\ (current_date cl - 7 <= d)%Z)) /\
    (forall g, In g out ->
       headline_count g =
         List.length (filter (counted cl (event_date g) (country g)) events) /\
       (1 <= headline_count g)%nat /\
       (current_date cl - 7 <= event_date g)%Z) /\
    (events = [] -> out = []).
Proof.
  intros cl fmt events ds out.
  assert (Hout : out = map (to_topic_row cl fmt) (country_day cl events)) by reflexivity.
  split; [| split; [| split]].
  - unfold out. rewrite topics_keys. apply distinct_NoDup. apply key_eqb_eq.
  - intros d ctry. apply topics_cover.
  - intros g Hg. rewrite Hout in Hg. apply in_map_iff in Hg.
    destruct Hg as [r [<- Hr]].
    destruct (country_day_row_origin cl events r Hr) as [Hcount [_ [_ [_ [_ [_ [k Hk]]]]]]].
    cbn [headline_count to_topic_row].
    change (event_date (to_topic_row cl fmt r)) with (event_date r).
    change (country (to_topic_row cl fmt r)) with (country r).
    rewrite Hcount, kept_count. split; [reflexivity |].
    unfold events_of in Hk. apply filter_In in Hk. destruct Hk as [Hk Hkey].
    apply has_key_eq in Hkey. destruct Hkey as [Hd Hc].
    apply in_kept in Hk. destruct Hk as [ev [Hev [Hctry [Hdate [Hw _]]]]].
    split; [| now rewrite <- Hd].
    assert (Hin : In ev (filter (counted cl (event_date r) (country r)) events)).
    { apply filter_In. split; [exact Hev |]. apply counted_spec.
      rewrite Hctry, Hdate, Hc, Hd. repeat split. now rewrite <- Hd. }
    destruct (filter (counted cl (event_date r) (country r)) events);
      [contradiction | simpl; lia].
  - intros ->. reflexivity.
Qed.

Lemma one_aggregate_per_country_day_of_the_window_witness :
  let out := daily_country_topics DemoEvents.aggregated in
  map (fun g => (event_date g, country g, headline_count g)) out
    = [ (10%Z, "A"%string, 3%nat); (10%Z, "B"%string, 1%nat) ] /\
  NoDup (map key_of out) /\
  forall g, In g out ->
    headline_count g =
      List.length (filter (counted Demo.fifo_client (event_date g) (country g))
                          DemoEvents.events) /\
    (1 <= headline_count g)%nat /\
    (Schema.current_date Demo.fifo_client - 7 <= event_date g)%Z.
Proof.
  cbv zeta. split; [vm_compute; reflexivity |].
  pose proof (one_aggregate_per_country_day_of_the_window
                Demo.fifo_client DemoEvents.hundredths DemoEvents.events
                Demo.empty_dataset) as [Hnd [_ [Hrows _]]].
  split; [exact Hnd | exact Hrows].
Defined.

(** *** The arrays *)

Lemma array_agg_distinct_spec (e : scan) (k : nat) (col : list (option string)) :
  match array_agg_distinct e k col with
  | None => forall x, ~ In (Some x) col
  | Some arr =>
      arr <> [] \/ k = 0%nat
  end /\
  let arr := match array_agg_distinct e k col with Some a => a | None => [] end in
  (List.length arr <= k)%nat /\
  NoDup arr /\
  (forall x, In x arr -> In (Some x) col) /\
  ((List.length (distinct String.eqb (omit_nulls col)) <= k)%nat ->
   forall x, In (Some x) col -> In x arr).
Proof.
  unfold array_agg_distinct, limit_any.
  destruct (omit_nulls col) as [| v vs] eqn:Hvals.
  - split.
    + intros x Hx. apply in_omit_nulls in Hx. rewrite Hvals in Hx. contradiction.
    + cbv zeta. split; [simpl; lia |]. split; [constructor |].
      split; [intros x [] |].
      intros _ x Hx. apply in_omit_nulls in Hx. rewrite Hvals in Hx. contradiction.
  - set (vals := distinct String.eqb (v :: vs)).
    assert (Hperm : Permutation vals (row_order e _ vals)) by apply row_order_perm.
    assert (Hnd : NoDup vals) by (apply distinct_NoDup; apply String.eqb_eq).
    split.
    + destruct k as [| k]; [now right | left].
      assert (Hv : In v (row_order e _ vals)).
      { apply (Permutation_in _ Hperm). unfold vals. simpl. now left. }
      destruct (row_order e _ vals); [contradiction | discriminate].
    + cbv zeta. split; [apply length_limit |].
      split; [apply NoDup_firstn; eapply Permutation_NoDup; eauto |].
      split.
      * intros x Hx. apply in_limit in Hx.
        apply (Permutation_in _ (Permutation_sym Hperm)) in Hx.
        apply in_distinct in Hx. apply in_omit_nulls. now rewrite Hvals.
      * intros Hlen x Hx. rewrite firstn_all2.
        -- apply (Permutation_in _ Hperm).
           apply (in_distinct_iff String.eqb _ _ String.eqb_eq).
           rewrite <- Hvals. now apply in_omit_nulls.
        -- rewrite <- (Permutation_length Hperm). exact Hlen.
Qed.

(** X17. [top_event_types] holds at most 20 and [sample_urls] at most 30
    values, none of them twice, each the event code (the URL) of an event
    of the key; when the key has no more distinct values than that, all of
    them are there; and the array is NULL exactly when no event of the key
    has a value. *)
Theorem arrays_hold_distinct_values_of_the_key :
  forall (cl : client) (events : list raw_event) (r : country_day_row),
    In r (country_day cl events) ->
    let mine := events_of cl events (event_date r) (country r) in
    let codes := match cd_top_event_types r with Some a => a | None => [] end in
    let urls := match cd_sample_urls r with Some a => a | None => [] end in
    ((List.length codes <= 20)%nat /\ NoDup codes /\
     (forall x, In x codes -> exists k, In k mine /\ ke_code k = Some x) /\
     ((List.length (distinct String.eqb (omit_nulls (map ke_code mine))) <= 20)%nat ->
      forall k x, In k mine -> ke_code k = Some x -> In x codes) /\
     (cd_top_event_types r = None <-> forall k, In k mine -> ke_code k = None)) /\
    ((List.length urls <= 30)%nat /\ NoDup urls /\
     (forall x, In x urls -> exists k, In k mine /\ ke_url k = Some x) /\
     ((List.length (distinct String.eqb (omit_nulls (map ke_url mine))) <= 30)%nat ->
      forall k x, In k mine -> ke_url k = Some x -> In x urls) /\
     (cd_sample_urls r = None <-> forall k, In k mine -> ke_url k = None)).
Proof.
  intros cl events r Hr mine codes urls.
  destruct (country_day_row_origin cl events r Hr) as [_ [_ [_ [_ [Hcodes [Hurls _]]]]]].
  fold mine in Hcodes, Hurls.
  assert (Hcol : forall (col : kept_event -> option string) (n : nat)
                        (stored : option (list string)),
    stored = array_agg_distinct (engine cl) n (map col mine) ->
    let arr := match stored with Some a => a | None => [] end in
    (List.length arr <= n)%nat /\ NoDup arr /\
    (forall x, In x arr -> exists k, In k mine /\ col k = Some x) /\
    ((List.length (distinct String.eqb (omit_nulls (map col mine))) <= n)%nat ->
     forall k x, In k mine -> col k = Some x -> In x arr) /\
    ((0 < n)%nat -> (stored = None <-> forall k, In k mine -> col k = None))).
  { intros col n stored ->. cbv zeta.
    destruct (array_agg_distinct_spec (engine cl) n (map col mine))
      as [Hnull [Hlen [Hnd [Hin Hall]]]].
    split; [exact Hlen |]. split; [exact Hnd |]. split; [| split].
    - intros x Hx. apply Hin in Hx. apply in_map_iff in Hx.
      destruct Hx as [k [Hk Hkin]]. eauto.
    - intros Hfew k x Hk Hx. apply (Hall Hfew). rewrite <- Hx. now apply in_map.
    - intros Hn.
      destruct (array_agg_distinct (engine cl) n (map col mine)) as [arr |] eqn:Harr.
      + split; [discriminate |]. intros Hnone. exfalso.
        destruct Hnull as [Hne | H0]; [| lia].
        destruct arr as [| x arr]; [congruence |].
        pose proof (Hin x (or_introl eq_refl)) as H.
        apply in_map_iff in H. destruct H as [k [Hk Hkin]].
        rewrite (Hnone k Hkin) in Hk. discriminate.
      + split; [| reflexivity]. intros _ k Hk.
        destruct (col k) as [x |] eqn:Hx; [| reflexivity].
        exfalso. apply (Hnull x). rewrite <- Hx. now apply in_map. }
  split.
  - destruct (Hcol ke_code 20%nat _ Hcodes) as [H1 [H2 [H3 [H4 H5]]]].
    repeat (split; [assumption |]). apply H5. lia.
  - destruct (Hcol ke_url 30%nat _ Hurls) as [H1 [H2 [H3 [H4 H5]]]].
    repeat (split; [assumption |]). apply H5. lia.
Qed.

Lemma arrays_hold_distinct_values_of_the_key_witness :
  let r := hd (Build_country_day_row 0%Z EmptyString 0 None None None None None)
              (country_day Demo.fifo_client DemoEvents.events) in
  In r (country_day Demo.fifo_client DemoEvents.events) /\
  cd_top_event_types r = Some [ "14"%string; "04"%string ] /\
  cd_sample_urls r = Some [ "https://a.example/1"%string; "https://a.example/2"%string ] /\
  NoDup (match cd_top_event_types r with Some a => a | None => [] end).
Proof.
  cbv zeta.
  match goal with
  | |- In ?x ?l /\ _ => assert (Hr : In x l) by (vm_compute; auto)
  end.
  split; [exact Hr |]. split; [vm_compute; reflexivity |].
  split; [vm_compute; reflexivity |].
  exact (proj1 (proj2 (proj1 (arrays_hold_distinct_values_of_the_key
                                Demo.fifo_client DemoEvents.events _ Hr)))).
Defined.

(** *** The document *)

Lemma tones_null_together (cl : client) (events : list raw_event) (r : country_day_row) :
  In r (country_day cl events) ->
  (cd_avg_tone r = None /\ cd_min_tone r = None /\ cd_max_tone r = None) \/
  (exists avg lo hi,
     cd_avg_tone r = Some avg /\ cd_min_tone r = Some lo /\ cd_max_tone r = Some hi).
Proof.
  intros Hr.
  destruct (country_day_row_origin cl events r Hr) as [_ [Havg [Hmin [Hmax _]]]].
  rewrite Havg, Hmin, Hmax.
  pose proof (tone_statistics
                (map ke_tone (events_of cl events (event_date r) (country r)))) as H.
  destruct (omit_nulls (map ke_tone (events_of cl events (event_date r) (country r)))).
  - now left.
  - right. destruct H as [avg [lo [hi [H1 [H2 [H3 _]]]]]].
    exists avg, lo, hi. repeat split; assumption.
Qed.

(** X18. [topic_doc] is one [CONCAT], so it is NULL as soon as one part
    is: exactly when the country-day has no tone, no event code or no URL
    at all.  Otherwise it starts with the country, the date and the
    headline count, in that order. *)
Theorem topic_doc_is_null_without_tone_code_or_url :
  forall (cl : client) (cast_float64_as_string : float64 -> string)
         (events : list raw_event) (ds : dataset) (g : topic_row),
    In g (daily_country_topics
            (create_daily_country_topics cl cast_float64_as_string events ds)) ->
    exists r,
      In r (country_day cl events) /\
      event_date r = event_date g /\ country r = country g /\
      avg_tone g = cd_avg_tone r /\
      (topic_doc g = None <->
       cd_avg_tone r = None \/ cd_top_event_types r = None \/ cd_sample_urls r = None) /\
      (forall doc, topic_doc g = Some doc ->
         exists rest,
           doc = ("Country: " ++ country g ++ " | Date: "
                  ++ cast_date_as_string cl (event_date g) ++ " | "
                  ++ "Headlines: " ++ cast_count_as_string (headline_count g) ++ " | "
                  ++ "Tone avg/min/max: " ++ rest)%string).
Proof.
  intros cl fmt events ds g Hg.
  unfold create_daily_country_topics in Hg.
  cbn [daily_country_topics set_daily_country_topics] in Hg.
  apply in_map_iff in Hg. destruct Hg as [r [<- Hr]].
  exists r. split; [exact Hr |]. split; [reflexivity |]. split; [reflexivity |].
  split; [reflexivity |].
  cbn [topic_doc to_topic_row headline_count].
  change (event_date (to_topic_row cl fmt r)) with (event_date r).
  change (country (to_topic_row cl fmt r)) with (country r).
  unfold topic_doc_of, rounded_text, array_text.
  destruct (tones_null_together cl events r Hr)
    as [[-> [-> ->]] | [avg [lo [hi [-> [-> ->]]]]]].
  - split; [split; [auto | reflexivity] | intros doc H; discriminate H].
  - destruct (cd_top_event_types r) as [codes |], (cd_sample_urls r) as [urls |];
      cbn [concat null_bind option_map sql_round].
    + split.
      * split; [discriminate | intros [H | [H | H]]; discriminate H].
      * intros doc H. inversion H. eexists. reflexivity.
    + split; [split; [auto | reflexivity] | intros doc H; discriminate H].
    + split; [split; [auto | reflexivity] | intros doc H; discriminate H].
    + split; [split; [auto | reflexivity] | intros doc H; discriminate H].
Qed.

Lemma topic_doc_is_null_without_tone_code_or_url_witness :
  let out := daily_country_topics DemoEvents.aggregated in
  map topic_doc out =
    [ Some "Country: A | Date: 2024-01-10 | Headlines: 3 | Tone avg/min/max: -150e-2/-400e-2/100e-2 | Top Event Codes: 14, 04 | Sample URLs: https://a.example/1 | https://a.example/2"%string;
      None ] /\
  let g := hd (Demo.topic 0%Z EmptyString 0 0%Q) out in
  In g out /\
  exists r,
    In r (country_day Demo.fifo_client DemoEvents.events) /\
    event_date r = event_date g /\ country r = country g /\
    avg_tone g = cd_avg_tone r /\
    (topic_doc g = None <->
     cd_avg_tone r = None \/ cd_top_event_types r = None \/ cd_sample_urls r = None).
Proof.
  cbv zeta. split; [vm_compute; reflexivity |].
  match goal with
  | |- In ?x ?l /\ _ => assert (Hg : In x l) by (vm_compute; auto)
  end.
  split; [exact Hg |].
  destruct (topic_doc_is_null_without_tone_code_or_url
              Demo.fifo_client DemoEvents.hundredths DemoEvents.events
              Demo.empty_dataset _ Hg) as [r [Hr [Hd [Hc [Ha [Hnull _]]]]]].
  exists r. auto.
Defined.

(** *** The embeddings *)




End AggregatorFacts.

(* ===================================================================== *)
(** ** The text of the analogs *)
(* ===================================================================== *)

Module AnalogText.
Import Sql Schema Processing Analytics Analytics.Briefings Spec.
Import SqlFacts SchemaFacts TableFacts.

(** The lines of the analog text: one per analog that has a snippet. *)
Definition lines (cl : client) (arr : list analog) : list string :=
  flat_map (fun a =>
    match snippet a with
    | Some s => [ (cast_date_as_string cl (past_date a) ++ ": " ++ s)%string ]
    | None => []
    end) arr.

Lemma analog_line_eq (cl : client) (a : analog) :
  analog_line cl a =
  match snippet a with
  | Some s => Some (cast_date_as_string cl (past_date a) ++ ": " ++ s)%string
  | None => None
  end.
Proof.
  unfold analog_line. destruct (snippet a) as [s |]; cbn [concat null_bind];
    [now rewrite append_empty | reflexivity].
Qed.

Lemma omit_nulls_lines (cl : client) (arr : list analog) :
  omit_nulls (map (analog_line cl) arr) = lines cl arr.
Proof.
  unfold lines. induction arr as [| a arr IH]; [reflexivity |].
  cbn [map flat_map]. rewrite analog_line_eq.
  destruct (snippet a); cbn [omit_nulls app]; now rewrite IH.
Qed.

Lemma lines_nil (cl : client) (arr : list analog) :
  (forall a, In a arr -> snippet a = None) -> lines cl arr = [].
Proof.
  unfold lines. induction arr as [| a arr IH]; intros Hnone; [reflexivity |].
  cbn [flat_map]. rewrite (Hnone a (or_introl eq_refl)), IH; [reflexivity |].
  intros; apply Hnone; now right.
Qed.

(** X20. [analogs_txt] lists the analogs nearest first, one line
    "date: snippet" per analog, joined by a newline and "- "; an analog
    whose snippet is NULL has no line, because its [CONCAT] is NULL and
    [ARRAY_TO_STRING] leaves NULL elements out.  A row whose analogs all
    lack a snippet therefore gets the empty text, and that is what the
    briefing prompt then carries: the fallback 'None' of [normalized] only
    replaces a NULL text, that is, a country-day without a [daily_analogs]
    row. *)
Theorem analogs_without_snippet_have_no_line :
  (forall (cl : client) (a : analog),
     analog_line cl a =
     match snippet a with
     | Some s => Some (cast_date_as_string cl (past_date a) ++ ": " ++ s)%string
     | None => None
     end) /\
  (forall (cl : client) (ds : dataset) (df : list analog_result) (analog_topk : nat)
          (row : daily_analogs_row),
     In row (daily_analogs (save_daily_analogs cl ds df analog_topk)) ->
     (exists ordered,
        Permutation (analogs row) ordered /\ ascending ordered /\
        analogs_txt row = join (nl ++ "- ")%string (lines cl ordered)) /\
     ((forall a, In a (analogs row) -> snippet a = None) ->
      analogs_txt row = EmptyString)) /\
  (forall (cl : client) (s : to_summarize_row),
     (ts_analogs_txt s = Some EmptyString ->
      n_analogs_txt (normalize cl s) = EmptyString) /\
     (ts_analogs_txt s = None -> n_analogs_txt (normalize cl s) = "None"%string)).
Proof.
  split; [exact analog_line_eq |]. split.
  - intros cl ds df k row Hrow.
    destruct (AnalogRetriever.aggregate_analogs_row cl df k row Hrow) as [_ [Htxt _]].
    unfold render_analogs, array_to_string in Htxt. rewrite omit_nulls_lines in Htxt.
    split.
    + exists (order_by (engine cl) (by_distance distance) (analogs row)).
      split; [apply order_by_perm |].
      split; [apply AnalogRetriever.order_by_distance_sorted | exact Htxt].
    + intros Hnone. rewrite Htxt, lines_nil; [reflexivity |].
      intros a Ha. apply Hnone. now apply in_order_by in Ha.
  - intros cl s. split; intros H; unfold normalize; cbn [n_analogs_txt];
      rewrite H; reflexivity.
Qed.

Lemma analogs_without_snippet_have_no_line_witness :
  let df :=
    [ {| ar_event_date := 10%Z; ar_country := "A"%string; ar_past_date := 9%Z;
         ar_snippet := None; ar_distance := 1 # 10 |};
      {| ar_event_date := 10%Z; ar_country := "B"%string; ar_past_date := 8%Z;
         ar_snippet := Some "quiet"%string; ar_distance := 2 # 10 |};
      {| ar_event_date := 10%Z; ar_country := "B"%string; ar_past_date := 7%Z;
         ar_snippet := None; ar_distance := 1 # 10 |} ] in
  let out := daily_analogs (save_daily_analogs Demo.fifo_client Demo.empty_dataset df 5) in
  let row := hd (Build_daily_analogs_row 0%Z EmptyString [] EmptyString) out in
  map analogs_txt out = [ EmptyString; "2024-01-08: quiet"%string ] /\
  In row out /\
  (forall a, In a (analogs row) -> snippet a = None) /\
  analogs_txt row = EmptyString.
Proof.
  cbv zeta. split; [vm_compute; reflexivity |].
  match goal with
  | |- In ?x ?l /\ ?H /\ _ =>
      assert (Hrow : In x l) by (vm_compute; auto);
      assert (Hnone : H) by (intros a [<- | []]; reflexivity)
  end.
  split; [exact Hrow |]. split; [exact Hnone |].
  exact (proj2 (proj1 (proj2 analogs_without_snippet_have_no_line)
                  Demo.fifo_client Demo.empty_dataset _ 5%nat _ Hrow) Hnone).
Defined.

End AnalogText.

(* ===================================================================== *)
(** ** The stages, one after the other *)
(* ===================================================================== *)

Module PipelineFacts.
Import Schema Pipeline.
Open Scope string_scope.

Lemma mem_In (n : string) (l : list string) : mem n l = true <-> In n l.
Proof.
  unfold mem. rewrite existsb_exists. split.
  - intros [x [Hx Heq]]. apply String.eqb_eq in Heq. now subst.
  - intros H. exists n. split; [exact H | apply String.eqb_refl].
Qed.

(** [from m import ...] goes through exactly when the module holds every
    name; otherwise it stops at the first name it does not hold. *)
Lemma first_missing_spec (held names : list string) :
  match first_missing held names with
  | None => forall n, In n names -> In n held
  | Some n =>
      ~ In n held /\
      exists before after,
        names = (before ++ n :: after)%list /\ forall x, In x before -> In x held
  end.
Proof.
  induction names as [| x names IH]; simpl; [intros n [] |].
  destruct (mem x held) eqn:Hx.
  - apply mem_In in Hx. destruct (first_missing held names) as [n |].
    + destruct IH as [Hn [before [after [-> Hbefore]]]]. split; [exact Hn |].
      exists (x :: before), after. split; [reflexivity |].
      intros y [<- | Hy]; auto.
    + intros n [<- | Hn]; auto.
  - split.
    + intros H. apply mem_In in H. congruence.
    + exists [], names. split; [reflexivity | intros y []].
Qed.

(** X21. [pipeline.py] cannot run a stage.  Its third import asks
    [processing] for ten names, and [processing.py] defines the first five
    only; the other five are the functions of [analytics.py], which
    [pipeline.py] never imports.  So the script stops while its top level
    is loaded, before [main] is defined or called: with the Google
    packages installed it raises ImportError for
    [create_today_for_analogs], the first missing name, and without them
    the first import fails already.  Whatever [main] would do, the tables
    stay as they were. *)
Theorem the_script_stops_at_its_imports :
  (forall (installed : string -> bool) (main : dataset -> dataset) (ds : dataset),
     fst (run_script installed main ds) <> Loaded /\
     snd (run_script installed main ds) = ds) /\
  (forall (installed : string -> bool) (main : dataset -> dataset) (ds : dataset),
     installed "google.cloud" = true -> installed "vertexai" = true ->
     run_script installed main ds
     = (ImportError "create_today_for_analogs" "processing", ds)) /\
  first_missing (bound processing_py) asked_of_processing
  = Some "create_today_for_analogs" /\
  filter (fun n => negb (mem n (bound processing_py))) asked_of_processing
  = defs analytics_py /\
  first_missing (bound processing_py ++ bound analytics_py)%list asked_of_processing = None.
Proof.
  assert (Hcases : forall installed,
            load (List.length repository) installed "pipeline"
            = (if installed "google.cloud"
               then if installed "vertexai"
                    then ImportError "create_today_for_analogs" "processing"
                    else ModuleNotFoundError "vertexai"
               else ModuleNotFoundError "google.cloud")).
  { intros installed. cbn.
    destruct (installed "google.cloud"); [| reflexivity].
    destruct (installed "vertexai"); reflexivity. }
  split; [| split; [| split; [reflexivity | split; reflexivity]]].
  - intros installed main ds. unfold run_script. rewrite Hcases.
    destruct (installed "google.cloud"); [| split; [discriminate | reflexivity]].
    destruct (installed "vertexai"); split; try discriminate; reflexivity.
  - intros installed main ds Hgoogle Hvertex. unfold run_script.
    rewrite Hcases, Hgoogle, Hvertex. reflexivity.
Qed.

Lemma the_script_stops_at_its_imports_witness :
  run_script (fun _ => true) (fun ds => Demo.empty_dataset) Demo.week
  = (ImportError "create_today_for_analogs" "processing", Demo.week).
Proof.
  apply (proj1 (proj2 the_script_stops_at_its_imports)); reflexivity.
Defined.

End PipelineFacts.

(* ===================================================================== *)
(** ** Where the analogs come from *)
(* ===================================================================== *)

Module SearchCandidates.
Import Sql Schema Processing Analytics Spec SqlFacts SchemaFacts TableFacts.
Open Scope string_scope.

(** A vector search that does return the [k] nearest rows, on
    one-dimensional embeddings. *)
Definition nearest_search (base : list embedding_row) (query : list (list float64))
  (k : nat) : list (embedding_row * float64) :=
  match query with
  | [] => []
  | q :: _ =>
      firstn k
        (sort_by (by_distance snd)
           (map (fun b => (b, Qabs (hd 0%Q q - hd 0%Q (embedding b)))%Q) base))
  end.

Definition nearest_client : client :=
  {| engine := fifo_scan;
     current_date := 10%Z;
     cast_date_as_string := Demo.january;
     vector_search := nearest_search;
     gen_model := Demo.toy_model;
     themes_nice := fun s => s;
     people_nice := fun s => s |}.

(** Ten countries on day 10 with embeddings 0 to 9, and an older day of A
    far away, at 100: the ten rows nearest to A's anchor are all of day
    10. *)
Definition crowded : dataset :=
  {| gdelt_events_enriched := [];
     daily_country_topics := [];
     news_embeddings :=
       [ Demo.embed 10%Z "A" 0; Demo.embed 10%Z "B" 1; Demo.embed 10%Z "C" 2;
         Demo.embed 10%Z "D" 3; Demo.embed 10%Z "E" 4; Demo.embed 10%Z "F" 5;
         Demo.embed 10%Z "G" 6; Demo.embed 10%Z "H" 7; Demo.embed 10%Z "I" 8;
         Demo.embed 10%Z "J" 9; Demo.embed 9%Z "A" 100 ];
     today_for_analogs := [ {| tfa_event_date := 10%Z; tfa_country := "A" |} ];
     daily_analogs_flat := []; daily_analogs := [];
     daily_top_entities := []; daily_briefings := []; daily_moodmap := [] |}.

(** X22. Every analog is one of the ten rows the vector search returns
    for the anchor of its key, searched over the whole of
    [news_embeddings], whatever the country of the row: its past date,
    distance and snippet are that row's, and the row is dated before the
    anchor.  The dates are filtered after the search has cut to ten, so
    when the ten nearest rows are all of the anchor's day or later nothing
    is found, even though the table holds an earlier row. *)
Theorem analogs_are_among_the_ten_search_results :
  (forall (cl : client) (ds : dataset) (analog_snip_chars analog_topk : nat)
          (r : analog_result),
     In r (run_analog_searches cl ds analog_snip_chars analog_topk) ->
     exists (v : embedding_row) (dist : float64),
       In (v, dist)
          (vector_search cl (news_embeddings ds)
             (anchor cl ds (country r) (event_date r)) 10) /\
       ar_past_date r = event_date v /\ ar_distance r = dist /\
       ar_snippet r = strip_urls_substr (ne_topic_doc v) analog_snip_chars /\
       (event_date v < event_date r)%Z) /\
  (forall (cl : client) (ds : dataset) (row : cohort_row)
          (analog_snip_chars analog_topk : nat),
     (forall v dist,
        In (v, dist)
           (vector_search cl (news_embeddings ds)
              (anchor cl ds (country row) (event_date row)) 10) ->
        (event_date row <= event_date v)%Z) ->
     sim_query cl ds row analog_snip_chars analog_topk = []) /\
  (run_analog_searches nearest_client crowded 400 5 = [] /\
   In (Demo.embed 9%Z "A" 100) (news_embeddings crowded)).
Proof.
  split; [| split].
  - intros cl ds snip k r Hr.
    destruct (AnalogRetriever.run_analog_searches_row cl ds snip k r Hr) as [row [_ Hq]].
    unfold sim_query in Hq. apply in_map_iff in Hq. destruct Hq as [cand [<- Hcand]].
    apply in_limit, in_order_by in Hcand. apply filter_In in Hcand.
    destruct Hcand as [Hcand Hbefore]. apply Z.ltb_lt in Hbefore.
    unfold fn_similar_to_day in Hcand. apply in_map_iff in Hcand.
    destruct Hcand as [[v dist] [<- Hvs]]. apply filter_In in Hvs.
    destruct Hvs as [Hvs _].
    exists v, dist. split; [exact Hvs |]. repeat split. exact Hbefore.
  - intros cl ds row snip k Hlate. unfold sim_query.
    rewrite filter_nil; [rewrite order_by_nil; unfold limit; now rewrite firstn_nil |].
    intros cand Hcand. unfold fn_similar_to_day in Hcand. apply in_map_iff in Hcand.
    destruct Hcand as [[v dist] [<- Hvs]]. apply filter_In in Hvs.
    destruct Hvs as [Hvs _]. apply Z.ltb_ge.
    exact (Hlate v dist Hvs).
  - split; [vm_compute; reflexivity | vm_compute; auto 12].
Qed.

Lemma analogs_are_among_the_ten_search_results_witness :
  let found := run_analog_searches Demo.fifo_client Demo.week_cohort 400 5 in
  let r := hd (Build_analog_result 0%Z EmptyString 0%Z None 0%Q) found in
  In r found /\
  (event_date r = 10%Z /\ country r = "A" /\ ar_past_date r = 9%Z) /\
  exists (v : embedding_row) (dist : float64),
    In (v, dist)
       (vector_search Demo.fifo_client (news_embeddings Demo.week_cohort)
          (anchor Demo.fifo_client Demo.week_cohort (country r) (event_date r)) 10) /\
    ar_past_date r = event_date v /\ ar_distance r = dist /\
    ar_snippet r = strip_urls_substr (ne_topic_doc v) 400 /\
    (event_date v < event_date r)%Z.
Proof.
  cbv zeta.
  match goal with
  | |- In ?x ?l /\ _ => assert (Hr : In x l) by (vm_compute; auto)
  end.
  split; [exact Hr |]. split; [vm_compute; auto |].
  exact (proj1 analogs_are_among_the_ten_search_results
           Demo.fifo_client Demo.week_cohort 400%nat 5%nat _ Hr).
Defined.

End SearchCandidates.
